(** * mmal: a first-fit allocator over mmap'ed arenas (mmal.c)

    A shallow embedding of [mmal.c] over a flat, byte-addressed memory, and
    the properties of its three entry points [mmalloc], [mfree] and
    [mrealloc] that the specification states.

    Machine model (LP64, little endian): pointers and [size_t] are 64-bit
    values kept in [Z]; arithmetic on them wraps around, which is written
    out with [wrap].  The struct layouts are

      struct header { Header *next; size_t size; size_t asize; }   24 bytes
      struct arena  { Arena  *next; size_t size; }                 16 bytes

    Memory is a map from byte addresses to byte values together with the
    list of regions that [mmap] has handed out.  Headers are not kept apart
    from the bytes of the blocks: a header is whatever the 24 bytes at its
    address hold, so a header written over another one, or over the bytes of
    a block, is seen as such.  Touching a byte outside every mapped region is
    a fault (the process is killed).  The loops of the C code carry fuel;
    running out of fuel is reported apart from a fault. *)

From Stdlib Require Import ZArith List Bool Lia String.
Import ListNotations.
Local Open Scope Z_scope.

(** ** Machine words *)

Definition WORD : Z := Eval cbv in 2 ^ 64.
Definition wrap (x : Z) : Z := x mod WORD.

Definition NULL : Z := 0.
(** [MAP_FAILED] of <sys/mman.h>: [(void * ) -1]. *)
Definition MAP_FAILED : Z := WORD - 1.

Definition sizeof_Header : Z := 24.
Definition sizeof_Arena : Z := 16.
Definition PAGE_SIZE : Z := 128 * 1024.

(** Field offsets. *)
Definition hdr_next (h : Z) : Z := h.
Definition hdr_size (h : Z) : Z := h + 8.
Definition hdr_asize (h : Z) : Z := h + 16.
Definition arena_next (a : Z) : Z := a.
Definition arena_size (a : Z) : Z := a + 8.

(** ** Memory *)

Definition Mem := Z -> Z.

Definition byte_at (m : Mem) (x : Z) : Z := m x mod 256.

Definition read64 (m : Mem) (a : Z) : Z :=
  byte_at m a
  + byte_at m (a + 1) * 2 ^ 8
  + byte_at m (a + 2) * 2 ^ 16
  + byte_at m (a + 3) * 2 ^ 24
  + byte_at m (a + 4) * 2 ^ 32
  + byte_at m (a + 5) * 2 ^ 40
  + byte_at m (a + 6) * 2 ^ 48
  + byte_at m (a + 7) * 2 ^ 56.

Definition write64 (m : Mem) (a v : Z) : Mem :=
  fun x => if (a <=? x) && (x <? a + 8)
           then (v / 2 ^ (8 * (x - a))) mod 256
           else m x.

Definition in_region (x : Z) (r : Z * Z) : bool :=
  (fst r <=? x) && (x <? fst r + snd r).

Definition mapped_byte (rs : list (Z * Z)) (x : Z) : bool :=
  existsb (in_region x) rs.

Definition mapped (rs : list (Z * Z)) (a : Z) (n : nat) : bool :=
  forallb (fun i => mapped_byte rs (a + Z.of_nat i)) (seq 0 n).

(** ** Process state

    [first_arena] is the global of mmal.c.  [os] lists what the kernel will
    answer to the coming [mmap] calls (a base address, or [MAP_FAILED]); an
    exhausted list means the kernel denies every further mapping.  [err]
    collects the lines written to stderr. *)

Record State : Type := mkState {
  mem : Mem;
  regions : list (Z * Z);
  first_arena : Z;
  os : list Z;
  err : list string
}.

Definition init_state (answers : list Z) : State :=
  mkState (fun _ => 0) [] NULL answers [].

(** ** The monad of the embedding: state, faults and fuel *)

Inductive Res (A : Type) : Type :=
| Ok (a : A) (s : State)
| Fault
| OutOfFuel.
Arguments Ok {A} a s.
Arguments Fault {A}.
Arguments OutOfFuel {A}.

Definition M (A : Type) : Type := State -> Res A.

Definition ret {A} (a : A) : M A := fun s => Ok a s.

Definition bind {A B} (c : M A) (k : A -> M B) : M B :=
  fun s => match c s with
           | Ok a s' => k a s'
           | Fault => Fault
           | OutOfFuel => OutOfFuel
           end.

(** What a run returned, and the state it left. *)
Definition result {A} (r : Res A) : option A :=
  match r with Ok a _ => Some a | _ => None end.

Definition state_after {A} (c : M A) (s : State) : State :=
  match c s with Ok _ s' => s' | _ => s end.

Notation "x <- c ;; k" := (bind c (fun x => k))
  (at level 61, c at next level, right associativity).
Notation "c ;;; k" := (bind c (fun _ => k))
  (at level 61, right associativity).

Definition with_mem (s : State) (m : Mem) : State :=
  mkState m (regions s) (first_arena s) (os s) (err s).

Definition load64 (a : Z) : M Z :=
  fun s => if mapped (regions s) a 8 then Ok (read64 (mem s) a) s else Fault.

Definition store64 (a v : Z) : M unit :=
  fun s => if mapped (regions s) a 8
           then Ok tt (with_mem s (write64 (mem s) a v))
           else Fault.

Definition get_first_arena : M Z := fun s => Ok (first_arena s) s.

Definition set_first_arena (a : Z) : M unit :=
  fun s => Ok tt (mkState (mem s) (regions s) a (os s) (err s)).

(** [fprintf(stderr, ...)]; the trailing newline is left out of the log. *)
Definition fprintf_stderr (msg : string) : M unit :=
  fun s => Ok tt (mkState (mem s) (regions s) (first_arena s) (os s)
                          (err s ++ [msg])).

(** [mmap(NULL, len, PROT_READ|PROT_WRITE, MAP_PRIVATE|MAP_ANONYMOUS, -1, 0)]:
    a zero length is refused (EINVAL); otherwise the kernel's next answer is
    taken.  A successful call maps [len] zero-filled bytes at the answer. *)
Definition mmap (len : Z) : M Z :=
  fun s =>
    if len =? 0 then Ok MAP_FAILED s
    else match os s with
         | [] => Ok MAP_FAILED s
         | r :: rest =>
           if r =? MAP_FAILED
           then Ok MAP_FAILED (mkState (mem s) (regions s) (first_arena s)
                                       rest (err s))
           else Ok r (mkState
                        (fun x => if in_region x (r, len) then 0 else mem s x)
                        ((r, len) :: regions s) (first_arena s) rest (err s))
         end.

(** [memcpy(dst, src, n)]: every byte of both ranges must be mapped; the
    source bytes are read from the memory before the call. *)
Definition memcpy (dst src n : Z) : M unit :=
  fun s =>
    if mapped (regions s) src (Z.to_nat n) && mapped (regions s) dst (Z.to_nat n)
    then Ok tt (with_mem s
                  (fun x => if (dst <=? x) && (x <? dst + n)
                            then byte_at (mem s) (src + (x - dst))
                            else mem s x))
    else Fault.

(** The client program writing [bs] at [p], and reading [n] bytes back. *)
Fixpoint poke (p : Z) (bs : list Z) : M unit :=
  match bs with
  | [] => ret tt
  | b :: rest =>
    fun s =>
      if mapped_byte (regions s) p
      then poke (p + 1) rest
             (with_mem s (fun x => if x =? p then b mod 256 else mem s x))
      else Fault
  end.

Fixpoint peek (p : Z) (n : nat) : M (list Z) :=
  match n with
  | O => ret []
  | S k =>
    fun s =>
      if mapped_byte (regions s) p
      then (rest <- peek (p + 1) k ;; ret (byte_at (mem s) p :: rest)) s
      else Fault
  end.

(** ** mmal.c *)

(** [allign_page], lines 67-70. *)
Definition allign_page (size : Z) : Z :=
  if size <? PAGE_SIZE then PAGE_SIZE
  else wrap ((size / PAGE_SIZE + 1) * PAGE_SIZE).

(** [arena_alloc], lines 85-102.  The argument check only writes to stderr;
    the result of [mmap] is compared with [NULL]. *)
Definition arena_alloc (req_size : Z) : M Z :=
  (if req_size <=? sizeof_Arena + sizeof_Header
   then fprintf_stderr "Arena Allocation Failed"
   else ret tt) ;;;
  let asz := allign_page req_size in
  tmp <- mmap asz ;;
  if tmp =? NULL then ret NULL
  else
    store64 (arena_next tmp) NULL ;;;
    store64 (arena_size tmp) asz ;;;
    ret tmp.

(** The loop of [arena_append], line 118. *)
Fixpoint arena_last (fuel : nat) (last : Z) : M Z :=
  match fuel with
  | O => fun _ => OutOfFuel
  | S f =>
    nx <- load64 (arena_next last) ;;
    if nx =? NULL then ret last else arena_last f nx
  end.

(** [arena_append], lines 108-120. *)
Definition arena_append (fuel : nat) (a : Z) : M unit :=
  fa <- get_first_arena ;;
  if fa =? NULL then set_first_arena a
  else
    last <- arena_last fuel fa ;;
    store64 (arena_next last) a.

(** [hdr_ctor], lines 135-146. *)
Definition hdr_ctor (hdr size : Z) : M unit :=
  if hdr =? NULL then ret tt
  else
    (if size <=? 0 then fprintf_stderr "Wrong size" else ret tt) ;;;
    store64 (hdr_size hdr) size ;;;
    store64 (hdr_asize hdr) 0 ;;;
    store64 (hdr_next hdr) NULL.

(** [hdr_should_split], lines 156-163: the subtraction is on [size_t]. *)
Definition hdr_should_split (hdr size : Z) : M bool :=
  if hdr =? NULL then ret false
  else
    asz <- load64 (hdr_asize hdr) ;;
    if negb (asz =? 0) then ret false
    else if size =? 0 then ret false
    else
      sz <- load64 (hdr_size hdr) ;;
      ret (0 <? wrap (sz - sizeof_Header - size)).

(** [hdr_split], lines 188-205. *)
Definition hdr_split (hdr req_size : Z) : M Z :=
  if hdr =? NULL then ret NULL
  else
    sz <- load64 (hdr_size hdr) ;;
    if sz <? req_size then ret NULL
    else
      let new_hdr := wrap (hdr + sizeof_Header + req_size) in
      hdr_ctor new_hdr (wrap (sz - req_size - sizeof_Header)) ;;;
      store64 (hdr_size hdr) req_size ;;;
      nx <- load64 (hdr_next hdr) ;;
      store64 (hdr_next new_hdr) nx ;;;
      store64 (hdr_next hdr) new_hdr ;;;
      ret new_hdr.

(** The arena scan of [hdr_can_merge], lines 221-225: [true] when the loop
    falls through, [false] when it returns early. *)
Fixpoint can_merge_scan (fuel : nat) (right last_arena : Z) : M bool :=
  match fuel with
  | O => fun _ => OutOfFuel
  | S f =>
    nx <- load64 (arena_next last_arena) ;;
    if nx =? NULL then ret true
    else
      rn <- load64 (hdr_next right) ;;
      if negb (rn =? wrap (last_arena + sizeof_Arena)) then ret false
      else can_merge_scan f right nx
  end.

(** [hdr_can_merge], lines 215-229. *)
Definition hdr_can_merge (fuel : nat) (left right : Z) : M bool :=
  if (left =? NULL) || (right =? NULL) then ret false
  else
    fa <- get_first_arena ;;
    through <- can_merge_scan fuel right fa ;;
    if negb through then ret false
    else
      la <- load64 (hdr_asize left) ;;
      if negb (la =? 0) then ret false
      else
        ra <- load64 (hdr_asize right) ;;
        if negb (ra =? 0) then ret false
        else
          ln <- load64 (hdr_next left) ;;
          if negb (ln =? right) then ret false
          else if left =? right then ret false
          else ret (left <? right).

(** [hdr_merge], lines 238-248. *)
Definition hdr_merge (left right : Z) : M unit :=
  if (left =? NULL) || (right =? NULL) then ret tt
  else
    ln <- load64 (hdr_next left) ;;
    if negb (ln =? right) || (left =? right) then ret tt
    else
      ls <- load64 (hdr_size left) ;;
      rs <- load64 (hdr_size right) ;;
      store64 (hdr_size left) (wrap (ls + wrap (rs + sizeof_Header))) ;;;
      rn <- load64 (hdr_next right) ;;
      store64 (hdr_next left) rn.

(** The test [hdr->asize == 0 && hdr->size >= size] of [first_fit]. *)
Definition block_fits (h size : Z) : M bool :=
  asz <- load64 (hdr_asize h) ;;
  if asz =? 0
  then sz <- load64 (hdr_size h) ;; ret (size <=? sz)
  else ret false.

(** The loop of [first_fit], lines 264-272, entered at header [h]. *)
Fixpoint first_fit_loop (fuel : nat) (size h : Z) : M Z :=
  match fuel with
  | O => fun _ => OutOfFuel
  | S f =>
    nx <- load64 (hdr_next h) ;;
    fa <- get_first_arena ;;
    if negb (nx =? wrap (fa + sizeof_Arena))
    then
      fits <- block_fits h size ;;
      if fits then ret h
      else nx' <- load64 (hdr_next h) ;; first_fit_loop f size nx'
    else
      fits <- block_fits h size ;;
      if fits then ret h else ret NULL
  end.

(** [first_fit], lines 256-273. *)
Definition first_fit (fuel : nat) (size : Z) : M Z :=
  if size <=? 0 then ret NULL
  else
    fa <- get_first_arena ;;
    if fa =? NULL then ret NULL
    else first_fit_loop fuel size (wrap (fa + sizeof_Arena)).

(** The loop of [hdr_get_prev], line 289. *)
Fixpoint get_prev_loop (fuel : nat) (hdr temp : Z) : M Z :=
  match fuel with
  | O => fun _ => OutOfFuel
  | S f =>
    nx <- load64 (hdr_next temp) ;;
    if nx =? hdr then ret temp else get_prev_loop f hdr nx
  end.

(** [hdr_get_prev], lines 282-291. *)
Definition hdr_get_prev (fuel : nat) (hdr : Z) : M Z :=
  fa <- get_first_arena ;;
  if (fa =? NULL) || (hdr =? NULL) then ret hdr
  else get_prev_loop fuel hdr hdr.

(** The else branch of [mmalloc], lines 314-328, entered with the result of
    [arena_alloc]; it ends with the common tail of the function, lines
    330-331. *)
Definition mmalloc_new_arena (fuel : nat) (size new_arena : Z) : M Z :=
  (if new_arena =? NULL
   then fprintf_stderr "Arena Allocation Failed"
   else ret tt) ;;;
  arena_append fuel new_arena ;;;
  let free_hdr := wrap (new_arena + sizeof_Arena) in
  asz <- load64 (arena_size new_arena) ;;
  hdr_ctor free_hdr (wrap (asz - sizeof_Arena - sizeof_Header)) ;;;
  fa <- get_first_arena ;;
  store64 (hdr_next free_hdr) (wrap (fa + sizeof_Arena)) ;;;
  fa' <- get_first_arena ;;
  prev <- hdr_get_prev fuel (wrap (fa' + sizeof_Arena)) ;;
  store64 (hdr_next prev) free_hdr ;;;
  split <- hdr_should_split free_hdr size ;;
  (if split then hdr_split free_hdr size ;;; ret tt else ret tt) ;;;
  store64 (hdr_asize free_hdr) size ;;;
  ret (wrap (free_hdr + sizeof_Header)).

(** [mmalloc], lines 298-332. *)
Definition mmalloc (fuel : nat) (size : Z) : M Z :=
  if size <=? 0 then ret NULL
  else
    free_hdr <- first_fit fuel size ;;
    if negb (free_hdr =? NULL)
    then
      split <- hdr_should_split free_hdr size ;;
      (if split then hdr_split free_hdr size ;;; ret tt else ret tt) ;;;
      store64 (hdr_asize free_hdr) size ;;;
      ret (wrap (free_hdr + sizeof_Header))
    else
      new_arena <- arena_alloc (wrap (size + sizeof_Arena + sizeof_Header)) ;;
      mmalloc_new_arena fuel size new_arena.

(** [mfree], lines 339-352. *)
Definition mfree (fuel : nat) (ptr : Z) : M unit :=
  if negb (ptr =? NULL)
  then
    let free_hdr := wrap (ptr - sizeof_Header) in
    store64 (hdr_asize free_hdr) 0 ;;;
    nx <- load64 (hdr_next free_hdr) ;;
    m1 <- hdr_can_merge fuel free_hdr nx ;;
    (if m1
     then nx' <- load64 (hdr_next free_hdr) ;; hdr_merge free_hdr nx'
     else ret tt) ;;;
    prev <- hdr_get_prev fuel free_hdr ;;
    m2 <- hdr_can_merge fuel prev free_hdr ;;
    if m2
    then prev' <- hdr_get_prev fuel free_hdr ;; hdr_merge prev' free_hdr
    else ret tt
  else ret tt.

(** [mrealloc], lines 362-421. *)
Definition mrealloc (fuel : nat) (ptr size : Z) : M Z :=
  if ptr =? NULL then ret NULL
  else if size =? 0 then mfree fuel ptr ;;; ret NULL
  else
    let used_hdr := wrap (ptr - sizeof_Header) in
    usz <- load64 (hdr_size used_hdr) ;;
    if size <? usz
    then
      store64 (hdr_asize used_hdr) 0 ;;;
      split <- hdr_should_split used_hdr size ;;
      (if split then hdr_split used_hdr size ;;; ret tt else ret tt) ;;;
      store64 (hdr_asize used_hdr) size ;;;
      ret ptr
    else if size =? usz then ret ptr
    else
      usz' <- load64 (hdr_size used_hdr) ;;
      if size <=? usz'
      then store64 (hdr_asize used_hdr) size ;;; ret ptr
      else
        hdr_asize_old <- load64 (hdr_asize used_hdr) ;;
        store64 (hdr_asize used_hdr) 0 ;;;
        nx <- load64 (hdr_next used_hdr) ;;
        nasz <- load64 (hdr_asize nx) ;;
        roomy <- (if nasz =? 0
                  then
                    nx1 <- load64 (hdr_next used_hdr) ;;
                    nsz <- load64 (hdr_size nx1) ;;
                    usz1 <- load64 (hdr_size used_hdr) ;;
                    if wrap (size - usz1) <=? wrap (nsz + sizeof_Header)
                    then
                      nx2 <- load64 (hdr_next used_hdr) ;;
                      hdr_can_merge fuel used_hdr nx2
                    else ret false
                  else ret false) ;;
        if roomy
        then
          nx3 <- load64 (hdr_next used_hdr) ;;
          hdr_merge used_hdr nx3 ;;;
          split <- hdr_should_split used_hdr size ;;
          (if split then hdr_split used_hdr size ;;; ret tt else ret tt) ;;;
          store64 (hdr_asize used_hdr) size ;;;
          ret ptr
        else
          p <- mmalloc fuel size ;;
          let new_hdr := wrap (p - sizeof_Header) in
          memcpy (wrap (new_hdr + sizeof_Header))
                 (wrap (used_hdr + sizeof_Header)) hdr_asize_old ;;;
          mfree fuel (wrap (used_hdr + sizeof_Header)) ;;;
          ret (wrap (new_hdr + sizeof_Header)).

(** ** Predicates on states *)

(** The kernel denies the next mapping. *)
Definition os_denies (s : State) : Prop :=
  match os s with
  | [] => True
  | r :: _ => r = MAP_FAILED
  end.

(** Nothing was mapped, no answer of the kernel was used up, and
    [first_arena] is what it was. *)
Definition same_maps (s s' : State) : Prop :=
  regions s' = regions s /\ os s' = os s /\ first_arena s' = first_arena s.

(** The three fields of the header at [h] lie in mapped memory. *)
Definition header_mapped (s : State) (h : Z) : Prop :=
  mapped (regions s) (hdr_next h) 8 = true /\
  mapped (regions s) (hdr_size h) 8 = true /\
  mapped (regions s) (hdr_asize h) 8 = true.

(** [ring_from s first l]: following the next-links from the head of [l]
    visits the headers of [l] in order, and the link of the last one is the
    first to lead to [first]. *)
Fixpoint ring_from (s : State) (first : Z) (l : list Z) : Prop :=
  match l with
  | [] => False
  | h :: rest =>
    match rest with
    | [] => read64 (mem s) (hdr_next h) = first
    | h' :: _ =>
      read64 (mem s) (hdr_next h) = h' /\ h' <> first /\ ring_from s first rest
    end
  end.

(** The block at [h] is free and has at least [size] usable bytes. *)
Definition fits (s : State) (size h : Z) : bool :=
  (read64 (mem s) (hdr_asize h) =? 0) && (size <=? read64 (mem s) (hdr_size h)).

(** The first block of [l] that fits, or null. *)
Definition first_fitting (s : State) (size : Z) (l : list Z) : Z :=
  match find (fits s size) l with
  | Some h => h
  | None => NULL
  end.

(** The state a fresh allocator is in after a first [mmalloc(L)] that
    returned: one arena at [B] of [A] bytes, whose first block holds [L]
    bytes and either fills the arena or is followed by the free rest. *)
Definition fresh_block (s : State) (B A L : Z) : Prop :=
  regions s = [(B, A)] /\ first_arena s = B /\
  read64 (mem s) (arena_next B) = NULL /\
  read64 (mem s) (hdr_asize (B + 16)) = L /\
  ((L + 64 = A /\
    read64 (mem s) (hdr_next (B + 16)) = B + 16 /\
    read64 (mem s) (hdr_size (B + 16)) = A - 40)
   \/
   (L + 64 < A /\
    read64 (mem s) (hdr_next (B + 16)) = B + 40 + L /\
    read64 (mem s) (hdr_size (B + 16)) = L /\
    read64 (mem s) (hdr_next (B + 40 + L)) = B + 16 /\
    read64 (mem s) (hdr_size (B + 40 + L)) = A - 64 - L /\
    read64 (mem s) (hdr_asize (B + 40 + L)) = 0)).

(** ... and after that block has been freed: one arena, a single free
    block. *)
Definition single_free_block (s : State) (B A : Z) : Prop :=
  regions s = [(B, A)] /\ first_arena s = B /\
  read64 (mem s) (hdr_next (B + 16)) = B + 16 /\
  read64 (mem s) (hdr_size (B + 16)) = A - 40 /\
  read64 (mem s) (hdr_asize (B + 16)) = 0.

(** ** Scenarios

    Client programs over the three entry points, run on a fresh allocator.
    [arena1] is where the kernel places the first mapping; every ring below
    has fewer than [enough] blocks.  With one arena at [arena1] the first
    header is at [arena1 + 16] and the first block's bytes at
    [arena1 + 40]. *)

Definition arena1 : Z := 16777216.
Definition enough : nat := 16.

(** The three fields of the header at [h]. *)
Definition read_header (h : Z) : M (Z * Z * Z) :=
  nx <- load64 (hdr_next h) ;;
  sz <- load64 (hdr_size h) ;;
  asz <- load64 (hdr_asize h) ;;
  ret (nx, sz, asz).

(** A large block allocated and freed again. *)
Definition heap_large_freed : State :=
  state_after (p <- mmalloc enough 1000 ;; mfree enough p)
              (init_state [arena1]).

(** Two 16-byte blocks, the first one freed again. *)
Definition heap_first_freed : State :=
  state_after (p1 <- mmalloc enough 16 ;;
               mmalloc enough 16 ;;;
               mfree enough p1)
              (init_state [arena1]).

(** The same, and the first block requested again with its exact size.
    Returns both pointers and the header of the second block before and
    after. *)
Definition reuse_exact_size : M (Z * Z * (Z * Z * Z) * (Z * Z * Z)) :=
  p1 <- mmalloc enough 16 ;;
  p2 <- mmalloc enough 16 ;;
  before <- read_header (wrap (p2 - sizeof_Header)) ;;
  mfree enough p1 ;;;
  p3 <- mmalloc enough 16 ;;
  after <- read_header (wrap (p2 - sizeof_Header)) ;;
  ret (p1, p3, before, after).

(** One arena, filled completely by a block of 8 and a block of 130976
    bytes (8 + 130976 + two headers + the arena header = 128 KiB); the
    kernel has nothing left to give. *)
Definition heap_full : State :=
  state_after (mmalloc enough 8 ;;; mmalloc enough 130976)
              (init_state [arena1]).

(** A request so large that [size + sizeof(Arena) + sizeof(Header)] wraps
    around to 10. *)
Definition huge_request : M (Z * (Z * Z * Z)) :=
  p <- mmalloc enough (WORD - 30) ;;
  h <- read_header (wrap (p - sizeof_Header)) ;;
  ret (p, h).

(** Four 16-byte blocks; with [second_arena] a request that no free block
    can hold is made as well, so that a second arena (of two pages, at
    [arena2]) is mapped.  Then the first, the third and at last the second
    block are freed, and the headers of the first three blocks are read
    back. *)
Definition arena2 : Z := arena1 - 2 * PAGE_SIZE.

Definition free_middle_block (second_arena : bool) : M (list (Z * Z * Z)) :=
  p1 <- mmalloc enough 16 ;;
  p2 <- mmalloc enough 16 ;;
  p3 <- mmalloc enough 16 ;;
  mmalloc enough 16 ;;;
  (if second_arena then mmalloc enough 200000 ;;; ret tt else ret tt) ;;;
  mfree enough p1 ;;;
  mfree enough p3 ;;;
  mfree enough p2 ;;;
  h1 <- read_header (wrap (p1 - sizeof_Header)) ;;
  h2 <- read_header (wrap (p2 - sizeof_Header)) ;;
  h3 <- read_header (wrap (p3 - sizeof_Header)) ;;
  ret [h1; h2; h3].

Definition heap_two_arenas : State :=
  state_after (free_middle_block true) (init_state [arena1; arena2]).

(** The same heap just before the last of the three frees. *)
Definition heap_before_last_free : State :=
  state_after (p1 <- mmalloc enough 16 ;;
               mmalloc enough 16 ;;;
               p3 <- mmalloc enough 16 ;;
               mmalloc enough 16 ;;;
               mmalloc enough 200000 ;;;
               mfree enough p1 ;;;
               mfree enough p3)
              (init_state [arena1; arena2]).

(** A 16-byte block, then a request that fills a second arena exactly, which
    the kernel places three pages above the end of the first; the large
    block is released again.  Returns the headers of the two blocks of the
    first arena. *)
Definition arena_above : Z := arena1 + 4 * PAGE_SIZE.

Definition free_across_arenas : M (list (Z * Z * Z)) :=
  mmalloc enough 16 ;;;
  p2 <- mmalloc enough 262080 ;;
  mfree enough p2 ;;;
  h1 <- read_header (arena1 + 16) ;;
  h2 <- read_header (arena1 + 56) ;;
  ret [h1; h2].

(** The realloc scenario.  The kernel maps the second arena right below the
    first, at [arena_below].
    - [p1 = mmalloc(8)], and the bytes 1..8 are written to it;
    - [mmalloc(130976)] takes the rest of the first arena;
    - [mmalloc(130991)] maps the second arena and leaves a free tail block
      of 17 bytes at its end;
    - [mmalloc(1)] is served from that tail block;
    - [mrealloc(p1, 16)].
    Returns [p1], the pointer [mrealloc] gave and the 8 bytes found
    there.  [tail_split] stops before the [mrealloc] and reads the header
    16 bytes below the first arena. *)
Definition arena_below : Z := arena1 - PAGE_SIZE.

Definition tail_split : M (Z * Z * Z) :=
  mmalloc enough 8 ;;;
  mmalloc enough 130976 ;;;
  mmalloc enough 130991 ;;;
  mmalloc enough 1 ;;;
  read_header (arena1 - 16).

Definition grow_after_tail_split : M (Z * Z * list Z) :=
  p1 <- mmalloc enough 8 ;;
  poke p1 [1; 2; 3; 4; 5; 6; 7; 8] ;;;
  mmalloc enough 130976 ;;;
  mmalloc enough 130991 ;;;
  mmalloc enough 1 ;;;
  q <- mrealloc enough p1 16 ;;
  bs <- peek q 8 ;;
  ret (p1, q, bs).

(** ** What the header operations leave behind *)

(** The state after [hdr_ctor hdr size] on a non-null header. *)
Definition hdr_ctor_state (s : State) (hdr size : Z) : State :=
  mkState (write64 (write64 (write64 (mem s) (hdr_size hdr) size)
                      (hdr_asize hdr) 0)
             (hdr_next hdr) NULL)
          (regions s) (first_arena s) (os s)
          (if size <=? 0 then err s ++ ["Wrong size"%string] else err s).

(** The state after [hdr_split hdr req] has placed the new header at [new]:
    the constructor's writes, then the three assignments of lines 198-202. *)
Definition hdr_split_state (s : State) (hdr req new : Z) : State :=
  let s1 := hdr_ctor_state s new
              (wrap (read64 (mem s) (hdr_size hdr) - req - sizeof_Header)) in
  let m2 := write64 (mem s1) (hdr_size hdr) req in
  let m3 := write64 m2 (hdr_next new) (read64 m2 (hdr_next hdr)) in
  with_mem s1 (write64 m3 (hdr_next hdr) new).

(** ** The arena list *)

(** [arena_chain s a l]: following the next-links of the arena headers from
    [a] visits the arenas of [l] in order and then reaches null. *)
Fixpoint arena_chain (s : State) (a : Z) (l : list Z) : Prop :=
  match l with
  | [] => a = NULL
  | x :: rest =>
    a = x /\ x <> NULL /\
    mapped (regions s) (arena_next x) 8 = true /\
    arena_chain s (read64 (mem s) (arena_next x)) rest
  end.

(** No two of the 16-byte arena headers at the addresses of [l] overlap. *)
Fixpoint separated (l : list Z) : Prop :=
  match l with
  | [] => True
  | x :: rest =>
    Forall (fun y => x + sizeof_Arena <= y \/ y + sizeof_Arena <= x) rest /\
    separated rest
  end.

(** A 16-byte block in a first arena, and a second arena just obtained from
    [arena_alloc], not yet appended. *)
Definition heap_second_mapped : State :=
  state_after (mmalloc enough 16 ;;; arena_alloc 200040)
              (init_state [arena1; arena2]).


(** Two 16-byte blocks in use, followed by the free rest of the arena. *)
Definition heap_two_blocks : State :=
  state_after (mmalloc enough 16 ;;; mmalloc enough 16) (init_state [arena1]).

(** ** What a call leaves of the mappings *)

(** Nothing was mapped, and no answer of the kernel was used up. *)
Definition same_regions (s s' : State) : Prop :=
  regions s' = regions s /\ os s' = os s.

(** At most one region was mapped, of [len] bytes, and nothing was
    unmapped; at most one answer of the kernel was used up. *)
Definition mapped_at_most (len : Z) (s s' : State) : Prop :=
  (regions s' = regions s \/ exists B, regions s' = (B, len) :: regions s) /\
  (os s' = os s \/ exists r, os s = r :: os s').

(** One block of 1000 bytes in use, followed by the free rest of the
    arena. *)
Definition heap_one_block : State :=
  state_after (mmalloc enough 1000) (init_state [arena1]).

(** ** The shape of the heap *)

(** No two of the 24-byte block headers at the addresses of [l] overlap. *)
Fixpoint disjoint_headers (l : list Z) : Prop :=
  match l with
  | [] => True
  | x :: rest =>
    Forall (fun y => x + sizeof_Header <= y \/ y + sizeof_Header <= x) rest /\
    disjoint_headers rest
  end.

(** [heap_shape s la l]: the arenas of [la] are chained from [first_arena];
    the blocks of [l] form the ring, which starts at the first block of the
    first arena; every header of a block lies in mapped memory, none is at
    null, and no two headers, of blocks or of arenas, overlap. *)
Definition heap_shape (s : State) (la l : list Z) : Prop :=
  first_arena s <> NULL /\
  arena_chain s (first_arena s) la /\
  separated la /\
  hd NULL l = wrap (first_arena s + sizeof_Arena) /\
  ring_from s (wrap (first_arena s + sizeof_Arena)) l /\
  Forall (header_mapped s) l /\
  ~ In NULL l /\
  disjoint_headers l /\
  Forall (fun h =>
            Forall (fun a => h + sizeof_Header <= a \/ a + sizeof_Arena <= h) la)
         l.

(** None of the [w]-byte headers at the addresses of [l] reaches into the
    region of [A] bytes at [B]. *)
Definition outside_region (B A w : Z) (l : list Z) : Prop :=
  Forall (fun h => h + w <= B \/ B + A <= h) l.

(** The blocks a new arena of [A] bytes at [B] adds to the ring when [n]
    bytes are taken from it: the block handed out and, unless it fills
    the arena, the free rest. *)
Definition new_blocks (B A n : Z) : list Z :=
  B + 16 :: (if n + 64 =? A then [] else [B + 40 + n]).

(** One 16-byte block in use in a first arena; the kernel will place the
    next mapping at [arena2]. *)
Definition heap_one_small : State :=
  state_after (mmalloc enough 16) (init_state [arena1; arena2]).

(** The ring [l] with [new] put right behind [h]. *)
Fixpoint insert_after (h new : Z) (l : list Z) : list Z :=
  match l with
  | [] => []
  | x :: rest =>
    if x =? h then x :: new :: rest else x :: insert_after h new rest
  end.

(** [links s l]: each header of [l] links to the one that follows it in
    [l]. *)
Fixpoint links (s : State) (l : list Z) : Prop :=
  match l with
  | [] => True
  | x :: rest =>
    match rest with
    | [] => True
    | y :: _ => read64 (mem s) (hdr_next x) = y /\ links s rest
    end
  end.

(** Four 16-byte blocks in one arena, the first and the third freed
    again: the second block lies between two free neighbours. *)
Definition heap_between_free : State :=
  state_after (p1 <- mmalloc enough 16 ;;
               mmalloc enough 16 ;;;
               p3 <- mmalloc enough 16 ;;
               mmalloc enough 16 ;;;
               mfree enough p1 ;;;
               mfree enough p3)
              (init_state [arena1]).

(** ** A process that has more mapped than the arenas

    [init_state] is a process in which nothing but the allocator maps
    memory.  [fresh_beside rs answers] is a fresh allocator in a process
    that has the zero-filled regions [rs] mapped already. *)
Definition fresh_beside (rs : list (Z * Z)) (answers : list Z) : State :=
  mkState (fun _ => 0) rs NULL answers [].

(** A page of 4096 bytes right behind the place of a first arena of
    128 KiB. *)
Definition page_behind : list (Z * Z) := [(arena1 + PAGE_SIZE, 4096)].

(** ** More client programs

    A block of 16 bytes and then one of 200000 bytes, for which a second
    arena is mapped at [arena2]; the large block is freed and 1000 bytes
    are requested.  Returns the address of the large block and the address
    the last request was given. *)
Definition reuse_with_two_arenas : M (Z * Z) :=
  mmalloc enough 16 ;;;
  p2 <- mmalloc enough 200000 ;;
  mfree enough p2 ;;;
  p3 <- mmalloc enough 1000 ;;
  ret (p2, p3).

(** Blocks of 600 and of 1000 bytes, both freed again; then 500 bytes are
    requested.  Returns the three addresses. *)
Definition reuse_after_two_frees : M (Z * Z * Z) :=
  p1 <- mmalloc enough 600 ;;
  p2 <- mmalloc enough 1000 ;;
  mfree enough p2 ;;;
  mfree enough p1 ;;;
  p3 <- mmalloc enough 500 ;;
  ret (p1, p2, p3).

(** Blocks of 16, 1000 and 16 bytes in use, followed by the free rest of
    the arena; and the same heap after the block of 1000 bytes, at
    [arena1 + 80], has been freed. *)
Definition heap_three_blocks : State :=
  state_after (mmalloc enough 16 ;;; mmalloc enough 1000 ;;; mmalloc enough 16)
              (init_state [arena1]).

Definition heap_middle_freed : State :=
  state_after (mfree enough (arena1 + 80)) heap_three_blocks.

(** Two blocks of 16 bytes, the first one freed and requested again with
    its exact size.  Returns the address the last request was given. *)
Definition block_reused : M Z :=
  p1 <- mmalloc enough 16 ;;
  mmalloc enough 16 ;;;
  mfree enough p1 ;;;
  mmalloc enough 16.

Definition heap_block_reused : State :=
  state_after block_reused (init_state [arena1]).
(** * Properties *)

(** ** Words and memory *)

Lemma byte_at_range (m : Mem) (x : Z) : 0 <= byte_at m x < 256.
Proof. unfold byte_at. apply Z.mod_pos_bound. lia. Qed.

Lemma read64_range (m : Mem) (a : Z) : 0 <= read64 m a < WORD.
Proof.
  unfold read64, WORD.
  pose proof (byte_at_range m a).
  pose proof (byte_at_range m (a + 1)).
  pose proof (byte_at_range m (a + 2)).
  pose proof (byte_at_range m (a + 3)).
  pose proof (byte_at_range m (a + 4)).
  pose proof (byte_at_range m (a + 5)).
  pose proof (byte_at_range m (a + 6)).
  pose proof (byte_at_range m (a + 7)).
  change (2 ^ 8) with 256. change (2 ^ 16) with 65536.
  change (2 ^ 24) with 16777216. change (2 ^ 32) with 4294967296.
  change (2 ^ 40) with 1099511627776. change (2 ^ 48) with 281474976710656.
  change (2 ^ 56) with 72057594037927936.
  lia.
Qed.

Lemma wrap_small (x : Z) : 0 <= x < WORD -> wrap x = x.
Proof. intros H. unfold wrap. apply Z.mod_small. exact H. Qed.

Lemma wrap_range (x : Z) : 0 <= wrap x < WORD.
Proof. unfold wrap. apply Z.mod_pos_bound. reflexivity. Qed.

Lemma wrap_neg (x : Z) : - WORD <= x < 0 -> wrap x = x + WORD.
Proof.
  intros H. unfold wrap. symmetry.
  apply (Z.mod_unique_pos x WORD (-1) (x + WORD)); unfold WORD in *; lia.
Qed.

Lemma write64_byte_in (m : Mem) (a v : Z) (i : Z) :
  0 <= i < 8 -> write64 m a v (a + i) = (v / 2 ^ (8 * i)) mod 256.
Proof.
  intros H. unfold write64.
  replace ((a <=? a + i) && (a + i <? a + 8)) with true
    by (symmetry; apply andb_true_iff; split; [apply Z.leb_le | apply Z.ltb_lt]; lia).
  replace (a + i - a) with i by lia. reflexivity.
Qed.

Lemma write64_byte_out (m : Mem) (a v x : Z) :
  x < a \/ a + 8 <= x -> write64 m a v x = m x.
Proof.
  intros H. unfold write64.
  replace ((a <=? x) && (x <? a + 8)) with false; [reflexivity|].
  symmetry. apply andb_false_iff.
  destruct H; [left; apply Z.leb_gt | right; apply Z.ltb_ge]; lia.
Qed.

Lemma le_bytes_sum (v : Z) :
  0 <= v < WORD ->
  v mod 256
  + (v / 256) mod 256 * 256
  + (v / 65536) mod 256 * 65536
  + (v / 16777216) mod 256 * 16777216
  + (v / 4294967296) mod 256 * 4294967296
  + (v / 1099511627776) mod 256 * 1099511627776
  + (v / 281474976710656) mod 256 * 281474976710656
  + (v / 72057594037927936) mod 256 * 72057594037927936 = v.
Proof.
  intros H. unfold WORD in H.
  set (v1 := v / 256).
  replace (v / 65536) with (v1 / 256)
    by (unfold v1; rewrite Z.div_div by lia; reflexivity).
  set (v2 := v1 / 256).
  replace (v / 16777216) with (v2 / 256)
    by (unfold v2, v1; rewrite !Z.div_div by lia; reflexivity).
  set (v3 := v2 / 256).
  replace (v / 4294967296) with (v3 / 256)
    by (unfold v3, v2, v1; rewrite !Z.div_div by lia; reflexivity).
  set (v4 := v3 / 256).
  replace (v / 1099511627776) with (v4 / 256)
    by (unfold v4, v3, v2, v1; rewrite !Z.div_div by lia; reflexivity).
  set (v5 := v4 / 256).
  replace (v / 281474976710656) with (v5 / 256)
    by (unfold v5, v4, v3, v2, v1; rewrite !Z.div_div by lia; reflexivity).
  set (v6 := v5 / 256).
  replace (v / 72057594037927936) with (v6 / 256)
    by (unfold v6, v5, v4, v3, v2, v1; rewrite !Z.div_div by lia; reflexivity).
  set (v7 := v6 / 256).
  pose proof (Z.div_mod v 256 ltac:(lia)) as E0. fold v1 in E0.
  pose proof (Z.div_mod v1 256 ltac:(lia)) as E1. fold v2 in E1.
  pose proof (Z.div_mod v2 256 ltac:(lia)) as E2. fold v3 in E2.
  pose proof (Z.div_mod v3 256 ltac:(lia)) as E3. fold v4 in E3.
  pose proof (Z.div_mod v4 256 ltac:(lia)) as E4. fold v5 in E4.
  pose proof (Z.div_mod v5 256 ltac:(lia)) as E5. fold v6 in E5.
  pose proof (Z.div_mod v6 256 ltac:(lia)) as E6. fold v7 in E6.
  assert (E7 : v7 mod 256 = v7).
  { apply Z.mod_small. pose proof (Z.mod_pos_bound v 256 ltac:(lia)).
    pose proof (Z.mod_pos_bound v1 256 ltac:(lia)).
    pose proof (Z.mod_pos_bound v2 256 ltac:(lia)).
    pose proof (Z.mod_pos_bound v3 256 ltac:(lia)).
    pose proof (Z.mod_pos_bound v4 256 ltac:(lia)).
    pose proof (Z.mod_pos_bound v5 256 ltac:(lia)).
    pose proof (Z.mod_pos_bound v6 256 ltac:(lia)).
    lia. }
  rewrite E7. lia.
Qed.

Lemma read_write_same (m : Mem) (a v : Z) :
  0 <= v < WORD -> read64 (write64 m a v) a = v.
Proof.
  intros H. unfold read64, byte_at.
  assert (E0 : write64 m a v a = v mod 256).
  { pose proof (write64_byte_in m a v 0 ltac:(lia)) as E.
    rewrite Z.add_0_r in E. rewrite E.
    change (2 ^ (8 * 0)) with 1. rewrite Z.div_1_r. reflexivity. }
  rewrite E0.
  rewrite !write64_byte_in by lia.
  rewrite !Z.mod_mod by lia.
  change (2 ^ (8 * 1)) with 256. change (2 ^ (8 * 2)) with 65536.
  change (2 ^ (8 * 3)) with 16777216. change (2 ^ (8 * 4)) with 4294967296.
  change (2 ^ (8 * 5)) with 1099511627776.
  change (2 ^ (8 * 6)) with 281474976710656.
  change (2 ^ (8 * 7)) with 72057594037927936.
  change (2 ^ 8) with 256. change (2 ^ 16) with 65536.
  change (2 ^ 24) with 16777216. change (2 ^ 32) with 4294967296.
  change (2 ^ 40) with 1099511627776. change (2 ^ 48) with 281474976710656.
  change (2 ^ 56) with 72057594037927936.
  apply le_bytes_sum. exact H.
Qed.

Lemma read_write_other (m : Mem) (a v b : Z) :
  b + 8 <= a \/ a + 8 <= b -> read64 (write64 m a v) b = read64 m b.
Proof.
  intros H. unfold read64, byte_at.
  rewrite !write64_byte_out by lia. reflexivity.
Qed.

(** ** Running the monad *)

Lemma bind_ok {A B} (c : M A) (k : A -> M B) (s s' : State) (a : A) :
  c s = Ok a s' -> bind c k s = k a s'.
Proof. intros H. unfold bind. rewrite H. reflexivity. Qed.

Lemma bind_fault {A B} (c : M A) (k : A -> M B) (s : State) :
  c s = Fault -> bind c k s = Fault.
Proof. intros H. unfold bind. rewrite H. reflexivity. Qed.

Lemma load64_ok (s : State) (a : Z) :
  mapped (regions s) a 8 = true -> load64 a s = Ok (read64 (mem s) a) s.
Proof. intros H. unfold load64. rewrite H. reflexivity. Qed.

Lemma load64_fault (s : State) (a : Z) :
  mapped (regions s) a 8 = false -> load64 a s = Fault.
Proof. intros H. unfold load64. rewrite H. reflexivity. Qed.

Lemma store64_ok (s : State) (a v : Z) :
  mapped (regions s) a 8 = true ->
  store64 a v s = Ok tt (with_mem s (write64 (mem s) a v)).
Proof. intros H. unfold store64. rewrite H. reflexivity. Qed.

Lemma store64_fault (s : State) (a v : Z) :
  mapped (regions s) a 8 = false -> store64 a v s = Fault.
Proof. intros H. unfold store64. rewrite H. reflexivity. Qed.

Lemma mapped_first_byte (rs : list (Z * Z)) (a : Z) :
  mapped_byte rs a = false -> mapped rs a 8 = false.
Proof.
  intros H. unfold mapped. simpl seq. simpl forallb.
  rewrite Z.add_0_r, H. reflexivity.
Qed.

Lemma mapped_in_new_region (rs : list (Z * Z)) (b len a : Z) :
  b <= a -> a + 8 <= b + len -> mapped ((b, len) :: rs) a 8 = true.
Proof.
  intros H1 H2. unfold mapped. apply forallb_forall. intros i Hi.
  apply in_seq in Hi. unfold mapped_byte. simpl existsb.
  apply orb_true_iff. left. unfold in_region. simpl fst. simpl snd.
  apply andb_true_iff. split; [apply Z.leb_le | apply Z.ltb_lt]; lia.
Qed.

Lemma bind_load {B} (a : Z) (k : Z -> M B) (s : State) :
  mapped (regions s) a 8 = true ->
  bind (load64 a) k s = k (read64 (mem s) a) s.
Proof. intros H. apply bind_ok. apply load64_ok. exact H. Qed.

Lemma bind_store {B} (a v : Z) (k : unit -> M B) (s : State) :
  mapped (regions s) a 8 = true ->
  bind (store64 a v) k s = k tt (with_mem s (write64 (mem s) a v)).
Proof. intros H. apply bind_ok. apply store64_ok. exact H. Qed.

Lemma bind_ret {A B} (a : A) (k : A -> M B) (s : State) :
  bind (ret a) k s = k a s.
Proof. reflexivity. Qed.

Lemma bind_get_first_arena {B} (k : Z -> M B) (s : State) :
  bind get_first_arena k s = k (first_arena s) s.
Proof. reflexivity. Qed.

Lemma can_merge_scan_step (f : nat) (right last_arena : Z) :
  can_merge_scan (S f) right last_arena
  = (nx <- load64 (arena_next last_arena) ;;
     if nx =? NULL then ret true
     else
       rn <- load64 (hdr_next right) ;;
       if negb (rn =? wrap (last_arena + sizeof_Arena)) then ret false
       else can_merge_scan f right nx).
Proof. reflexivity. Qed.

Lemma get_prev_loop_step (f : nat) (hdr temp : Z) :
  get_prev_loop (S f) hdr temp
  = (nx <- load64 (hdr_next temp) ;;
     if nx =? hdr then ret temp else get_prev_loop f hdr nx).
Proof. reflexivity. Qed.

Lemma can_merge_scan_single_arena (f : nat) (s : State) (right : Z) :
  mapped (regions s) (arena_next (first_arena s)) 8 = true ->
  read64 (mem s) (arena_next (first_arena s)) = NULL ->
  can_merge_scan (S f) right (first_arena s) s = Ok true s.
Proof.
  intros Ma Hn. rewrite can_merge_scan_step.
  rewrite (bind_ok _ _ _ _ _ (load64_ok _ _ Ma)). rewrite Hn. reflexivity.
Qed.

Lemma hdr_merge_ok (s : State) (left right : Z) :
  left <> NULL -> right <> NULL -> left <> right ->
  mapped (regions s) (hdr_next left) 8 = true ->
  mapped (regions s) (hdr_size left) 8 = true ->
  mapped (regions s) (hdr_next right) 8 = true ->
  mapped (regions s) (hdr_size right) 8 = true ->
  read64 (mem s) (hdr_next left) = right ->
  let s1 := with_mem s
              (write64 (mem s) (hdr_size left)
                 (wrap (read64 (mem s) (hdr_size left)
                        + wrap (read64 (mem s) (hdr_size right) + sizeof_Header)))) in
  hdr_merge left right s
  = Ok tt (with_mem s1 (write64 (mem s1) (hdr_next left)
                          (read64 (mem s1) (hdr_next right)))).
Proof.
  intros Hl Hr Hlr Mln Mls Mrn Mrs Hnx s1. unfold hdr_merge.
  replace (right =? NULL) with false by (symmetry; apply Z.eqb_neq; exact Hr).
  replace (left =? NULL) with false by (symmetry; apply Z.eqb_neq; exact Hl).
  change (false || false) with false. cbv iota.
  rewrite (bind_ok _ _ _ _ _ (load64_ok _ _ Mln)). rewrite Hnx.
  rewrite Z.eqb_refl.
  replace (left =? right) with false by (symmetry; apply Z.eqb_neq; exact Hlr).
  change (negb true || false) with false. cbv iota.
  rewrite (bind_ok _ _ _ _ _ (load64_ok _ _ Mls)).
  rewrite (bind_ok _ _ _ _ _ (load64_ok _ _ Mrs)).
  rewrite (bind_ok _ _ _ _ _ (store64_ok _ _ _ Mls)). fold s1.
  rewrite (bind_ok _ _ _ _ _ (load64_ok s1 _ Mrn)).
  apply store64_ok. exact Mln.
Qed.

Lemma eqb_false (a b : Z) : a <> b -> (a =? b) = false.
Proof. apply Z.eqb_neq. Qed.

Lemma leb_false (a b : Z) : b < a -> (a <=? b) = false.
Proof. apply Z.leb_gt. Qed.

Lemma ltb_false (a b : Z) : b <= a -> (a <? b) = false.
Proof. apply Z.ltb_ge. Qed.

Lemma ltb_true (a b : Z) : a < b -> (a <? b) = true.
Proof. apply Z.ltb_lt. Qed.


(** ** C5: rounding to the page unit *)

Lemma allign_page_formula (n : Z) :
  0 <= n -> n + PAGE_SIZE < WORD ->
  allign_page n = (n / PAGE_SIZE + 1) * PAGE_SIZE.
Proof.
  intros H0 H1. unfold allign_page.
  destruct (n <? PAGE_SIZE) eqn:E.
  - apply Z.ltb_lt in E. rewrite Z.div_small by lia. reflexivity.
  - apply wrap_small. unfold PAGE_SIZE, WORD in *.
    Z.to_euclidean_division_equations. lia.
Qed.

(** The result is the least multiple of the page unit that is strictly
    greater than the argument. *)
Lemma allign_page_strictly_above (n : Z) :
  0 <= n -> n + PAGE_SIZE < WORD ->
  n < allign_page n <= n + PAGE_SIZE /\ allign_page n mod PAGE_SIZE = 0.
Proof.
  intros H0 H1. rewrite allign_page_formula by assumption.
  split.
  - unfold PAGE_SIZE, WORD in *. Z.to_euclidean_division_equations. lia.
  - apply Z.mod_mul. unfold PAGE_SIZE. lia.
Qed.

(** C5 (the code departs from the claim): on a positive multiple of the page
    unit, [allign_page] does not return its argument but the next multiple,
    one whole page more. *)
Theorem allign_page_of_multiple_adds_a_page (k : Z) :
  0 < k -> (k + 1) * PAGE_SIZE < WORD ->
  allign_page (k * PAGE_SIZE) = (k + 1) * PAGE_SIZE /\
  allign_page (k * PAGE_SIZE) <> k * PAGE_SIZE.
Proof.
  intros Hk Hb.
  assert (E : allign_page (k * PAGE_SIZE) = (k + 1) * PAGE_SIZE).
  { rewrite allign_page_formula.
    - rewrite Z.div_mul by (unfold PAGE_SIZE; lia). reflexivity.
    - unfold PAGE_SIZE. lia.
    - unfold PAGE_SIZE, WORD in *. lia. }
  split; [exact E|]. rewrite E. unfold PAGE_SIZE. lia.
Qed.

Lemma allign_page_of_multiple_adds_a_page_witness :
  allign_page (1 * PAGE_SIZE) = (1 + 1) * PAGE_SIZE /\
  allign_page (1 * PAGE_SIZE) <> 1 * PAGE_SIZE.
Proof.
  apply (allign_page_of_multiple_adds_a_page 1); [lia | reflexivity].
Defined.


(** ** Inverting a run that returned *)

Lemma bind_inv {A B} (c : M A) (k : A -> M B) (s s' : State) (b : B) :
  bind c k s = Ok b s' -> exists a s1, c s = Ok a s1 /\ k a s1 = Ok b s'.
Proof.
  unfold bind. destruct (c s) as [a s1| |]; intros H; try discriminate.
  exists a, s1. split; [reflexivity | exact H].
Qed.

Lemma ret_inv {A} (a b : A) (s s' : State) :
  ret a s = Ok b s' -> b = a /\ s' = s.
Proof. unfold ret. intros H. inversion H. split; reflexivity. Qed.

Lemma load64_inv (a v : Z) (s s' : State) :
  load64 a s = Ok v s' ->
  mapped (regions s) a 8 = true /\ v = read64 (mem s) a /\ s' = s.
Proof.
  unfold load64. destruct (mapped (regions s) a 8); intros H; inversion H.
  repeat split; reflexivity.
Qed.

Lemma store64_inv (a v : Z) (u : unit) (s s' : State) :
  store64 a v s = Ok u s' ->
  mapped (regions s) a 8 = true /\ s' = with_mem s (write64 (mem s) a v).
Proof.
  unfold store64. destruct (mapped (regions s) a 8); intros H; inversion H.
  split; reflexivity.
Qed.

(** Stepping through a run that is known to have returned. *)
Ltac step_in H :=
  match type of H with
  | bind _ _ _ = Ok _ _ =>
    let a := fresh "v" in
    let s1 := fresh "s" in
    let H1 := fresh "R" in
    apply bind_inv in H; destruct H as (a & s1 & H1 & H)
  | ret _ _ = Ok _ _ =>
    let E1 := fresh "E" in
    let E2 := fresh "E" in
    apply ret_inv in H; destruct H as (E1 & E2)
  end.

Tactic Notation "step" hyp(H) "as" ident(a) ident(s1) ident(R) :=
  apply bind_inv in H; destruct H as (a & s1 & R & H).

Ltac inv_load H :=
  let M1 := fresh "Hm" in
  let E1 := fresh "Ev" in
  let E2 := fresh "Es" in
  apply load64_inv in H; destruct H as (M1 & E1 & E2).

Ltac inv_store H :=
  let M1 := fresh "Hm" in
  apply store64_inv in H; destruct H as (M1 & H).

Lemma read64_ext (m m' : Mem) (a : Z) :
  (forall x, a <= x < a + 8 -> m' x = m x) -> read64 m' a = read64 m a.
Proof.
  intros H. unfold read64, byte_at. rewrite !H by lia. reflexivity.
Qed.

(** *** The helpers that only read *)

Lemma can_merge_scan_pure (fuel : nat) (right : Z) :
  forall (last : Z) (s s' : State) (b : bool),
    can_merge_scan fuel right last s = Ok b s' -> s' = s.
Proof.
  induction fuel as [|f IH]; intros last s s' b H; simpl in H.
  - discriminate.
  - step_in H. inv_load R. subst s0.
    destruct (v =? NULL).
    + step_in H. assumption.
    + step_in H. inv_load R. subst s0.
      destruct (negb (v0 =? wrap (last + sizeof_Arena))).
      * step_in H. assumption.
      * eapply IH. exact H.
Qed.

Lemma hdr_can_merge_pure (fuel : nat) (left right : Z) (s s' : State) (b : bool) :
  hdr_can_merge fuel left right s = Ok b s' -> s' = s.
Proof.
  unfold hdr_can_merge. intros H.
  destruct ((left =? NULL) || (right =? NULL)).
  { step_in H. assumption. }
  step_in H. unfold get_first_arena in R. inversion R; subst v s0. clear R.
  step_in H. apply can_merge_scan_pure in R. subst s0.
  destruct (negb v). { step_in H. assumption. }
  step_in H. inv_load R. subst s0.
  destruct (negb (v0 =? 0)). { step_in H. assumption. }
  step_in H. inv_load R. subst s0.
  destruct (negb (v1 =? 0)). { step_in H. assumption. }
  step_in H. inv_load R. subst s0.
  destruct (negb (v2 =? right)). { step_in H. assumption. }
  destruct (left =? right); step_in H; assumption.
Qed.

(** A pair is only ever accepted when the left header lies below the right
    one. *)
Lemma hdr_can_merge_true_order (fuel : nat) (left right : Z) (s s' : State) :
  hdr_can_merge fuel left right s = Ok true s' -> left < right.
Proof.
  unfold hdr_can_merge. intros H.
  destruct ((left =? NULL) || (right =? NULL)).
  { step_in H. discriminate. }
  step_in H. unfold get_first_arena in R. inversion R; subst v s0. clear R.
  step_in H.
  destruct (negb v). { step_in H. discriminate. }
  step_in H.
  destruct (negb (v0 =? 0)). { step_in H. discriminate. }
  step_in H.
  destruct (negb (v1 =? 0)). { step_in H. discriminate. }
  step_in H.
  destruct (negb (v2 =? right)). { step_in H. discriminate. }
  destruct (left =? right); step_in H; try discriminate.
  apply Z.ltb_lt. symmetry. assumption.
Qed.

Lemma get_prev_loop_pure (fuel : nat) (hdr : Z) :
  forall (temp : Z) (s s' : State) (p : Z),
    get_prev_loop fuel hdr temp s = Ok p s' -> s' = s.
Proof.
  induction fuel as [|f IH]; intros temp s s' p H; simpl in H.
  - discriminate.
  - step_in H. inv_load R. subst s0.
    destruct (v =? hdr).
    + step_in H. assumption.
    + eapply IH. exact H.
Qed.

Lemma hdr_get_prev_pure (fuel : nat) (hdr : Z) (s s' : State) (p : Z) :
  hdr_get_prev fuel hdr s = Ok p s' -> s' = s.
Proof.
  unfold hdr_get_prev. intros H.
  step_in H. unfold get_first_arena in R. inversion R; subst v s0. clear R.
  destruct ((first_arena s =? NULL) || (hdr =? NULL)).
  - step_in H. assumption.
  - eapply get_prev_loop_pure. exact H.
Qed.

Lemma block_fits_pure (h size : Z) (s s' : State) (b : bool) :
  block_fits h size s = Ok b s' -> s' = s.
Proof.
  unfold block_fits. intros H.
  step_in H. inv_load R. subst s0.
  destruct (v =? 0).
  - step_in H. inv_load R. subst s0. step_in H. assumption.
  - step_in H. assumption.
Qed.

Lemma first_fit_loop_pure (fuel : nat) (size : Z) :
  forall (h : Z) (s s' : State) (r : Z),
    first_fit_loop fuel size h s = Ok r s' -> s' = s.
Proof.
  induction fuel as [|f IH]; intros h s s' r H; simpl in H.
  - discriminate.
  - step_in H. inv_load R. subst s0.
    step_in H. unfold get_first_arena in R. inversion R; subst v0 s0. clear R.
    destruct (negb (v =? wrap (first_arena s + sizeof_Arena))).
    + step_in H. apply block_fits_pure in R. subst s0.
      destruct v0.
      * step_in H. assumption.
      * step_in H. inv_load R. subst s0. eapply IH. exact H.
    + step_in H. apply block_fits_pure in R. subst s0.
      destruct v0; step_in H; assumption.
Qed.

Lemma first_fit_pure (fuel : nat) (size : Z) (s s' : State) (r : Z) :
  first_fit fuel size s = Ok r s' -> s' = s.
Proof.
  unfold first_fit. intros H.
  destruct (size <=? 0). { step_in H. assumption. }
  step_in H. unfold get_first_arena in R. inversion R; subst v s0. clear R.
  destruct (first_arena s =? NULL).
  - step_in H. assumption.
  - eapply first_fit_loop_pure. exact H.
Qed.

Lemma hdr_should_split_pure (hdr size : Z) (s s' : State) (b : bool) :
  hdr_should_split hdr size s = Ok b s' -> s' = s.
Proof.
  unfold hdr_should_split. intros H.
  destruct (hdr =? NULL). { step_in H. assumption. }
  step_in H. inv_load R. subst s0.
  destruct (negb (v =? 0)). { step_in H. assumption. }
  destruct (size =? 0). { step_in H. assumption. }
  step_in H. inv_load R. subst s0. step_in H. assumption.
Qed.

(** A run that is known to return a value returns it in the state it started
    in, when the code only reads. *)
Lemma result_pure {A} (c : M A) (s : State) (a : A) :
  (forall b s', c s = Ok b s' -> s' = s) ->
  result (c s) = Some a -> c s = Ok a s.
Proof.
  intros P H. destruct (c s) as [b s'| |] eqn:E; try discriminate.
  simpl in H. inversion H. subst b. rewrite (P a s' eq_refl). reflexivity.
Qed.

(** *** What [hdr_merge] writes *)

Lemma hdr_merge_frame (left right : Z) (s s' : State) :
  hdr_merge left right s = Ok tt s' ->
  regions s' = regions s /\ first_arena s' = first_arena s /\
  os s' = os s /\ err s' = err s /\
  forall x, x < left \/ left + 16 <= x -> mem s' x = mem s x.
Proof.
  unfold hdr_merge. intros H.
  destruct ((left =? NULL) || (right =? NULL)).
  { step_in H. subst s'. repeat split; reflexivity. }
  step_in H. inv_load R. subst s0.
  destruct (negb (v =? right) || (left =? right)).
  { step_in H. subst s'. repeat split; reflexivity. }
  step_in H. inv_load R. subst s0.
  step_in H. inv_load R. subst s0.
  step_in H. inv_store R. subst s0.
  step_in H. inv_load R. subst s0.
  inv_store H. subst s'. simpl.
  repeat split; try reflexivity.
  intros x Hx. unfold hdr_next, hdr_size.
  rewrite !write64_byte_out by lia. reflexivity.
Qed.

(** *** [mfree] leaves the block marked free *)

Lemma mfree_marks_free (fuel : nat) (ptr : Z) (s s' : State) :
  ptr <> NULL ->
  mfree fuel ptr s = Ok tt s' ->
  read64 (mem s') (hdr_asize (wrap (ptr - sizeof_Header))) = 0.
Proof.
  intros Hp H. unfold mfree in H.
  replace (ptr =? NULL) with false in H by (symmetry; apply Z.eqb_neq; exact Hp).
  change (negb false) with true in H. cbv iota in H.
  set (h := wrap (ptr - sizeof_Header)) in *.
  step H as u0 s1 St. inv_store St. 
  assert (Z1 : read64 (mem s1) (hdr_asize h) = 0).
  { subst s1. simpl. apply read_write_same. unfold WORD. lia. }
  step H as nx s1' Ld. inv_load Ld. subst s1'.
  step H as m1 s1' Cm. apply hdr_can_merge_pure in Cm. subst s1'.
  step H as u1 s2 Mg.
  assert (Z2 : read64 (mem s2) (hdr_asize h) = 0).
  { destruct m1.
    - step Mg as nx' s1' Ld. inv_load Ld. subst s1'. destruct u1.
      apply hdr_merge_frame in Mg. destruct Mg as (_ & _ & _ & _ & Fr).
      rewrite <- Z1. apply read64_ext. intros x Hx. apply Fr.
      unfold hdr_asize in Hx. lia.
    - apply ret_inv in Mg. destruct Mg as [_ Mg]. subst s2. exact Z1. }
  step H as prev s2' Gp. pose proof (hdr_get_prev_pure _ _ _ _ _ Gp). subst s2'.
  step H as m2 s2' Cm. pose proof (hdr_can_merge_pure _ _ _ _ _ _ Cm). subst s2'.
  destruct m2.
  - apply hdr_can_merge_true_order in Cm.
    step H as prev' s2' Gp'.
    rewrite Gp in Gp'. inversion Gp'. subst prev' s2'.
    apply hdr_merge_frame in H. destruct H as (_ & _ & _ & _ & Fr).
    rewrite <- Z2. apply read64_ext. intros x Hx. apply Fr.
    unfold hdr_asize in Hx. lia.
  - apply ret_inv in H. destruct H as [_ H]. subst s'. exact Z2.
Qed.


Lemma run_state_after {A} (c : M A) (s : State) (a : A) :
  result (c s) = Some a -> c s = Ok a (state_after c s).
Proof.
  unfold state_after. destruct (c s) as [b s'| |]; simpl; intros H;
    try discriminate.
  inversion H. reflexivity.
Qed.

(** ** C2: the split test *)

(** What [hdr_should_split] computes on a readable free header: the
    remainder is taken modulo 2^64, so the test only fails when the block is
    exactly one header larger than the request. *)
Lemma hdr_should_split_spec (s : State) (hdr size : Z) :
  hdr <> NULL ->
  mapped (regions s) (hdr_asize hdr) 8 = true ->
  mapped (regions s) (hdr_size hdr) 8 = true ->
  hdr_should_split hdr size s
  = Ok ((read64 (mem s) (hdr_asize hdr) =? 0) && negb (size =? 0)
        && negb (wrap (read64 (mem s) (hdr_size hdr) - sizeof_Header - size) =? 0))
       s.
Proof.
  intros Hh Ma Ms. unfold hdr_should_split.
  replace (hdr =? NULL) with false by (symmetry; apply Z.eqb_neq; exact Hh).
  rewrite (bind_ok _ _ _ _ _ (load64_ok _ _ Ma)).
  destruct (read64 (mem s) (hdr_asize hdr) =? 0); simpl; [|reflexivity].
  destruct (size =? 0); simpl; [reflexivity|].
  rewrite (bind_ok _ _ _ _ _ (load64_ok _ _ Ms)). unfold ret. f_equal.
  pose proof (wrap_range (read64 (mem s) (hdr_size hdr) - sizeof_Header - size)).
  destruct (wrap (read64 (mem s) (hdr_size hdr) - sizeof_Header - size) =? 0) eqn:E.
  - apply Z.eqb_eq in E. rewrite E. reflexivity.
  - apply Z.eqb_neq in E. simpl. apply Z.ltb_lt. lia.
Qed.

(** C2 (the code departs from the claim): on a free block whose usable size
    minus the header footprint minus the request is negative in exact
    arithmetic, [hdr_should_split] answers true. *)
Theorem hdr_should_split_wraps_around (s : State) (hdr size : Z) :
  hdr <> NULL ->
  mapped (regions s) (hdr_asize hdr) 8 = true ->
  mapped (regions s) (hdr_size hdr) 8 = true ->
  read64 (mem s) (hdr_asize hdr) = 0 ->
  0 < size < WORD - sizeof_Header ->
  read64 (mem s) (hdr_size hdr) - sizeof_Header - size < 0 ->
  hdr_should_split hdr size s = Ok true s.
Proof.
  intros Hh Ma Ms Hfree Hsize Hneg.
  rewrite hdr_should_split_spec by assumption. f_equal.
  rewrite Hfree.
  replace (size =? 0) with false by (symmetry; apply Z.eqb_neq; lia).
  pose proof (read64_range (mem s) (hdr_size hdr)) as Hr.
  rewrite wrap_neg by (unfold sizeof_Header, WORD in *; lia).
  replace (read64 (mem s) (hdr_size hdr) - sizeof_Header - size + WORD =? 0)
    with false; [reflexivity|].
  symmetry. apply Z.eqb_neq. unfold sizeof_Header, WORD in *. lia.
Qed.

Lemma hdr_should_split_wraps_around_witness :
  read64 (mem heap_first_freed) (hdr_size (arena1 + 16)) - sizeof_Header - 16 < 0 /\
  hdr_should_split (arena1 + 16) 16 heap_first_freed = Ok true heap_first_freed.
Proof.
  split.
  - vm_compute. reflexivity.
  - apply (hdr_should_split_wraps_around heap_first_freed (arena1 + 16) 16).
    + vm_compute. discriminate.
    + vm_compute. reflexivity.
    + vm_compute. reflexivity.
    + vm_compute. reflexivity.
    + unfold WORD, sizeof_Header. lia.
    + vm_compute. reflexivity.
Defined.

(** What the wrapped test leads to: the block of exactly the requested size
    is split, and the "remainder" header, of size 2^64 - 24, lands on the
    header of the second block, which is in use. *)
Example split_overwrites_live_header :
  result (reuse_exact_size (init_state [arena1]))
  = Some (arena1 + 40, arena1 + 40,
          (arena1 + 96, 16, 16),
          (arena1 + 56, WORD - sizeof_Header, 0)).
Proof. vm_compute. reflexivity. Qed.

(** On a fresh allocator a request that leaves less than a header at the
    end of its arena makes the split write past the arena.  In a process
    that has nothing mapped there the write is a fault; with a page mapped
    behind the arena the call returns, and the planted header, whose last
    byte lies in that page, claims 2^64 - 1 bytes. *)
Example mmalloc_near_arena_end_writes_past :
  mmalloc enough 131009 (init_state [arena1]) = Fault /\
  result ((p <- mmalloc enough 131009 ;;
           h <- read_header (arena1 + 40 + 131009) ;;
           ret (p, h))
            (fresh_beside page_behind [arena1]))
  = Some (arena1 + 40, (arena1 + 16, WORD - 1, 0)).
Proof. split; vm_compute; reflexivity. Qed.

(** ** C4: the argument check of [arena_alloc] *)

(** C4 (the code departs from the claim): a request that does not exceed
    [sizeof(Arena) + sizeof(Header)] only produces a diagnostic; when the
    kernel grants the mapping, a one-page arena is created and returned. *)
Theorem arena_alloc_small_request_maps (s : State) (req base : Z) (rest : list Z) :
  0 <= req <= sizeof_Arena + sizeof_Header ->
  os s = base :: rest ->
  base <> MAP_FAILED ->
  base <> NULL ->
  exists s',
    arena_alloc req s = Ok base s' /\
    regions s' = (base, PAGE_SIZE) :: regions s /\
    err s' = err s ++ ["Arena Allocation Failed"%string].
Proof.
  intros Hreq Hos Hmf Hnull. unfold arena_alloc.
  replace (req <=? sizeof_Arena + sizeof_Header) with true
    by (symmetry; apply Z.leb_le; lia).
  assert (Ea : allign_page req = PAGE_SIZE).
  { unfold allign_page.
    replace (req <? PAGE_SIZE) with true; [reflexivity|].
    symmetry. apply Z.ltb_lt.
    unfold sizeof_Arena, sizeof_Header, PAGE_SIZE in *. lia. }
  rewrite Ea. unfold bind at 1. unfold fprintf_stderr.
  unfold bind at 1. unfold mmap. simpl os. rewrite Hos.
  change (PAGE_SIZE =? 0) with false. cbv iota.
  replace (base =? MAP_FAILED) with false
    by (symmetry; apply Z.eqb_neq; exact Hmf).
  replace (base =? NULL) with false
    by (symmetry; apply Z.eqb_neq; exact Hnull).
  unfold bind at 1. unfold store64 at 1. simpl regions.
  rewrite mapped_in_new_region
    by (unfold arena_next, PAGE_SIZE; lia).
  unfold bind at 1. unfold store64 at 1. simpl regions.
  rewrite mapped_in_new_region
    by (unfold arena_size, PAGE_SIZE; lia).
  eexists. split; [reflexivity|]. simpl. split; reflexivity.
Qed.

Lemma arena_alloc_small_request_maps_witness :
  exists s',
    arena_alloc 10 (init_state [arena1]) = Ok arena1 s' /\
    regions s' = (arena1, PAGE_SIZE) :: regions (init_state [arena1]) /\
    err s' = err (init_state [arena1]) ++ ["Arena Allocation Failed"%string].
Proof.
  apply (arena_alloc_small_request_maps (init_state [arena1]) 10 arena1 []).
  - unfold sizeof_Arena, sizeof_Header. lia.
  - reflexivity.
  - vm_compute. discriminate.
  - vm_compute. discriminate.
Defined.

(** Through [mmalloc] the unchecked request is reachable: the sum wraps to
    10, one page is mapped, and a block of 131032 usable bytes is handed out
    for a request of 2^64 - 30 bytes. *)
Example mmalloc_huge_request_gets_one_page :
  result (huge_request (init_state [arena1]))
  = Some (arena1 + 40, (arena1 + 16, 131032, WORD - 30)).
Proof. vm_compute. reflexivity. Qed.

(** ** C1: when the kernel denies the mapping *)

Lemma mmap_denied (s : State) (len : Z) :
  os_denies s ->
  exists s', mmap len s = Ok MAP_FAILED s' /\ regions s' = regions s.
Proof.
  unfold os_denies, mmap. intros H.
  destruct (len =? 0). { exists s. split; reflexivity. }
  destruct (os s) as [|r rest]. { exists s. split; reflexivity. }
  subst r. change (MAP_FAILED =? MAP_FAILED) with true. cbv iota.
  eexists. split; reflexivity.
Qed.

Section DeniedMapping.

(** A state in which the kernel will deny the next mapping, and in which,
    as always, the last byte of the address space is not mapped. *)
Variable s : State.
Hypothesis Hdenied : os_denies s.
Hypothesis Hunmapped : mapped_byte (regions s) MAP_FAILED = false.

(** [arena_alloc] compares the answer of [mmap] with [NULL]; a denied
    mapping is reported as [MAP_FAILED], which is then written through. *)
Lemma arena_alloc_denied (req : Z) : arena_alloc req s = Fault.
Proof.
  unfold arena_alloc.
  assert (K : forall s0 : State,
             os_denies s0 -> regions s0 = regions s ->
             (tmp <- mmap (allign_page req) ;;
              if tmp =? NULL then ret NULL
              else store64 (arena_next tmp) NULL ;;;
                   store64 (arena_size tmp) (allign_page req) ;;; ret tmp) s0
             = Fault).
  { intros s0 Hos0 Hr.
    destruct (mmap_denied s0 (allign_page req) Hos0) as (s1 & E & Hr1).
    rewrite (bind_ok _ _ _ _ _ E).
    change (MAP_FAILED =? NULL) with false. cbv iota.
    apply bind_fault. apply store64_fault. apply mapped_first_byte.
    rewrite Hr1, Hr. exact Hunmapped. }
  destruct (req <=? sizeof_Arena + sizeof_Header).
  - unfold bind at 1. unfold fprintf_stderr.
    apply K; [exact Hdenied | reflexivity].
  - unfold bind at 1. unfold ret at 1.
    apply K; [exact Hdenied | reflexivity].
Qed.

End DeniedMapping.

Lemma mmalloc_denied (fuel : nat) (s : State) (n : Z) :
  os_denies s ->
  mapped_byte (regions s) MAP_FAILED = false ->
  0 < n ->
  result (first_fit fuel n s) = Some NULL ->
  mmalloc fuel n s = Fault.
Proof.
  intros Hos Hun Hn Hff. unfold mmalloc.
  replace (n <=? 0) with false by (symmetry; apply Z.leb_gt; exact Hn).
  rewrite (bind_ok _ _ _ _ _
             (result_pure _ _ _ (fun b s' => first_fit_pure fuel n s s' b) Hff)).
  change (negb (NULL =? NULL)) with false. cbv iota.
  apply bind_fault. apply arena_alloc_denied; assumption.
Qed.

Lemma mrealloc_denied (fuel : nat) (s : State) (p m : Z) :
  let h := wrap (p - sizeof_Header) in
  let s1 := with_mem s (write64 (mem s) (hdr_asize h) 0) in
  let nx := read64 (mem s1) (hdr_next h) in
  os_denies s ->
  mapped_byte (regions s) MAP_FAILED = false ->
  p <> NULL ->
  0 < m ->
  mapped (regions s) (hdr_next h) 8 = true ->
  mapped (regions s) (hdr_size h) 8 = true ->
  mapped (regions s) (hdr_asize h) 8 = true ->
  read64 (mem s) (hdr_size h) < m ->
  mapped (regions s) (hdr_asize nx) 8 = true ->
  read64 (mem s1) (hdr_asize nx) <> 0 ->
  result (first_fit fuel m s1) = Some NULL ->
  mrealloc fuel p m s = Fault.
Proof.
  intros h s1 nx Hos Hun Hp Hm Mn Ms Ma Hsmall Mna Hused Hff.
  unfold mrealloc.
  replace (p =? NULL) with false by (symmetry; apply Z.eqb_neq; exact Hp).
  replace (m =? 0) with false by (symmetry; apply Z.eqb_neq; lia).
  fold h.
  rewrite (bind_ok _ _ _ _ _ (load64_ok _ _ Ms)).
  replace (m <? read64 (mem s) (hdr_size h)) with false
    by (symmetry; apply Z.ltb_ge; lia).
  replace (m =? read64 (mem s) (hdr_size h)) with false
    by (symmetry; apply Z.eqb_neq; lia).
  rewrite (bind_ok _ _ _ _ _ (load64_ok _ _ Ms)).
  replace (m <=? read64 (mem s) (hdr_size h)) with false
    by (symmetry; apply Z.leb_gt; lia).
  rewrite (bind_ok _ _ _ _ _ (load64_ok _ _ Ma)).
  rewrite (bind_ok _ _ _ _ _ (store64_ok _ _ _ Ma)). fold s1.
  rewrite (bind_ok _ _ _ _ _ (load64_ok s1 _ Mn)). fold nx.
  rewrite (bind_ok _ _ _ _ _ (load64_ok s1 _ Mna)).
  replace (read64 (mem s1) (hdr_asize nx) =? 0) with false
    by (symmetry; apply Z.eqb_neq; exact Hused).
  unfold bind at 1. unfold ret at 1.
  apply bind_fault. apply mmalloc_denied; assumption.
Qed.

Lemma arena_last_pure (fuel : nat) :
  forall (last : Z) (s s' : State) (r : Z),
    arena_last fuel last s = Ok r s' -> s' = s.
Proof.
  induction fuel as [|f IH]; intros last s s' r H; simpl in H.
  - discriminate.
  - step H as nx s1 Ld. inv_load Ld. subst s1.
    destruct (nx =? NULL).
    + apply ret_inv in H. apply H.
    + eapply IH. exact H.
Qed.

Lemma arena_append_regions (fuel : nat) (a : Z) (s s' : State) (u : unit) :
  arena_append fuel a s = Ok u s' -> regions s' = regions s.
Proof.
  unfold arena_append. intros H.
  step H as fa s1 G. unfold get_first_arena in G. inversion G; subst fa s1.
  destruct (first_arena s =? NULL).
  - unfold set_first_arena in H. inversion H. reflexivity.
  - step H as last s1 L. apply arena_last_pure in L. subst s1.
    inv_store H. subst s'. reflexivity.
Qed.

(** Had [arena_alloc] returned null, as its caller expects of a failure,
    [mmalloc] would still not return null: after the diagnostic it goes on
    and reads [new_arena->size] through the null pointer. *)
Lemma mmalloc_null_arena_never_returns (fuel : nat) (s : State) (size : Z) :
  mapped (regions s) (arena_size NULL) 8 = false ->
  forall p s', mmalloc_new_arena fuel size NULL s <> Ok p s'.
Proof.
  intros Hun p s' H. unfold mmalloc_new_arena in H.
  change (NULL =? NULL) with true in H. cbv iota in H.
  step H as u0 s0 Pr. unfold fprintf_stderr in Pr. inversion Pr; subst u0 s0.
  clear Pr.
  step H as u1 s1 Ap. apply arena_append_regions in Ap. simpl in Ap.
  step H as asz s2 Ld. inv_load Ld.
  rewrite Ap, Hun in Hm. discriminate.
Qed.

(** C1 (the code departs from the claim): when no free block fits and the
    kernel denies the mapping, [mmalloc] does not return null: it writes
    through the failed mapping and faults; the relocating path of [mrealloc]
    (the block is smaller than the request and its successor is in use)
    faults with it.  Nor would a null arena make [mmalloc] return null: its
    else branch never returns on one. *)
Theorem denied_mapping_faults (fuel : nat) (s : State) :
  os_denies s ->
  mapped_byte (regions s) MAP_FAILED = false ->
  (forall n, 0 < n ->
     result (first_fit fuel n s) = Some NULL ->
     mmalloc fuel n s = Fault) /\
  (forall p m,
     p <> NULL -> 0 < m ->
     mapped (regions s) (hdr_next (wrap (p - sizeof_Header))) 8 = true ->
     mapped (regions s) (hdr_size (wrap (p - sizeof_Header))) 8 = true ->
     mapped (regions s) (hdr_asize (wrap (p - sizeof_Header))) 8 = true ->
     read64 (mem s) (hdr_size (wrap (p - sizeof_Header))) < m ->
     forall s1,
       s1 = with_mem s (write64 (mem s) (hdr_asize (wrap (p - sizeof_Header))) 0) ->
       mapped (regions s)
         (hdr_asize (read64 (mem s1) (hdr_next (wrap (p - sizeof_Header))))) 8 = true ->
       read64 (mem s1)
         (hdr_asize (read64 (mem s1) (hdr_next (wrap (p - sizeof_Header))))) <> 0 ->
       result (first_fit fuel m s1) = Some NULL ->
       mrealloc fuel p m s = Fault) /\
  (mapped (regions s) (arena_size NULL) 8 = false ->
   forall size p s', mmalloc_new_arena fuel size NULL s <> Ok p s').
Proof.
  intros Hos Hun. split; [|split].
  - intros n Hn Hff. apply mmalloc_denied; assumption.
  - intros p m Hp Hm Mn Ms Ma Hsmall s1 Es1 Mna Hused Hff. subst s1.
    apply mrealloc_denied; assumption.
  - intros Hz size. apply mmalloc_null_arena_never_returns. exact Hz.
Qed.

Lemma denied_mapping_faults_witness :
  mmalloc enough 5 (init_state []) = Fault /\
  mrealloc enough (arena1 + 40) 16 heap_full = Fault /\
  (forall p s', mmalloc_new_arena enough 5 NULL heap_full <> Ok p s').
Proof.
  split; [|split].
  - apply (denied_mapping_faults enough (init_state [])).
    + exact I.
    + reflexivity.
    + lia.
    + reflexivity.
  - apply (denied_mapping_faults enough heap_full) with
      (s1 := with_mem heap_full
               (write64 (mem heap_full)
                  (hdr_asize (wrap (arena1 + 40 - sizeof_Header))) 0)).
    + vm_compute. exact I.
    + vm_compute. reflexivity.
    + vm_compute. discriminate.
    + lia.
    + vm_compute. reflexivity.
    + vm_compute. reflexivity.
    + vm_compute. reflexivity.
    + vm_compute. reflexivity.
    + reflexivity.
    + vm_compute. reflexivity.
    + vm_compute. discriminate.
    + vm_compute. reflexivity.
  - apply (denied_mapping_faults enough heap_full).
    + vm_compute. exact I.
    + vm_compute. reflexivity.
    + vm_compute. reflexivity.
Defined.

(** ** C3: the merge test *)

(** The arena scan: as soon as the first arena has a successor, the pair is
    rejected unless [right->next] is the first block of the first arena. *)
Lemma can_merge_scan_rejects (fuel : nat) (s : State) (right : Z) :
  mapped (regions s) (arena_next (first_arena s)) 8 = true ->
  read64 (mem s) (arena_next (first_arena s)) <> NULL ->
  mapped (regions s) (hdr_next right) 8 = true ->
  read64 (mem s) (hdr_next right) <> wrap (first_arena s + sizeof_Arena) ->
  can_merge_scan (S fuel) right (first_arena s) s = Ok false s.
Proof.
  intros Ma Ha Mr Hr. simpl.
  rewrite (bind_ok _ _ _ _ _ (load64_ok _ _ Ma)).
  replace (read64 (mem s) (arena_next (first_arena s)) =? NULL) with false
    by (symmetry; apply Z.eqb_neq; exact Ha).
  rewrite (bind_ok _ _ _ _ _ (load64_ok _ _ Mr)).
  replace (read64 (mem s) (hdr_next right) =? wrap (first_arena s + sizeof_Arena))
    with false by (symmetry; apply Z.eqb_neq; exact Hr).
  reflexivity.
Qed.

Lemma hdr_can_merge_rejects_beside_second_arena
      (fuel : nat) (s : State) (left right : Z) :
  left <> NULL -> right <> NULL ->
  mapped (regions s) (arena_next (first_arena s)) 8 = true ->
  read64 (mem s) (arena_next (first_arena s)) <> NULL ->
  mapped (regions s) (hdr_next right) 8 = true ->
  read64 (mem s) (hdr_next right) <> wrap (first_arena s + sizeof_Arena) ->
  hdr_can_merge (S fuel) left right s = Ok false s.
Proof.
  intros Hl Hr Ma Ha Mr Hrn. unfold hdr_can_merge.
  replace (left =? NULL) with false by (symmetry; apply Z.eqb_neq; exact Hl).
  replace (right =? NULL) with false by (symmetry; apply Z.eqb_neq; exact Hr).
  change (false || false) with false. cbv iota.
  unfold bind at 1. unfold get_first_arena. cbv beta iota.
  rewrite (bind_ok _ _ _ _ _ (can_merge_scan_rejects fuel s right Ma Ha Mr Hrn)).
  reflexivity.
Qed.

(** C3 (the code departs from the claim): once a second arena exists,
    [hdr_can_merge] rejects every pair whose right block is not the last of
    the ring: also two free blocks of one and the same arena that are linked
    ([left->next == right]), distinct and in address order, for which the
    claim promises true. *)
Theorem hdr_can_merge_rejects_within_arena
        (fuel : nat) (s : State) (left right : Z) :
  left <> NULL -> right <> NULL ->
  mapped (regions s) (arena_next (first_arena s)) 8 = true ->
  read64 (mem s) (arena_next (first_arena s)) <> NULL ->
  mapped (regions s) (hdr_next right) 8 = true ->
  read64 (mem s) (hdr_next right) <> wrap (first_arena s + sizeof_Arena) ->
  read64 (mem s) (hdr_asize left) = 0 ->
  read64 (mem s) (hdr_asize right) = 0 ->
  read64 (mem s) (hdr_next left) = right ->
  left < right ->
  hdr_can_merge (S fuel) left right s = Ok false s.
Proof.
  intros Hl Hr Ma Ha Mr Hrn _ _ _ _.
  apply hdr_can_merge_rejects_beside_second_arena; assumption.
Qed.

(** The witness pair: the first two blocks of [heap_two_arenas], both free,
    linked, ordered, and 40 bytes apart in the first arena. *)
Lemma hdr_can_merge_rejects_within_arena_witness :
  read64 (mem heap_two_arenas) (hdr_asize (arena1 + 16)) = 0 /\
  read64 (mem heap_two_arenas) (hdr_asize (arena1 + 56)) = 0 /\
  read64 (mem heap_two_arenas) (hdr_next (arena1 + 16)) = arena1 + 56 /\
  arena1 + 16 + sizeof_Header
    + read64 (mem heap_two_arenas) (hdr_size (arena1 + 16)) = arena1 + 56 /\
  hdr_can_merge enough (arena1 + 16) (arena1 + 56) heap_two_arenas
  = Ok false heap_two_arenas.
Proof.
  split; [vm_compute; reflexivity|].
  split; [vm_compute; reflexivity|].
  split; [vm_compute; reflexivity|].
  split; [vm_compute; reflexivity|].
  apply (hdr_can_merge_rejects_within_arena 15 heap_two_arenas).
  - vm_compute. discriminate.
  - vm_compute. discriminate.
  - vm_compute. reflexivity.
  - vm_compute. discriminate.
  - vm_compute. reflexivity.
  - vm_compute. discriminate.
  - vm_compute. reflexivity.
  - vm_compute. reflexivity.
  - vm_compute. reflexivity.
  - vm_compute. reflexivity.
Defined.

(** The other half of the scan's contract fails as well: the last block of
    the first arena and the only block of a second arena, mapped 3 pages
    further up, are accepted and folded into one block. *)
Example hdr_can_merge_accepts_across_arenas :
  result (free_across_arenas (init_state [arena1; arena_above]))
  = Some [(arena1 + 56, 16, 16);
          (arena1 + 16, 130992 + 262104 + sizeof_Header, 0)].
Proof. vm_compute. reflexivity. Qed.

(** ** C6: freeing between two free neighbours *)

(** With a single arena the three blocks are folded into the first one:
    16 + 16 + 16 bytes and two header footprints. *)
Example mfree_merges_both_neighbours_one_arena :
  result (free_middle_block false (init_state [arena1]))
  = Some [(arena1 + 136, 16 + 16 + 16 + 2 * sizeof_Header, 0);
          (arena1 + 136, 16 + 16 + sizeof_Header, 0);
          (arena1 + 136, 16, 0)].
Proof. vm_compute. reflexivity. Qed.

(** C6 (the code departs from the claim): the same three frees after a second
    arena has been mapped merge nothing; the block freed last stays between
    its two free neighbours, all three with their 16 bytes. *)
Theorem mfree_merges_nothing_with_two_arenas :
  result (free_middle_block true (init_state [arena1; arena2]))
  = Some [(arena1 + 56, 16, 0); (arena1 + 96, 16, 0); (arena1 + 136, 16, 0)].
Proof. vm_compute. reflexivity. Qed.

(** In general: beside a second arena, freeing a block whose successor is
    not the last block of the ring, and which is not the last block itself,
    only clears its occupied size. *)
Lemma mfree_only_marks_free (fuel : nat) (s : State) (p prev : Z) :
  let h := wrap (p - sizeof_Header) in
  let s1 := with_mem s (write64 (mem s) (hdr_asize h) 0) in
  let nx := read64 (mem s1) (hdr_next h) in
  let first := wrap (first_arena s + sizeof_Arena) in
  p <> NULL -> h <> NULL -> nx <> NULL -> prev <> NULL ->
  mapped (regions s) (hdr_asize h) 8 = true ->
  mapped (regions s) (hdr_next h) 8 = true ->
  mapped (regions s) (hdr_next nx) 8 = true ->
  mapped (regions s) (arena_next (first_arena s)) 8 = true ->
  read64 (mem s1) (arena_next (first_arena s)) <> NULL ->
  read64 (mem s1) (hdr_next nx) <> first ->
  nx <> first ->
  result (hdr_get_prev (S fuel) h s1) = Some prev ->
  mfree (S fuel) p s = Ok tt s1.
Proof.
  intros h s1 nx first Hp Hh Hnx Hprev Ma Mn Mnn Mar Har Hnn Hnf Hgp.
  unfold mfree.
  replace (p =? NULL) with false by (symmetry; apply Z.eqb_neq; exact Hp).
  change (negb false) with true. cbv iota. fold h.
  rewrite (bind_ok _ _ _ _ _ (store64_ok _ _ _ Ma)). fold s1.
  rewrite (bind_ok _ _ _ _ _ (load64_ok s1 _ Mn)). fold nx.
  rewrite (bind_ok _ _ _ _ _
             (hdr_can_merge_rejects_beside_second_arena
                fuel s1 h nx Hh Hnx Mar Har Mnn Hnn)).
  unfold bind at 1. unfold ret at 1.
  rewrite (bind_ok _ _ _ _ _
             (result_pure _ _ _
                (fun b s' => hdr_get_prev_pure (S fuel) h s1 s' b) Hgp)).
  rewrite (bind_ok _ _ _ _ _
             (hdr_can_merge_rejects_beside_second_arena
                fuel s1 prev h Hprev Hh Mar Har Mn Hnf)).
  reflexivity.
Qed.

(** The last of the three frees above is such a call: the second block, at
    [arena1 + 80], lies between the free first and third blocks. *)
Example mfree_only_marks_free_between_free_neighbours :
  read64 (mem heap_before_last_free) (hdr_asize (arena1 + 16)) = 0 /\
  read64 (mem heap_before_last_free) (hdr_asize (arena1 + 96)) = 0 /\
  mfree enough (arena1 + 80) heap_before_last_free
  = Ok tt (with_mem heap_before_last_free
             (write64 (mem heap_before_last_free)
                (hdr_asize (wrap (arena1 + 80 - sizeof_Header))) 0)).
Proof.
  split; [vm_compute; reflexivity|]. split; [vm_compute; reflexivity|].
  apply (mfree_only_marks_free 15 heap_before_last_free
           (arena1 + 80) (arena1 + 16));
    vm_compute; first [reflexivity | discriminate].
Qed.

(** ** C7: growing a block *)

(** Handing out the 17-byte tail block of the second arena for a 1-byte
    request: the split test wraps around, and a header of a free block of
    2^64 - 8 bytes is planted 16 bytes below the first arena, linked into the
    ring before the first block. *)
Example tail_split_plants_phantom_block :
  result (tail_split (init_state [arena1; arena_below]))
  = Some (arena1 + 16, WORD - 8, 0).
Proof. vm_compute. reflexivity. Qed.

(** C7 (the code departs from the claim): [mrealloc] relocates the 8-byte
    block from [arena1 + 40] to [arena1 + 8] and returns a block that does
    not hold the 8 bytes written to the old one. *)
Theorem mrealloc_loses_contents :
  result (grow_after_tail_split (init_state [arena1; arena_below]))
  = Some (arena1 + 40, arena1 + 8, [0; 0; 0; 0; 0; 0; 0; 0]).
Proof. vm_compute. reflexivity. Qed.

(** ** C8: first fit *)

Lemma block_fits_ok (s : State) (h size : Z) :
  header_mapped s h -> block_fits h size s = Ok (fits s size h) s.
Proof.
  intros (_ & Ms & Ma). unfold block_fits, fits.
  rewrite (bind_ok _ _ _ _ _ (load64_ok _ _ Ma)).
  destruct (read64 (mem s) (hdr_asize h) =? 0); simpl; [|reflexivity].
  rewrite (bind_ok _ _ _ _ _ (load64_ok _ _ Ms)). reflexivity.
Qed.

Lemma first_fit_loop_ring (s : State) (size : Z) (rest : list Z) :
  forall (h : Z) (fuel : nat),
    ring_from s (wrap (first_arena s + sizeof_Arena)) (h :: rest) ->
    Forall (header_mapped s) (h :: rest) ->
    (List.length (h :: rest) <= fuel)%nat ->
    first_fit_loop fuel size h s = Ok (first_fitting s size (h :: rest)) s.
Proof.
  induction rest as [|h' t IH]; intros h fuel Hring Hmap Hfuel.
  - destruct fuel as [|f]; [simpl in Hfuel; lia|].
    simpl in Hring. pose proof (Forall_inv Hmap) as Mh.
    simpl first_fit_loop.
    rewrite (bind_ok _ _ _ _ _ (load64_ok _ _ (proj1 Mh))).
    unfold bind at 1. unfold get_first_arena. cbv beta iota.
    rewrite Hring, Z.eqb_refl. change (negb true) with false. cbv iota.
    rewrite (bind_ok _ _ _ _ _ (block_fits_ok s h size Mh)).
    unfold first_fitting. simpl find. destruct (fits s size h); reflexivity.
  - destruct fuel as [|f]; [simpl in Hfuel; lia|].
    destruct Hring as (Hnx & Hne & Hring').
    pose proof (Forall_inv Hmap) as Mh.
    pose proof (Forall_inv_tail Hmap) as Hmap'.
    simpl first_fit_loop.
    rewrite (bind_ok _ _ _ _ _ (load64_ok _ _ (proj1 Mh))).
    unfold bind at 1. unfold get_first_arena. cbv beta iota.
    rewrite Hnx.
    replace (h' =? wrap (first_arena s + sizeof_Arena)) with false
      by (symmetry; apply Z.eqb_neq; exact Hne).
    change (negb false) with true. cbv iota.
    rewrite (bind_ok _ _ _ _ _ (block_fits_ok s h size Mh)).
    unfold first_fitting. simpl find. destruct (fits s size h); [reflexivity|].
    rewrite (bind_ok _ _ _ _ _ (load64_ok _ _ (proj1 Mh))). rewrite Hnx.
    apply IH; [exact Hring' | exact Hmap' | simpl in *; lia].
Qed.

(** [first_fit] walks the ring once from the first block of the first arena
    and stops at the first block that fits. *)
Lemma first_fit_ring (fuel : nat) (s : State) (size : Z) (l : list Z) :
  0 < size ->
  first_arena s <> NULL ->
  hd NULL l = wrap (first_arena s + sizeof_Arena) ->
  ring_from s (wrap (first_arena s + sizeof_Arena)) l ->
  Forall (header_mapped s) l ->
  (List.length l <= fuel)%nat ->
  first_fit fuel size s = Ok (first_fitting s size l) s.
Proof.
  intros Hsize Hfa Hhd Hring Hmap Hfuel. unfold first_fit.
  replace (size <=? 0) with false by (symmetry; apply Z.leb_gt; exact Hsize).
  unfold bind at 1. unfold get_first_arena. cbv beta iota.
  replace (first_arena s =? NULL) with false
    by (symmetry; apply Z.eqb_neq; exact Hfa).
  destruct l as [|h rest]; [contradiction|].
  simpl in Hhd. subst h. apply first_fit_loop_ring; assumption.
Qed.

Lemma first_fitting_in (s : State) (size : Z) (l : list Z) (h : Z) :
  find (fits s size) l = Some h -> In h l /\ fits s size h = true.
Proof. apply find_some. Qed.

Lemma first_fitting_none (s : State) (size : Z) (l : list Z) :
  (forall h, In h l -> fits s size h = false) -> first_fitting s size l = NULL.
Proof.
  intros H. unfold first_fitting.
  destruct (find (fits s size) l) as [h|] eqn:E; [|reflexivity].
  apply find_some in E. destruct E as [Hin Hf]. rewrite (H h Hin) in Hf.
  discriminate.
Qed.

(** *** Allocation from a block found by the scan *)

Lemma same_maps_refl (s : State) : same_maps s s.
Proof. repeat split. Qed.

Lemma same_maps_trans (s1 s2 s3 : State) :
  same_maps s1 s2 -> same_maps s2 s3 -> same_maps s1 s3.
Proof.
  intros (A1 & A2 & A3) (B1 & B2 & B3).
  repeat split; congruence.
Qed.

Lemma header_mapped_same_maps (s s' : State) (h : Z) :
  same_maps s s' -> header_mapped s h -> header_mapped s' h.
Proof.
  intros (E & _) (A & B & C). unfold header_mapped. rewrite E.
  repeat split; assumption.
Qed.

Lemma store64_run (s : State) (a v : Z) :
  mapped (regions s) a 8 = true ->
  exists s', store64 a v s = Ok tt s' /\ same_maps s s'.
Proof.
  intros H. rewrite (store64_ok _ _ _ H). eexists. split; [reflexivity|].
  repeat split.
Qed.

Lemma hdr_ctor_run (s : State) (hdr size : Z) :
  header_mapped s hdr ->
  exists s', hdr_ctor hdr size s = Ok tt s' /\ same_maps s s'.
Proof.
  intros (Mn & Ms & Ma). unfold hdr_ctor.
  destruct (hdr =? NULL).
  { exists s. split; [reflexivity | apply same_maps_refl]. }
  assert (K : forall s0, same_maps s s0 ->
            exists s', (store64 (hdr_size hdr) size ;;;
                        store64 (hdr_asize hdr) 0 ;;;
                        store64 (hdr_next hdr) NULL) s0 = Ok tt s'
                       /\ same_maps s s').
  { intros s0 E0.
    assert (R0 : regions s0 = regions s) by apply E0.
    destruct (store64_run s0 (hdr_size hdr) size) as (s1 & X1 & E1);
      [rewrite R0; exact Ms|].
    rewrite (bind_ok _ _ _ _ _ X1).
    assert (R1 : regions s1 = regions s) by (destruct E1 as (-> & _); exact R0).
    destruct (store64_run s1 (hdr_asize hdr) 0) as (s2 & X2 & E2);
      [rewrite R1; exact Ma|].
    rewrite (bind_ok _ _ _ _ _ X2).
    assert (R2 : regions s2 = regions s) by (destruct E2 as (-> & _); exact R1).
    destruct (store64_run s2 (hdr_next hdr) NULL) as (s3 & X3 & E3);
      [rewrite R2; exact Mn|].
    exists s3. split; [exact X3|].
    eauto using same_maps_trans. }
  destruct (size <=? 0).
  - unfold bind at 1. unfold fprintf_stderr. apply K. repeat split.
  - unfold bind at 1. unfold ret at 1. apply K. apply same_maps_refl.
Qed.

Lemma hdr_split_run (s : State) (hdr req : Z) :
  header_mapped s hdr ->
  header_mapped s (wrap (hdr + sizeof_Header + req)) ->
  exists r s', hdr_split hdr req s = Ok r s' /\ same_maps s s'.
Proof.
  intros Mh Mnew. unfold hdr_split.
  destruct (hdr =? NULL).
  { exists NULL, s. split; [reflexivity | apply same_maps_refl]. }
  destruct Mh as (Mn & Ms & Ma).
  rewrite (bind_ok _ _ _ _ _ (load64_ok _ _ Ms)).
  destruct (read64 (mem s) (hdr_size hdr) <? req).
  { exists NULL, s. split; [reflexivity | apply same_maps_refl]. }
  set (new_hdr := wrap (hdr + sizeof_Header + req)) in *.
  destruct (hdr_ctor_run s new_hdr
              (wrap (read64 (mem s) (hdr_size hdr) - req - sizeof_Header)) Mnew)
    as (s1 & X1 & E1).
  rewrite (bind_ok _ _ _ _ _ X1).
  assert (R1 : regions s1 = regions s) by apply E1.
  destruct (store64_run s1 (hdr_size hdr) req) as (s2 & X2 & E2);
    [rewrite R1; exact Ms|].
  rewrite (bind_ok _ _ _ _ _ X2).
  assert (R2 : regions s2 = regions s) by (destruct E2 as (-> & _); exact R1).
  rewrite (bind_ok _ _ _ _ _ (load64_ok s2 (hdr_next hdr)
                                ltac:(rewrite R2; exact Mn))).
  destruct (store64_run s2 (hdr_next new_hdr) (read64 (mem s2) (hdr_next hdr)))
    as (s3 & X3 & E3); [rewrite R2; apply Mnew|].
  rewrite (bind_ok _ _ _ _ _ X3).
  assert (R3 : regions s3 = regions s) by (destruct E3 as (-> & _); exact R2).
  destruct (store64_run s3 (hdr_next hdr) new_hdr) as (s4 & X4 & E4);
    [rewrite R3; exact Mn|].
  rewrite (bind_ok _ _ _ _ _ X4).
  exists new_hdr, s4. split; [reflexivity|].
  eauto using same_maps_trans.
Qed.

(** When the scan finds a block, [mmalloc] hands out the address just past
    its header and maps nothing. *)
Lemma mmalloc_hit (fuel : nat) (s : State) (n h : Z) :
  0 < n ->
  first_fit fuel n s = Ok h s ->
  h <> NULL ->
  header_mapped s h ->
  (wrap (read64 (mem s) (hdr_size h) - sizeof_Header - n) <> 0 ->
   header_mapped s (wrap (h + sizeof_Header + n))) ->
  exists s',
    mmalloc fuel n s = Ok (wrap (h + sizeof_Header)) s' /\ same_maps s s'.
Proof.
  intros Hn Hff Hh Mh Mnew. unfold mmalloc.
  replace (n <=? 0) with false by (symmetry; apply Z.leb_gt; exact Hn).
  rewrite (bind_ok _ _ _ _ _ Hff).
  replace (h =? NULL) with false by (symmetry; apply Z.eqb_neq; exact Hh).
  change (negb false) with true. cbv iota.
  rewrite (bind_ok _ _ _ _ _
             (hdr_should_split_spec s h n Hh (proj2 (proj2 Mh)) (proj1 (proj2 Mh)))).
  assert (K : forall s0, same_maps s s0 ->
            exists s', (store64 (hdr_asize h) n ;;;
                        ret (wrap (h + sizeof_Header))) s0
                       = Ok (wrap (h + sizeof_Header)) s' /\ same_maps s s').
  { intros s0 E0.
    destruct (store64_run s0 (hdr_asize h) n) as (s1 & X1 & E1).
    { destruct E0 as (-> & _). apply Mh. }
    rewrite (bind_ok _ _ _ _ _ X1). exists s1. split; [reflexivity|].
    eauto using same_maps_trans. }
  destruct ((read64 (mem s) (hdr_asize h) =? 0) && negb (n =? 0)
            && negb (wrap (read64 (mem s) (hdr_size h) - sizeof_Header - n) =? 0))
    eqn:Esplit.
  - assert (Hnz : wrap (read64 (mem s) (hdr_size h) - sizeof_Header - n) <> 0).
    { apply andb_true_iff in Esplit. destruct Esplit as [_ E].
      apply negb_true_iff in E. apply Z.eqb_neq. exact E. }
    destruct (hdr_split_run s h n Mh (Mnew Hnz)) as (r & s1 & X1 & E1).
    unfold bind at 1. unfold bind at 1. rewrite X1. unfold ret at 1.
    apply K. exact E1.
  - unfold bind at 1. unfold ret at 1. apply K. apply same_maps_refl.
Qed.

Lemma first_fit_no_arena (fuel : nat) (s : State) (n : Z) :
  first_arena s = NULL -> first_fit fuel n s = Ok NULL s.
Proof.
  intros H. unfold first_fit. destruct (n <=? 0); [reflexivity|].
  unfold bind, get_first_arena. rewrite H. reflexivity.
Qed.


(** *** Allocate, free, allocate again on a fresh allocator *)

Ltac in_arena :=
  simpl regions;
  match goal with
  | H : regions _ = _ |- _ => rewrite H
  | _ => idtac
  end;
  apply mapped_in_new_region;
  unfold hdr_next, hdr_size, hdr_asize, arena_next, arena_size; lia.

Ltac mem_reads :=
  simpl mem;
  unfold hdr_next, hdr_size, hdr_asize, arena_next, arena_size;
  repeat first
    [ rewrite read_write_same by (unfold WORD, NULL in *; lia)
    | rewrite read_write_other by lia ].

Lemma mfree_fresh_block (fuel : nat) (s : State) (B A L : Z) :
  0 < B -> B + A < WORD -> 0 < L -> L + 64 <= A ->
  fresh_block s B A L ->
  exists s', mfree (S fuel) (B + 40) s = Ok tt s' /\
             os s' = os s /\ single_free_block s' B A.
Proof.
  intros HB HBA HL HLA (Hreg & Hfa & Han & Hasz & Hcases).
  unfold mfree.
  rewrite eqb_false by (unfold NULL; lia).
  change (negb false) with true. cbv iota.
  replace (wrap (B + 40 - sizeof_Header)) with (B + 16)
    by (symmetry; unfold sizeof_Header; replace (B + 40 - 24) with (B + 16) by lia;
        apply wrap_small; unfold WORD in *; lia).
  rewrite bind_store by in_arena.
  set (s1 := with_mem s (write64 (mem s) (hdr_asize (B + 16)) 0)).
  assert (R1 : regions s1 = [(B, A)]) by exact Hreg.
  assert (F1 : first_arena s1 = B) by exact Hfa.
  assert (An1 : read64 (mem s1) (arena_next B) = NULL).
  { unfold s1. mem_reads. exact Han. }
  assert (As1 : read64 (mem s1) (hdr_asize (B + 16)) = 0).
  { unfold s1. mem_reads. reflexivity. }
  destruct Hcases as [(Efull & Hnx & Hsz) | (Hroom & Hnx & Hsz & Rnx & Rsz & Rasz)].
  - (* the block fills the arena: it is its own successor *)
    assert (Nx1 : read64 (mem s1) (hdr_next (B + 16)) = B + 16).
    { unfold s1. mem_reads. exact Hnx. }
    assert (Sz1 : read64 (mem s1) (hdr_size (B + 16)) = A - 40).
    { unfold s1. mem_reads. exact Hsz. }
    assert (Cm : hdr_can_merge (S fuel) (B + 16) (B + 16) s1 = Ok false s1).
    { unfold hdr_can_merge.
      rewrite eqb_false by (unfold NULL; lia).
      change (false || false) with false. cbv iota.
      rewrite bind_get_first_arena.
      rewrite (bind_ok _ _ _ _ _
                 (can_merge_scan_single_arena fuel s1 _
                    ltac:(rewrite F1; in_arena) ltac:(rewrite F1; exact An1))).
      change (negb true) with false. cbv iota.
      rewrite bind_load by in_arena. rewrite As1.
      change (negb (0 =? 0)) with false. cbv iota.
      rewrite bind_load by in_arena. rewrite As1.
      change (negb (0 =? 0)) with false. cbv iota.
      rewrite bind_load by in_arena. rewrite Nx1.
      rewrite Z.eqb_refl. change (negb true) with false. cbv iota.
      reflexivity. }
    assert (Gp : hdr_get_prev (S fuel) (B + 16) s1 = Ok (B + 16) s1).
    { unfold hdr_get_prev. rewrite bind_get_first_arena. rewrite F1.
      rewrite !eqb_false by (unfold NULL; lia).
      change (false || false) with false. cbv iota.
      rewrite get_prev_loop_step. rewrite bind_load by in_arena. rewrite Nx1.
      rewrite Z.eqb_refl. reflexivity. }
    rewrite bind_load by in_arena. rewrite Nx1.
    rewrite (bind_ok _ _ _ _ _ Cm). rewrite bind_ret.
    rewrite (bind_ok _ _ _ _ _ Gp). rewrite (bind_ok _ _ _ _ _ Cm).
    exists s1. split; [reflexivity|]. split; [reflexivity|].
    repeat split; assumption.
  - (* the block is followed by the free rest of the arena *)
    set (R := B + 40 + L) in *.
    assert (Nx1 : read64 (mem s1) (hdr_next (B + 16)) = R).
    { unfold s1. mem_reads. exact Hnx. }
    assert (Sz1 : read64 (mem s1) (hdr_size (B + 16)) = L).
    { unfold s1. mem_reads. exact Hsz. }
    assert (Rnx1 : read64 (mem s1) (hdr_next R) = B + 16).
    { unfold s1, R in *. mem_reads. exact Rnx. }
    assert (Rsz1 : read64 (mem s1) (hdr_size R) = A - 64 - L).
    { unfold s1, R in *. mem_reads. exact Rsz. }
    assert (Rasz1 : read64 (mem s1) (hdr_asize R) = 0).
    { unfold s1, R in *. mem_reads. exact Rasz. }
    assert (Cm : hdr_can_merge (S fuel) (B + 16) R s1 = Ok true s1).
    { unfold hdr_can_merge.
      rewrite !eqb_false by (unfold NULL, R; lia).
      change (false || false) with false. cbv iota.
      rewrite bind_get_first_arena.
      rewrite (bind_ok _ _ _ _ _
                 (can_merge_scan_single_arena fuel s1 _
                    ltac:(rewrite F1; in_arena) ltac:(rewrite F1; exact An1))).
      change (negb true) with false. cbv iota.
      rewrite bind_load by in_arena. rewrite As1.
      change (negb (0 =? 0)) with false. cbv iota.
      rewrite bind_load by (unfold R; in_arena). rewrite Rasz1.
      change (negb (0 =? 0)) with false. cbv iota.
      rewrite bind_load by in_arena. rewrite Nx1.
      rewrite Z.eqb_refl. change (negb true) with false. cbv iota.
      rewrite ltb_true by (unfold R; lia). reflexivity. }
    rewrite bind_load by in_arena. rewrite Nx1.
    rewrite (bind_ok _ _ _ _ _ Cm).
    (* the merge *)
    assert (Mg : (nx' <- load64 (hdr_next (B + 16)) ;; hdr_merge (B + 16) nx') s1
                 = Ok tt (with_mem
                            (with_mem s1 (write64 (mem s1) (hdr_size (B + 16)) (A - 40)))
                            (write64 (write64 (mem s1) (hdr_size (B + 16)) (A - 40))
                               (hdr_next (B + 16)) (B + 16)))).
    { rewrite bind_load by in_arena. rewrite Nx1.
      rewrite hdr_merge_ok;
        [ | unfold NULL; lia | unfold NULL, R; lia | unfold R; lia
          | in_arena | in_arena | unfold R; in_arena | unfold R; in_arena
          | exact Nx1 ].
      rewrite Sz1, Rsz1.
      replace (wrap (L + wrap (A - 64 - L + sizeof_Header))) with (A - 40).
      2:{ unfold sizeof_Header. rewrite (wrap_small (A - 64 - L + 24))
            by (unfold WORD in *; lia).
          rewrite wrap_small by (unfold WORD in *; lia). lia. }
      replace (read64
                 (mem (with_mem s1 (write64 (mem s1) (hdr_size (B + 16)) (A - 40))))
                 (hdr_next R)) with (B + 16).
      2:{ unfold s1, R. mem_reads. symmetry. exact Rnx. }
      reflexivity. }
    rewrite (bind_ok _ _ _ _ _ Mg).
    set (s2 := with_mem _ _).
    assert (R2 : regions s2 = [(B, A)]) by exact Hreg.
    assert (F2 : first_arena s2 = B) by exact Hfa.
    assert (An2 : read64 (mem s2) (arena_next B) = NULL).
    { unfold s2. mem_reads. first [reflexivity | assumption]. }
    assert (Nx2 : read64 (mem s2) (hdr_next (B + 16)) = B + 16).
    { unfold s2. mem_reads. first [reflexivity | assumption]. }
    assert (Sz2 : read64 (mem s2) (hdr_size (B + 16)) = A - 40).
    { unfold s2. mem_reads. first [reflexivity | assumption]. }
    assert (As2 : read64 (mem s2) (hdr_asize (B + 16)) = 0).
    { unfold s2. mem_reads. first [reflexivity | assumption]. }
    assert (Gp : hdr_get_prev (S fuel) (B + 16) s2 = Ok (B + 16) s2).
    { unfold hdr_get_prev. rewrite bind_get_first_arena. rewrite F2.
      rewrite !eqb_false by (unfold NULL; lia).
      change (false || false) with false. cbv iota.
      rewrite get_prev_loop_step. rewrite bind_load by in_arena. rewrite Nx2.
      rewrite Z.eqb_refl. reflexivity. }
    assert (Cm2 : hdr_can_merge (S fuel) (B + 16) (B + 16) s2 = Ok false s2).
    { unfold hdr_can_merge.
      rewrite eqb_false by (unfold NULL; lia).
      change (false || false) with false. cbv iota.
      rewrite bind_get_first_arena.
      rewrite (bind_ok _ _ _ _ _
                 (can_merge_scan_single_arena fuel s2 _
                    ltac:(rewrite F2; in_arena) ltac:(rewrite F2; exact An2))).
      change (negb true) with false. cbv iota.
      rewrite bind_load by in_arena. rewrite As2.
      change (negb (0 =? 0)) with false. cbv iota.
      rewrite bind_load by in_arena. rewrite As2.
      change (negb (0 =? 0)) with false. cbv iota.
      rewrite bind_load by in_arena. rewrite Nx2.
      rewrite Z.eqb_refl. change (negb true) with false. cbv iota.
      reflexivity. }
    rewrite (bind_ok _ _ _ _ _ Gp). rewrite (bind_ok _ _ _ _ _ Cm2).
    exists s2. split; [reflexivity|]. split; [reflexivity|].
    repeat split; assumption.
Qed.

Lemma hdr_ctor_ok (s : State) (hdr size : Z) :
  hdr <> NULL -> 0 < size ->
  header_mapped s hdr ->
  hdr_ctor hdr size s
  = Ok tt (with_mem s
             (write64 (write64 (write64 (mem s) (hdr_size hdr) size)
                         (hdr_asize hdr) 0)
                (hdr_next hdr) NULL)).
Proof.
  intros Hh Hs (Mn & Ms & Ma). unfold hdr_ctor.
  rewrite eqb_false by exact Hh. rewrite leb_false by exact Hs.
  rewrite bind_ret.
  rewrite bind_store by exact Ms.
  rewrite bind_store by exact Ma.
  rewrite store64_ok by exact Mn. reflexivity.
Qed.

Lemma hdr_get_prev_self (fuel : nat) (s : State) (h : Z) :
  first_arena s <> NULL -> h <> NULL ->
  mapped (regions s) (hdr_next h) 8 = true ->
  read64 (mem s) (hdr_next h) = h ->
  hdr_get_prev (S fuel) h s = Ok h s.
Proof.
  intros Hfa Hh Mn Hn. unfold hdr_get_prev. rewrite bind_get_first_arena.
  rewrite !eqb_false by assumption.
  change (false || false) with false. cbv iota.
  rewrite get_prev_loop_step. rewrite bind_load by exact Mn. rewrite Hn.
  rewrite Z.eqb_refl. reflexivity.
Qed.

Lemma mmap_ok (s : State) (len B : Z) (rest : list Z) :
  len <> 0 -> os s = B :: rest -> B <> MAP_FAILED ->
  mmap len s
  = Ok B (mkState (fun x => if in_region x (B, len) then 0 else mem s x)
                  ((B, len) :: regions s) (first_arena s) rest (err s)).
Proof.
  intros Hl Hos Hb. unfold mmap. rewrite eqb_false by exact Hl.
  rewrite Hos. rewrite eqb_false by exact Hb. reflexivity.
Qed.

Lemma arena_alloc_ok (s : State) (req B : Z) (rest : list Z) :
  sizeof_Arena + sizeof_Header < req ->
  16 <= allign_page req ->
  os s = B :: rest -> B <> MAP_FAILED -> B <> NULL ->
  let s0 := mkState (fun x => if in_region x (B, allign_page req) then 0
                              else mem s x)
                    ((B, allign_page req) :: regions s)
                    (first_arena s) rest (err s) in
  arena_alloc req s
  = Ok B (with_mem s0 (write64 (write64 (mem s0) (arena_next B) NULL)
                         (arena_size B) (allign_page req))).
Proof.
  intros Hreq HA Hos Hb Hn s0. unfold arena_alloc.
  rewrite leb_false by exact Hreq. rewrite bind_ret.
  rewrite (bind_ok _ _ _ _ _ (mmap_ok s (allign_page req) B rest
                                ltac:(lia) Hos Hb)).
  fold s0. rewrite eqb_false by exact Hn.
  rewrite bind_store by (unfold s0; in_arena).
  rewrite bind_store by (unfold s0; in_arena).
  reflexivity.
Qed.

Lemma arena_append_first (fuel : nat) (s : State) (a : Z) :
  first_arena s = NULL ->
  arena_append fuel a s
  = Ok tt (mkState (mem s) (regions s) a (os s) (err s)).
Proof.
  intros H. unfold arena_append. rewrite bind_get_first_arena. rewrite H.
  reflexivity.
Qed.

Lemma mmalloc_fresh (fuel : nat) (B L : Z) (rest : list Z) :
  0 < B -> B + allign_page (L + 40) < WORD ->
  0 < L -> L + 64 <= allign_page (L + 40) ->
  exists s1,
    mmalloc (S fuel) L (init_state (B :: rest)) = Ok (B + 40) s1 /\
    os s1 = rest /\
    fresh_block s1 B (allign_page (L + 40)) L.
Proof.
  intros HB HBA HL HLA.
  unfold mmalloc.
  rewrite leb_false by exact HL.
  rewrite (bind_ok _ _ _ _ _
             (first_fit_no_arena (S fuel) (init_state (B :: rest)) L eq_refl)).
  change (negb (NULL =? NULL)) with false. cbv iota.
  replace (wrap (L + sizeof_Arena + sizeof_Header)) with (L + 40)
    by (symmetry; unfold sizeof_Arena, sizeof_Header;
        replace (L + 16 + 24) with (L + 40) by lia;
        apply wrap_small; unfold WORD in *; lia).
  rewrite (bind_ok _ _ _ _ _
             (arena_alloc_ok (init_state (B :: rest)) (L + 40) B rest
                ltac:(unfold sizeof_Arena, sizeof_Header; lia) ltac:(lia)
                eq_refl
                ltac:(unfold MAP_FAILED, WORD in *; lia)
                ltac:(unfold NULL; lia))).
  set (A := allign_page (L + 40)) in *.
  set (s0 := with_mem _ _).
  unfold mmalloc_new_arena.
  rewrite (eqb_false B NULL) by (unfold NULL; lia).
  rewrite bind_ret.
  rewrite (bind_ok _ _ _ _ _ (arena_append_first (S fuel) s0 B eq_refl)).
  unfold sizeof_Arena, sizeof_Header.
  set (s1 := mkState _ _ _ _ _).
  replace (wrap (B + 16)) with (B + 16)
    by (symmetry; apply wrap_small; unfold WORD in *; lia).
  assert (R1 : regions s1 = [(B, A)]) by reflexivity.
  rewrite bind_load by in_arena.
  replace (read64 (mem s1) (arena_size B)) with A
    by (unfold s1, s0; mem_reads; reflexivity).
  replace (wrap (A - 16 - 24)) with (A - 40)
    by (symmetry; replace (A - 16 - 24) with (A - 40) by lia;
        apply wrap_small; unfold WORD in *; lia).
  rewrite (bind_ok _ _ _ _ _
             (hdr_ctor_ok s1 (B + 16) (A - 40)
                ltac:(unfold NULL; lia) ltac:(lia)
                ltac:(repeat split; in_arena))).
  set (s2 := with_mem s1 _).
  assert (R2 : regions s2 = [(B, A)]) by reflexivity.
  rewrite bind_get_first_arena. simpl first_arena.
  replace (wrap (B + 16)) with (B + 16)
    by (symmetry; apply wrap_small; unfold WORD in *; lia).
  rewrite bind_store by in_arena.
  set (s3 := with_mem s2 _).
  assert (R3 : regions s3 = [(B, A)]) by reflexivity.
  rewrite bind_get_first_arena. simpl first_arena.
  replace (wrap (B + 16)) with (B + 16)
    by (symmetry; apply wrap_small; unfold WORD in *; lia).
  rewrite (bind_ok _ _ _ _ _
             (hdr_get_prev_self fuel s3 (B + 16)
                ltac:(simpl; unfold NULL; lia) ltac:(unfold NULL; lia)
                ltac:(in_arena)
                ltac:(unfold s3, s2; mem_reads; reflexivity))).
  rewrite bind_store by in_arena.
  set (s4 := with_mem s3 _).
  assert (R4 : regions s4 = [(B, A)]) by reflexivity.
  assert (As4 : read64 (mem s4) (hdr_asize (B + 16)) = 0).
  { unfold s4, s3, s2. mem_reads. reflexivity. }
  assert (Sz4 : read64 (mem s4) (hdr_size (B + 16)) = A - 40).
  { unfold s4, s3, s2. mem_reads. reflexivity. }
  assert (Nx4 : read64 (mem s4) (hdr_next (B + 16)) = B + 16).
  { unfold s4. mem_reads. reflexivity. }
  assert (An4 : read64 (mem s4) (arena_next B) = NULL).
  { unfold s4, s3, s2, s1, s0. mem_reads. reflexivity. }
  rewrite (bind_ok _ _ _ _ _
             (hdr_should_split_spec s4 (B + 16) L
                ltac:(unfold NULL; lia) ltac:(in_arena) ltac:(in_arena))).
  rewrite As4, Sz4. unfold sizeof_Header.
  rewrite (eqb_false L 0) by lia.
  change ((0 =? 0) && negb false) with true.
  replace (wrap (A - 40 - 24 - L)) with (A - 64 - L)
    by (symmetry; replace (A - 40 - 24 - L) with (A - 64 - L) by lia;
        apply wrap_small; unfold WORD in *; lia).
  destruct (A - 64 - L =? 0) eqn:Ez.
  - (* the block fills the arena *)
    apply Z.eqb_eq in Ez.
    change (true && negb true) with false. cbv iota.
    rewrite bind_ret. rewrite bind_store by in_arena.
    replace (wrap (B + 16 + 24)) with (B + 40)
      by (symmetry; replace (B + 16 + 24) with (B + 40) by lia;
          apply wrap_small; unfold WORD in *; lia).
    eexists. split; [reflexivity|]. split; [reflexivity|].
    unfold fresh_block. simpl regions. simpl first_arena.
    split; [reflexivity|]. split; [reflexivity|].
    split; [mem_reads; first [reflexivity | assumption]|].
    split; [mem_reads; reflexivity|].
    left. split; [lia|].
    split; mem_reads; first [reflexivity | assumption].
  - (* the rest of the arena is split off *)
    apply Z.eqb_neq in Ez.
    change (true && negb false) with true. cbv iota.
    assert (Sp : hdr_split (B + 16) L s4
                 = Ok (B + 40 + L)
                      (with_mem s4
                         (write64
                            (write64
                               (write64
                                  (write64
                                     (write64
                                        (write64 (mem s4) (hdr_size (B + 40 + L))
                                           (A - 64 - L))
                                        (hdr_asize (B + 40 + L)) 0)
                                     (hdr_next (B + 40 + L)) NULL)
                                  (hdr_size (B + 16)) L)
                               (hdr_next (B + 40 + L)) (B + 16))
                            (hdr_next (B + 16)) (B + 40 + L)))).
    { unfold hdr_split. rewrite eqb_false by (unfold NULL; lia).
      rewrite bind_load by in_arena. rewrite Sz4.
      rewrite ltb_false by lia. unfold sizeof_Header.
      replace (wrap (B + 16 + 24 + L)) with (B + 40 + L)
        by (symmetry; replace (B + 16 + 24 + L) with (B + 40 + L) by lia;
            apply wrap_small; unfold WORD in *; lia).
      replace (wrap (A - 40 - L - 24)) with (A - 64 - L)
        by (symmetry; replace (A - 40 - L - 24) with (A - 64 - L) by lia;
            apply wrap_small; unfold WORD in *; lia).
      rewrite (bind_ok _ _ _ _ _
                 (hdr_ctor_ok s4 (B + 40 + L) (A - 64 - L)
                    ltac:(unfold NULL; lia) ltac:(lia)
                    ltac:(repeat split; in_arena))).
      rewrite bind_store by in_arena.
      rewrite bind_load by in_arena.
      match goal with
      | |- context [read64 ?m (hdr_next (B + 16))] =>
        replace (read64 m (hdr_next (B + 16))) with (B + 16)
          by (mem_reads; first [reflexivity | symmetry; assumption])
      end.
      rewrite bind_store by in_arena.
      rewrite bind_store by in_arena.
      reflexivity. }
    rewrite (bind_ok _ _ _ _ _
               (bind_ok _ (fun _ => ret tt) _ _ _ Sp)).
    rewrite bind_store by in_arena.
    replace (wrap (B + 16 + 24)) with (B + 40)
      by (symmetry; replace (B + 16 + 24) with (B + 40) by lia;
          apply wrap_small; unfold WORD in *; lia).
    eexists. split; [reflexivity|]. split; [reflexivity|].
    unfold fresh_block. simpl regions. simpl first_arena.
    split; [reflexivity|]. split; [reflexivity|].
    split; [mem_reads; first [reflexivity | assumption]|].
    split; [mem_reads; reflexivity|].
    right. split; [lia|].
    repeat split; mem_reads; first [reflexivity | assumption].
Qed.

Lemma mmalloc_single_free_block (fuel : nat) (s : State) (B A n : Z) :
  0 < B -> B + A < WORD -> 0 < n -> n + 64 <= A ->
  single_free_block s B A ->
  exists s', mmalloc (S fuel) n s = Ok (B + 40) s' /\ same_maps s s'.
Proof.
  intros HB HBA Hn HnA (Hreg & Hfa & Hnx & Hsz & Hasz).
  assert (W : wrap (first_arena s + sizeof_Arena) = B + 16).
  { rewrite Hfa. unfold sizeof_Arena. apply wrap_small. unfold WORD in *. lia. }
  assert (Mh : header_mapped s (B + 16)) by (repeat split; in_arena).
  assert (Hff : first_fit (S fuel) n s = Ok (B + 16) s).
  { rewrite (first_fit_ring (S fuel) s n [B + 16]).
    - unfold first_fitting, fits. simpl find. rewrite Hasz, Hsz.
      change (0 =? 0) with true.
      replace (n <=? A - 40) with true by (symmetry; apply Z.leb_le; lia).
      reflexivity.
    - exact Hn.
    - rewrite Hfa. unfold NULL. lia.
    - simpl. symmetry. exact W.
    - simpl. rewrite W. exact Hnx.
    - constructor; [exact Mh | constructor].
    - simpl. lia. }
  replace (B + 40) with (wrap (B + 16 + sizeof_Header))
    by (unfold sizeof_Header; replace (B + 16 + 24) with (B + 40) by lia;
        apply wrap_small; unfold WORD in *; lia).
  apply mmalloc_hit; try assumption.
  - unfold NULL. lia.
  - intros _.
    replace (wrap (B + 16 + sizeof_Header + n)) with (B + 40 + n)
      by (symmetry; unfold sizeof_Header;
          replace (B + 16 + 24 + n) with (B + 40 + n) by lia;
          apply wrap_small; unfold WORD in *; lia).
    repeat split; in_arena.
Qed.

(** On a fresh allocator: a block of [L] bytes is allocated and freed; any
    request of at most [L] bytes is then given the same address, and the
    arena mapped by the first call stays the only one.  ([L] is such that
    the first call does not run into the end of its arena.) *)
Lemma mmalloc_reuses_freed_block (fuel : nat) (B L n : Z) (rest : list Z) :
  0 < B -> B + allign_page (L + 40) < WORD ->
  0 < n <= L -> L + 64 <= allign_page (L + 40) ->
  exists s1 s2 s3,
    mmalloc (S fuel) L (init_state (B :: rest)) = Ok (B + 40) s1 /\
    mfree (S fuel) (B + 40) s1 = Ok tt s2 /\
    mmalloc (S fuel) n s2 = Ok (B + 40) s3 /\
    regions s3 = regions s1 /\ os s3 = os s1.
Proof.
  intros HB HBA Hn HL.
  destruct (mmalloc_fresh fuel B L rest HB HBA ltac:(lia) HL)
    as (s1 & E1 & Hos1 & F1).
  destruct (mfree_fresh_block fuel s1 B (allign_page (L + 40)) L
              HB HBA ltac:(lia) HL F1) as (s2 & E2 & Hos2 & F2).
  destruct (mmalloc_single_free_block fuel s2 B (allign_page (L + 40)) n
              HB HBA ltac:(lia) ltac:(lia) F2) as (s3 & E3 & (Hr3 & Ho3 & _)).
  exists s1, s2, s3. repeat split; try assumption.
  - rewrite Hr3. destruct F2 as (-> & _). destruct F1 as (-> & _). reflexivity.
  - rewrite Ho3. exact Hos2.
Qed.

Lemma find_first_fitting (f : Z -> bool) (l1 l2 : list Z) (h : Z) :
  (forall x, In x l1 -> f x = false) -> f h = true ->
  find f (l1 ++ h :: l2) = Some h.
Proof.
  induction l1 as [|x t IH]; intros Hnone Hh; simpl.
  - rewrite Hh. reflexivity.
  - rewrite (Hnone x (or_introl eq_refl)). apply IH; [|exact Hh].
    intros y Hy. apply Hnone. right. exact Hy.
Qed.

Lemma header_mapped_check (s : State) (h : Z) :
  mapped (regions s) (hdr_next h) 8 && mapped (regions s) (hdr_size h) 8
  && mapped (regions s) (hdr_asize h) 8 = true ->
  header_mapped s h.
Proof.
  intros H. apply andb_true_iff in H. destruct H as [H C].
  apply andb_true_iff in H. destruct H as [A B].
  repeat split; assumption.
Qed.

(** C8 (the claim as stated fails): a large block is freed and a smaller
    request made, and the request is given another address than that of
    the freed block.  Here the freed block of 200000 bytes lies in the
    second arena, and the scan meets the free rest of the first arena
    before it. *)
Lemma freed_block_not_reused :
  result (reuse_with_two_arenas (init_state [arena1; arena2]))
  = Some (arena2 + 40, arena1 + 80) /\
  arena1 + 80 <> arena2 + 40.
Proof. split; [vm_compute; reflexivity | vm_compute; discriminate]. Qed.

(** The same with one arena: of two freed blocks it is the first of the
    ring whose address the request is given, not that of the larger
    one. *)
Example first_of_two_freed_blocks_reused :
  result (reuse_after_two_frees (init_state [arena1]))
  = Some (arena1 + 40, arena1 + 664, arena1 + 40).
Proof. vm_compute. reflexivity. Qed.

(** C8 (amended): for a request [n > 0], [first_fit] scans the ring once,
    starting at the first block of the first arena, and returns the first
    block that is free and has at least [n] usable bytes, or null when
    there is none (or no arena yet).  A block found this way is what
    [mmalloc] hands out: it returns the address just past that block's
    header and maps no new arena.  So after [mfree(p)] has returned, a
    request [n] of at most the size of the freed block is given the address
    [p] again, with no new arena, when the freed block is still a block of
    the ring and no block before it in the ring is free and large enough;
    when there is such a block, the first of them is handed out.  On a fresh
    allocator the freed block is the first of the ring: after a block of
    [L >= n] bytes has been allocated and freed, [mmalloc(n)] returns its
    address again, and the arena mapped for it stays the only one ([L]
    being such that the first call leaves room for a header at the end of
    its arena). *)
Theorem first_fit_scans_ring_once (fuel : nat) (s : State) (n : Z) :
  0 < n ->
  (first_arena s = NULL -> first_fit fuel n s = Ok NULL s) /\
  (forall l : list Z,
     first_arena s <> NULL ->
     hd NULL l = wrap (first_arena s + sizeof_Arena) ->
     ring_from s (wrap (first_arena s + sizeof_Arena)) l ->
     Forall (header_mapped s) l ->
     (List.length l <= fuel)%nat ->
     first_fit fuel n s = Ok (first_fitting s n l) s /\
     ((forall h, In h l -> fits s n h = false) ->
      first_fit fuel n s = Ok NULL s) /\
     (forall h,
        find (fits s n) l = Some h ->
        h <> NULL ->
        (wrap (read64 (mem s) (hdr_size h) - sizeof_Header - n) <> 0 ->
         header_mapped s (wrap (h + sizeof_Header + n))) ->
        exists s',
          mmalloc fuel n s = Ok (wrap (h + sizeof_Header)) s' /\
          same_maps s s') /\
     (forall (s0 : State) (p : Z) (l1 l2 : list Z),
        sizeof_Header < p < WORD ->
        mfree fuel p s0 = Ok tt s ->
        l = l1 ++ (p - sizeof_Header) :: l2 ->
        n <= read64 (mem s) (hdr_size (p - sizeof_Header)) ->
        (forall x, In x l1 -> fits s n x = false) ->
        (wrap (read64 (mem s) (hdr_size (p - sizeof_Header)) - sizeof_Header - n)
         <> 0 ->
         header_mapped s (wrap (p + n))) ->
        exists s', mmalloc fuel n s = Ok p s' /\ same_maps s s')) /\
  (forall (B L : Z) (rest : list Z),
     0 < B -> B + allign_page (L + 40) < WORD ->
     n <= L -> L + 64 <= allign_page (L + 40) ->
     exists s1 s2 s3,
       mmalloc (S fuel) L (init_state (B :: rest)) = Ok (B + 40) s1 /\
       mfree (S fuel) (B + 40) s1 = Ok tt s2 /\
       mmalloc (S fuel) n s2 = Ok (B + 40) s3 /\
       regions s3 = regions s1 /\ os s3 = os s1).
Proof.
  intros Hn. split; [apply first_fit_no_arena|]. split.
  - intros l Hfa Hhd Hring Hmap Hfuel.
    pose proof (first_fit_ring fuel s n l Hn Hfa Hhd Hring Hmap Hfuel) as Hff.
    assert (Hit : forall h,
               find (fits s n) l = Some h ->
               h <> NULL ->
               (wrap (read64 (mem s) (hdr_size h) - sizeof_Header - n) <> 0 ->
                header_mapped s (wrap (h + sizeof_Header + n))) ->
               exists s',
                 mmalloc fuel n s = Ok (wrap (h + sizeof_Header)) s' /\
                 same_maps s s').
    { intros h Hfind Hh Mnew.
      apply mmalloc_hit; try assumption.
      - rewrite Hff. unfold first_fitting. rewrite Hfind. reflexivity.
      - apply find_some in Hfind. destruct Hfind as [Hin _].
        rewrite Forall_forall in Hmap. apply Hmap. exact Hin. }
    split; [exact Hff|]. split; [|split; [exact Hit|]].
    + intros Hnone. rewrite Hff. rewrite first_fitting_none by exact Hnone.
      reflexivity.
    + intros s0 p l1 l2 Hp Hfree Hl Hsz Hnone Mnew.
      unfold sizeof_Header in Hp.
      assert (Wh : wrap (p - sizeof_Header) = p - sizeof_Header)
        by (apply wrap_small; unfold sizeof_Header, WORD in *; lia).
      pose proof (mfree_marks_free fuel p s0 s
                    ltac:(unfold NULL; lia) Hfree) as Hasz.
      rewrite Wh in Hasz.
      assert (Hfit : fits s n (p - sizeof_Header) = true).
      { unfold fits. rewrite Hasz. apply andb_true_iff.
        split; [reflexivity | apply Z.leb_le; exact Hsz]. }
      assert (Wp : wrap (p - sizeof_Header + sizeof_Header) = p)
        by (unfold sizeof_Header; replace (p - 24 + 24) with p by lia;
            apply wrap_small; unfold WORD in *; lia).
      destruct (Hit (p - sizeof_Header)) as (s' & E & Sm).
      * rewrite Hl. apply find_first_fitting; assumption.
      * unfold NULL, sizeof_Header. lia.
      * intros Hnz.
        replace (p - sizeof_Header + sizeof_Header + n) with (p + n)
          by (unfold sizeof_Header; lia).
        apply Mnew. exact Hnz.
      * exists s'. rewrite Wp in E. split; assumption.
  - intros B L rest HB HBA HnL HL.
    apply mmalloc_reuses_freed_block; try assumption. lia.
Qed.

(** Blocks of 16, 1000 and 16 bytes are in use; the one of 1000 bytes, at
    [arena1 + 80], is freed.  The scan for 500 bytes passes the first block,
    which is in use, and stops at the freed one: the request is given
    [arena1 + 80] again.  And on a fresh allocator 1000 bytes are allocated
    and freed; a request for 500 bytes is given the same address. *)
Lemma first_fit_scans_ring_once_witness :
  (first_fit enough 500 heap_middle_freed = Ok (arena1 + 56) heap_middle_freed /\
   exists s',
     mmalloc enough 500 heap_middle_freed = Ok (arena1 + 80) s' /\
     same_maps heap_middle_freed s') /\
  (exists s1 s2 s3,
     mmalloc (S enough) 1000 (init_state [arena1]) = Ok (arena1 + 40) s1 /\
     mfree (S enough) (arena1 + 40) s1 = Ok tt s2 /\
     mmalloc (S enough) 500 s2 = Ok (arena1 + 40) s3 /\
     regions s3 = regions s1 /\ os s3 = os s1).
Proof.
  destruct (first_fit_scans_ring_once enough heap_middle_freed 500)
    as (_ & Hring & Hfresh); [lia|].
  split.
  - destruct (Hring [arena1 + 16; arena1 + 56; arena1 + 1080; arena1 + 1120])
      as (Hscan & _ & _ & Hreuse).
    + vm_compute. discriminate.
    + vm_compute. reflexivity.
    + vm_compute. repeat split; discriminate.
    + repeat (constructor; [apply header_mapped_check; vm_compute; reflexivity|]).
      constructor.
    + vm_compute. lia.
    + split.
      * replace (first_fitting heap_middle_freed 500
                   [arena1 + 16; arena1 + 56; arena1 + 1080; arena1 + 1120])
          with (arena1 + 56) in Hscan by (vm_compute; reflexivity).
        exact Hscan.
      * apply (Hreuse heap_three_blocks (arena1 + 80)
                 [arena1 + 16] [arena1 + 1080; arena1 + 1120]).
        -- vm_compute. split; reflexivity.
        -- apply run_state_after. vm_compute. reflexivity.
        -- vm_compute. reflexivity.
        -- vm_compute. discriminate.
        -- intros x [<- | []]. vm_compute. reflexivity.
        -- intros _. apply header_mapped_check. vm_compute. reflexivity.
  - apply (Hfresh arena1 1000 []).
    + reflexivity.
    + vm_compute. reflexivity.
    + lia.
    + vm_compute. discriminate.
Defined.

(** ** C9 and C10: the degenerate requests *)

Lemma bind_out_of_fuel {A B} (c : M A) (k : A -> M B) (s : State) :
  c s = OutOfFuel -> bind c k s = OutOfFuel.
Proof. intros H. unfold bind. rewrite H. reflexivity. Qed.

(** The parts of C9 that hold as stated: a request for no bytes, and a
    reallocation of the null pointer. *)
Lemma mmalloc_zero_returns_null (fuel : nat) (s : State) :
  mmalloc fuel 0 s = Ok NULL s.
Proof. reflexivity. Qed.

Lemma mrealloc_null_returns_null (fuel : nat) (s : State) (n : Z) :
  mrealloc fuel NULL n s = Ok NULL s.
Proof. reflexivity. Qed.

(** [mrealloc(p, 0)] is [mfree(p)] followed by a null result. *)
Lemma mrealloc_zero_is_mfree (fuel : nat) (s : State) (p : Z) :
  p <> NULL -> mrealloc fuel p 0 s = (mfree fuel p ;;; ret NULL) s.
Proof.
  intros Hp. unfold mrealloc. rewrite eqb_false by exact Hp. reflexivity.
Qed.

(** For the block a fresh allocator hands out it does free the block and
    return null, leaving the arena as one free block. *)
Lemma mrealloc_zero_fresh_block (fuel : nat) (B L : Z) (rest : list Z) :
  0 < B -> B + allign_page (L + 40) < WORD ->
  0 < L -> L + 64 <= allign_page (L + 40) ->
  exists s1 s2,
    mmalloc (S fuel) L (init_state (B :: rest)) = Ok (B + 40) s1 /\
    mrealloc (S fuel) (B + 40) 0 s1 = Ok NULL s2 /\
    single_free_block s2 B (allign_page (L + 40)).
Proof.
  intros HB HBA HL HLA.
  destruct (mmalloc_fresh fuel B L rest HB HBA HL HLA)
    as (s1 & E1 & _ & F1).
  destruct (mfree_fresh_block fuel s1 B (allign_page (L + 40)) L
              HB HBA HL HLA F1) as (s2 & E2 & _ & F2).
  exists s1, s2. split; [exact E1|]. split; [|exact F2].
  rewrite mrealloc_zero_is_mfree by (unfold NULL; lia).
  rewrite (bind_ok _ _ _ _ _ E2). reflexivity.
Qed.

(** The loop of [hdr_get_prev] never leaves a header that links to itself
    and is not the one looked for. *)
Lemma get_prev_loop_trapped (s : State) (hdr t : Z) :
  mapped (regions s) (hdr_next t) 8 = true ->
  read64 (mem s) (hdr_next t) = t ->
  t <> hdr ->
  forall fuel, get_prev_loop fuel hdr t s = OutOfFuel.
Proof.
  intros Mt Ht Hne fuel. induction fuel as [|f IH]; [reflexivity|].
  rewrite get_prev_loop_step. rewrite bind_load by exact Mt.
  rewrite Ht. rewrite eqb_false by exact Hne. exact IH.
Qed.

Lemma hdr_can_merge_one_arena_returns
      (f : nat) (s : State) (left right : Z) :
  mapped (regions s) (arena_next (first_arena s)) 8 = true ->
  read64 (mem s) (arena_next (first_arena s)) = NULL ->
  mapped (regions s) (hdr_asize left) 8 = true ->
  mapped (regions s) (hdr_asize right) 8 = true ->
  mapped (regions s) (hdr_next left) 8 = true ->
  exists b, hdr_can_merge (S f) left right s = Ok b s.
Proof.
  intros Ma Ha Mla Mra Mln. unfold hdr_can_merge.
  destruct ((left =? NULL) || (right =? NULL)); [eexists; reflexivity|].
  rewrite bind_get_first_arena.
  rewrite (bind_ok _ _ _ _ _ (can_merge_scan_single_arena f s right Ma Ha)).
  change (negb true) with false. cbv iota.
  rewrite bind_load by exact Mla.
  destruct (negb (read64 (mem s) (hdr_asize left) =? 0));
    [eexists; reflexivity|].
  rewrite bind_load by exact Mra.
  destruct (negb (read64 (mem s) (hdr_asize right) =? 0));
    [eexists; reflexivity|].
  rewrite bind_load by exact Mln.
  destruct (negb (read64 (mem s) (hdr_next left) =? right));
    [eexists; reflexivity|].
  destruct (left =? right); eexists; reflexivity.
Qed.

(** [mfree] of a block whose ring successor links to itself does not
    return (one arena): whether or not the successor is folded into the
    block, the block's link leads to the successor, and [hdr_get_prev]
    walks from there without ever coming back to the block. *)
Lemma mfree_loops_before_self_linked_block (s : State) (p : Z) :
  let h := wrap (p - sizeof_Header) in
  let nx := read64 (mem s) (hdr_next h) in
  p <> NULL -> h <> NULL -> nx <> NULL ->
  first_arena s <> NULL ->
  mapped (regions s) (arena_next (first_arena s)) 8 = true ->
  read64 (mem s) (arena_next (first_arena s)) = NULL ->
  first_arena s + sizeof_Arena <= h ->
  header_mapped s h -> header_mapped s nx ->
  h + sizeof_Header <= nx ->
  read64 (mem s) (hdr_next nx) = nx ->
  forall fuel, mfree fuel p s = OutOfFuel.
Proof.
  intros h nx Hp Hh Hnx Hfa Mar Har Hah (Mhn & Mhs & Mha) (Mnn & Mns & Mna)
         Hsep Hself fuel.
  pose proof (read64_range (mem s) (hdr_next h)) as Rnx. fold nx in Rnx.
  unfold sizeof_Header, sizeof_Arena in Hsep, Hah.
  unfold mfree. rewrite eqb_false by exact Hp.
  change (negb false) with true. cbv iota zeta. fold h.
  rewrite bind_store by exact Mha.
  set (s1 := with_mem s (write64 (mem s) (hdr_asize h) 0)).
  assert (Nx1 : read64 (mem s1) (hdr_next h) = nx).
  { unfold s1. simpl mem. unfold hdr_next, hdr_asize.
    rewrite read_write_other by lia. reflexivity. }
  assert (Self1 : read64 (mem s1) (hdr_next nx) = nx).
  { unfold s1. simpl mem. unfold hdr_next, hdr_asize.
    rewrite read_write_other by lia. exact Hself. }
  assert (Ar1 : read64 (mem s1) (arena_next (first_arena s1)) = NULL).
  { unfold s1. simpl. unfold arena_next, hdr_asize.
    rewrite read_write_other by lia. exact Har. }
  rewrite bind_load by exact Mhn. rewrite Nx1.
  destruct fuel as [|f].
  { (* the arena scan of [hdr_can_merge] has no fuel *)
    apply bind_out_of_fuel. unfold hdr_can_merge.
    rewrite !eqb_false by assumption.
    change (false || false) with false. cbv iota.
    reflexivity. }
  destruct (hdr_can_merge_one_arena_returns f s1 h nx Mar Ar1 Mha Mna Mhn)
    as (m1 & Cm).
  rewrite (bind_ok _ _ _ _ _ Cm).
  assert (K : forall s2,
            regions s2 = regions s -> first_arena s2 = first_arena s ->
            read64 (mem s2) (hdr_next h) = nx ->
            read64 (mem s2) (hdr_next nx) = nx ->
            forall k : Z -> M unit,
              (prev <- hdr_get_prev (S f) h ;; k prev) s2 = OutOfFuel).
  { intros s2 R2 F2 N2 S2 k. apply bind_out_of_fuel.
    unfold hdr_get_prev. rewrite bind_get_first_arena. rewrite F2.
    rewrite !eqb_false by assumption.
    change (false || false) with false. cbv iota.
    rewrite get_prev_loop_step.
    rewrite bind_load by (rewrite R2; exact Mhn).
    rewrite N2. rewrite eqb_false by lia.
    apply get_prev_loop_trapped.
    - rewrite R2. exact Mnn.
    - exact S2.
    - lia. }
  destruct m1.
  - (* the successor is folded into the block *)
    pose proof (hdr_merge_ok s1 h nx Hh Hnx ltac:(lia) Mhn Mhs Mnn Mns Nx1)
      as Mg.
    cbv zeta in Mg.
    assert (Mg' : (nx' <- load64 (hdr_next h) ;; hdr_merge h nx') s1 = _)
      by (rewrite bind_load by exact Mhn; rewrite Nx1; exact Mg).
    rewrite (bind_ok _ _ _ _ _ Mg').
    apply K.
    + reflexivity.
    + reflexivity.
    + simpl mem. unfold hdr_next, hdr_size, hdr_asize in *.
      rewrite read_write_same by apply read64_range.
      rewrite !read_write_other by lia. exact Hself.
    + simpl mem. unfold hdr_next, hdr_size, hdr_asize in *.
      rewrite !read_write_other by lia. exact Hself.
  - rewrite bind_ret. apply K; [reflexivity | reflexivity | exact Nx1 | exact Self1].
Qed.

(** C9 (the code departs from the claim): on a fresh allocator two blocks
    of 16 bytes are allocated, the first is freed and 16 bytes are
    requested again.  The request is given the first block, at
    [arena1 + 40]; the split test has wrapped around, and the header of the
    second block, at [arena1 + 56], now links to itself.
    [mrealloc(arena1 + 40, 0)] then does not return null: it does not
    return at all, whatever the fuel, because [mfree] walks the ring in
    [hdr_get_prev] and never leaves that header. *)
Theorem mrealloc_zero_never_returns :
  block_reused (init_state [arena1]) = Ok (arena1 + 40) heap_block_reused /\
  read64 (mem heap_block_reused) (hdr_next (arena1 + 16)) = arena1 + 56 /\
  read64 (mem heap_block_reused) (hdr_next (arena1 + 56)) = arena1 + 56 /\
  forall fuel, mrealloc fuel (arena1 + 40) 0 heap_block_reused = OutOfFuel.
Proof.
  split; [unfold heap_block_reused; apply run_state_after; vm_compute; reflexivity|].
  split; [vm_compute; reflexivity|].
  split; [vm_compute; reflexivity|].
  intros fuel.
  rewrite mrealloc_zero_is_mfree by (vm_compute; discriminate).
  apply bind_out_of_fuel.
  apply mfree_loops_before_self_linked_block.
  - vm_compute. discriminate.
  - vm_compute. discriminate.
  - vm_compute. discriminate.
  - vm_compute. discriminate.
  - vm_compute. reflexivity.
  - vm_compute. reflexivity.
  - vm_compute. discriminate.
  - apply header_mapped_check. vm_compute. reflexivity.
  - apply header_mapped_check. vm_compute. reflexivity.
  - vm_compute. discriminate.
  - vm_compute. reflexivity.
Qed.

(** C10: [mrealloc(NULL, 0)] returns null and leaves the whole state as it
    was.  The null test comes first and decides alone: the result is the
    same for every size, zero or not, so nothing is freed. *)
Theorem mrealloc_null_zero (fuel : nat) (s : State) :
  mrealloc fuel NULL 0 s = Ok NULL s /\
  forall size, mrealloc fuel NULL size s = Ok NULL s.
Proof.
  assert (E : forall size, mrealloc fuel NULL size s = Ok NULL s).
  { intros size. unfold mrealloc. rewrite Z.eqb_refl. reflexivity. }
  split; [apply E | exact E].
Qed.

(** * Further properties of the code *)

(** ** [allign_page] *)

(** X1: Below the last page of the address range, [allign_page] returns the
    least multiple of the page unit that is strictly greater than its
    argument, at least one page; within one page of 2^64 the multiplication
    wraps and the result is 0. *)
Theorem allign_page_strictly_up_or_zero (n : Z) :
  (0 <= n -> n + PAGE_SIZE < WORD ->
   n < allign_page n <= n + PAGE_SIZE /\
   allign_page n mod PAGE_SIZE = 0 /\
   PAGE_SIZE <= allign_page n) /\
  (WORD - PAGE_SIZE <= n < WORD -> allign_page n = 0).
Proof.
  split.
  - intros H0 H1.
    destruct (allign_page_strictly_above n H0 H1) as [Hb Hm].
    split; [exact Hb|]. split; [exact Hm|].
    rewrite allign_page_formula by assumption.
    unfold PAGE_SIZE, WORD in *. Z.to_euclidean_division_equations. lia.
  - intros H. unfold allign_page.
    rewrite ltb_false by (unfold PAGE_SIZE, WORD in *; lia).
    assert (E : n / PAGE_SIZE = 140737488355327).
    { unfold PAGE_SIZE, WORD in *. Z.to_euclidean_division_equations. lia. }
    rewrite E. reflexivity.
Qed.

Lemma allign_page_strictly_up_or_zero_witness :
  (200000 < allign_page 200000 <= 200000 + PAGE_SIZE /\
   allign_page 200000 mod PAGE_SIZE = 0 /\
   PAGE_SIZE <= allign_page 200000) /\
  allign_page (WORD - 1) = 0.
Proof.
  split.
  - apply (allign_page_strictly_up_or_zero 200000); [lia | reflexivity].
  - apply (allign_page_strictly_up_or_zero (WORD - 1)).
    unfold WORD, PAGE_SIZE. lia.
Defined.

(** ** [hdr_ctor] *)

Lemma hdr_ctor_explicit (s : State) (hdr size : Z) :
  hdr <> NULL -> header_mapped s hdr ->
  hdr_ctor hdr size s = Ok tt (hdr_ctor_state s hdr size).
Proof.
  intros Hh (Mn & Ms & Ma). unfold hdr_ctor, hdr_ctor_state.
  rewrite eqb_false by exact Hh.
  destruct (size <=? 0).
  - unfold bind at 1. unfold fprintf_stderr.
    rewrite bind_store by exact Ms.
    rewrite bind_store by exact Ma.
    rewrite store64_ok by exact Mn. reflexivity.
  - rewrite bind_ret.
    rewrite bind_store by exact Ms.
    rewrite bind_store by exact Ma.
    rewrite store64_ok by exact Mn. reflexivity.
Qed.

(** X2: [hdr_ctor] does nothing on a null header.  On any other header it
    writes the three fields, next = NULL, size as given, occupied size 0,
    and no other byte; nothing is mapped.  A size of 0 is only reported on
    stderr: the header is initialised all the same. *)
Theorem hdr_ctor_initialises (s : State) (hdr size : Z) :
  hdr_ctor NULL size s = Ok tt s /\
  (hdr <> NULL -> header_mapped s hdr -> 0 <= size < WORD ->
   exists s',
     hdr_ctor hdr size s = Ok tt s' /\
     read64 (mem s') (hdr_next hdr) = NULL /\
     read64 (mem s') (hdr_size hdr) = size /\
     read64 (mem s') (hdr_asize hdr) = 0 /\
     (forall x, x < hdr \/ hdr + 24 <= x -> mem s' x = mem s x) /\
     same_maps s s' /\
     err s' = if size =? 0 then err s ++ ["Wrong size"%string] else err s).
Proof.
  split; [reflexivity|].
  intros Hh Hm Hs.
  exists (hdr_ctor_state s hdr size).
  split; [apply hdr_ctor_explicit; assumption|].
  unfold hdr_ctor_state. simpl mem. simpl err.
  split; [mem_reads; reflexivity|].
  split; [mem_reads; reflexivity|].
  split; [mem_reads; reflexivity|].
  split.
  { intros x Hx. unfold hdr_next, hdr_size, hdr_asize.
    rewrite !write64_byte_out by lia. reflexivity. }
  split; [repeat split|].
  destruct (size =? 0) eqn:E.
  - apply Z.eqb_eq in E. subst size. reflexivity.
  - apply Z.eqb_neq in E. rewrite leb_false by lia. reflexivity.
Qed.

Lemma hdr_ctor_initialises_witness :
  exists s',
    hdr_ctor (arena1 + 200) 0 heap_large_freed = Ok tt s' /\
    read64 (mem s') (hdr_next (arena1 + 200)) = NULL /\
    read64 (mem s') (hdr_size (arena1 + 200)) = 0 /\
    read64 (mem s') (hdr_asize (arena1 + 200)) = 0 /\
    (forall x, x < arena1 + 200 \/ arena1 + 200 + 24 <= x ->
               mem s' x = mem heap_large_freed x) /\
    same_maps heap_large_freed s' /\
    err s' = if 0 =? 0 then err heap_large_freed ++ ["Wrong size"%string]
             else err heap_large_freed.
Proof.
  apply (hdr_ctor_initialises heap_large_freed (arena1 + 200) 0).
  - vm_compute. discriminate.
  - apply header_mapped_check. vm_compute. reflexivity.
  - unfold WORD. lia.
Defined.

(** ** [hdr_merge] *)

Lemma wrap_add_wrap_r (a b : Z) : wrap (a + wrap b) = wrap (a + b).
Proof. unfold wrap. apply Zplus_mod_idemp_r. Qed.

Lemma hdr_merge_not_linked (s : State) (left right : Z) :
  mapped (regions s) (hdr_next left) 8 = true ->
  read64 (mem s) (hdr_next left) <> right ->
  hdr_merge left right s = Ok tt s.
Proof.
  intros Mn Hn. unfold hdr_merge.
  destruct ((left =? NULL) || (right =? NULL)); [reflexivity|].
  rewrite bind_load by exact Mn.
  rewrite (eqb_false _ _ Hn). reflexivity.
Qed.

(** X3: [hdr_merge] changes nothing when [left->next] is not [right].  When it
    is, and the two headers do not overlap, the left block grows by the
    right block's size plus one header (modulo 2^64) and takes over its
    next-link; its occupied size, the right header and every byte outside
    the first 16 bytes of the left header stay as they were. *)
Theorem hdr_merge_folds_right_into_left (s : State) (left right : Z) :
  (mapped (regions s) (hdr_next left) 8 = true ->
   read64 (mem s) (hdr_next left) <> right ->
   hdr_merge left right s = Ok tt s) /\
  (left <> NULL -> right <> NULL ->
   header_mapped s left -> header_mapped s right ->
   read64 (mem s) (hdr_next left) = right ->
   left + 24 <= right \/ right + 24 <= left ->
   exists s',
     hdr_merge left right s = Ok tt s' /\
     read64 (mem s') (hdr_size left)
     = wrap (read64 (mem s) (hdr_size left)
             + read64 (mem s) (hdr_size right) + sizeof_Header) /\
     read64 (mem s') (hdr_next left) = read64 (mem s) (hdr_next right) /\
     read64 (mem s') (hdr_asize left) = read64 (mem s) (hdr_asize left) /\
     read64 (mem s') (hdr_next right) = read64 (mem s) (hdr_next right) /\
     read64 (mem s') (hdr_size right) = read64 (mem s) (hdr_size right) /\
     read64 (mem s') (hdr_asize right) = read64 (mem s) (hdr_asize right) /\
     (forall x, x < left \/ left + 16 <= x -> mem s' x = mem s x) /\
     same_maps s s' /\ err s' = err s).
Proof.
  split; [apply hdr_merge_not_linked|].
  intros Hl Hr (Mln & Mls & Mla) (Mrn & Mrs & Mra) Hnx Hsep.
  assert (Hlr : left <> right) by lia.
  pose proof (hdr_merge_ok s left right Hl Hr Hlr Mln Mls Mrn Mrs Hnx) as E.
  cbv zeta in E. eexists. split; [exact E|].
  pose proof (read64_range (mem s) (hdr_next right)) as Rn.
  pose proof (wrap_range (read64 (mem s) (hdr_size left)
                          + wrap (read64 (mem s) (hdr_size right) + sizeof_Header)))
    as Rs.
  simpl mem. simpl err.
  assert (En : read64 (write64 (mem s) (hdr_size left)
                         (wrap (read64 (mem s) (hdr_size left)
                                + wrap (read64 (mem s) (hdr_size right)
                                        + sizeof_Header))))
                      (hdr_next right) = read64 (mem s) (hdr_next right)).
  { unfold hdr_next, hdr_size. apply read_write_other. lia. }
  rewrite En.
  split.
  { unfold hdr_next, hdr_size in *. rewrite read_write_other by lia.
    rewrite read_write_same by exact Rs.
    rewrite wrap_add_wrap_r. f_equal. lia. }
  split.
  { unfold hdr_next in *. rewrite read_write_same by exact Rn. reflexivity. }
  unfold hdr_next, hdr_size, hdr_asize in *.
  split; [rewrite !read_write_other by lia; reflexivity|].
  split; [rewrite !read_write_other by lia; reflexivity|].
  split; [rewrite !read_write_other by lia; reflexivity|].
  split; [rewrite !read_write_other by lia; reflexivity|].
  split.
  { intros x Hx. rewrite !write64_byte_out by lia. reflexivity. }
  split; [repeat split | reflexivity].
Qed.

(** ** [hdr_split] *)

Lemma hdr_split_explicit (s : State) (hdr req : Z) :
  hdr <> NULL ->
  header_mapped s hdr ->
  req <= read64 (mem s) (hdr_size hdr) ->
  wrap (hdr + sizeof_Header + req) <> NULL ->
  header_mapped s (wrap (hdr + sizeof_Header + req)) ->
  hdr_split hdr req s
  = Ok (wrap (hdr + sizeof_Header + req))
       (hdr_split_state s hdr req (wrap (hdr + sizeof_Header + req))).
Proof.
  intros Hh (Mn & Ms & Ma) Hreq Hnew Mnew. unfold hdr_split.
  rewrite eqb_false by exact Hh.
  rewrite bind_load by exact Ms.
  rewrite ltb_false by exact Hreq.
  set (new := wrap (hdr + sizeof_Header + req)) in *.
  rewrite (bind_ok _ _ _ _ _ (hdr_ctor_explicit s new _ Hnew Mnew)).
  rewrite bind_store by exact Ms.
  rewrite bind_load by exact Mn.
  rewrite bind_store by apply Mnew.
  rewrite bind_store by exact Mn.
  reflexivity.
Qed.

Lemma hdr_split_too_large (s : State) (hdr req : Z) :
  mapped (regions s) (hdr_size hdr) 8 = true ->
  read64 (mem s) (hdr_size hdr) < req ->
  hdr_split hdr req s = Ok NULL s.
Proof.
  intros Ms Hlt. unfold hdr_split.
  destruct (hdr =? NULL); [reflexivity|].
  rewrite bind_load by exact Ms.
  rewrite ltb_true by exact Hlt. reflexivity.
Qed.

(** X4: [hdr_split] refuses a request larger than the block: null, nothing
    written.  Otherwise the new header is placed [req] bytes past the old
    one's end and returned; the old block keeps [req] bytes and links to
    the new one, which is free, takes over the old next-link and gets the
    remaining size less one header (modulo 2^64: exactly the rest when the
    block is at least a header larger than the request).  The old occupied
    size and every byte outside the two headers stay as they were. *)
Theorem hdr_split_carves_new_header (s : State) (hdr req : Z) :
  (mapped (regions s) (hdr_size hdr) 8 = true ->
   read64 (mem s) (hdr_size hdr) < req ->
   hdr_split hdr req s = Ok NULL s) /\
  (0 < hdr -> 0 <= req <= read64 (mem s) (hdr_size hdr) ->
   hdr + sizeof_Header + req + sizeof_Header <= WORD ->
   header_mapped s hdr ->
   header_mapped s (hdr + sizeof_Header + req) ->
   exists s',
     hdr_split hdr req s = Ok (hdr + sizeof_Header + req) s' /\
     read64 (mem s') (hdr_size hdr) = req /\
     read64 (mem s') (hdr_next hdr) = hdr + sizeof_Header + req /\
     read64 (mem s') (hdr_asize hdr) = read64 (mem s) (hdr_asize hdr) /\
     read64 (mem s') (hdr_next (hdr + sizeof_Header + req))
     = read64 (mem s) (hdr_next hdr) /\
     read64 (mem s') (hdr_size (hdr + sizeof_Header + req))
     = wrap (read64 (mem s) (hdr_size hdr) - req - sizeof_Header) /\
     (req + sizeof_Header <= read64 (mem s) (hdr_size hdr) ->
      req + sizeof_Header + read64 (mem s') (hdr_size (hdr + sizeof_Header + req))
      = read64 (mem s) (hdr_size hdr)) /\
     read64 (mem s') (hdr_asize (hdr + sizeof_Header + req)) = 0 /\
     (forall x, x < hdr \/ hdr + 16 <= x ->
                x < hdr + sizeof_Header + req
                \/ hdr + sizeof_Header + req + sizeof_Header <= x ->
                mem s' x = mem s x) /\
     same_maps s s').
Proof.
  split; [apply hdr_split_too_large|].
  intros Hh Hreq Hw Mh Mnew.
  pose proof (read64_range (mem s) (hdr_size hdr)) as Rs.
  pose proof (read64_range (mem s) (hdr_next hdr)) as Rn.
  assert (W : wrap (hdr + sizeof_Header + req) = hdr + sizeof_Header + req).
  { apply wrap_small. unfold sizeof_Header, WORD in *. lia. }
  pose proof (hdr_split_explicit s hdr req) as E. rewrite W in E.
  specialize (E ltac:(unfold NULL; lia) Mh ltac:(lia)
                ltac:(unfold NULL, sizeof_Header; lia) Mnew).
  eexists. split; [exact E|].
  set (new := hdr + sizeof_Header + req) in *.
  pose proof (wrap_range (read64 (mem s) (hdr_size hdr) - req - sizeof_Header))
    as Rw.
  assert (Hsep : hdr + 24 <= new) by (unfold new, sizeof_Header; lia).
  assert (Hnw : 0 <= new < WORD) by (unfold new, sizeof_Header, WORD in *; lia).
  unfold hdr_split_state, hdr_ctor_state. simpl mem.
  unfold hdr_next, hdr_size, hdr_asize in *.
  repeat rewrite (read_write_other _ _ _ hdr) by lia.
  split.
  { rewrite read_write_other by lia. rewrite read_write_other by lia.
    rewrite read_write_same by (unfold WORD in *; lia). reflexivity. }
  split.
  { rewrite read_write_same by exact Hnw. reflexivity. }
  split.
  { rewrite !read_write_other by lia. reflexivity. }
  split.
  { rewrite read_write_other by lia.
    rewrite read_write_same by exact Rn. reflexivity. }
  assert (Esz : read64
                  (write64
                     (write64
                        (write64
                           (write64
                              (write64
                                 (write64 (mem s) (new + 8)
                                    (wrap (read64 (mem s) (hdr + 8) - req
                                           - sizeof_Header)))
                                 (new + 16) 0) new NULL) (hdr + 8) req) new
                        (read64 (mem s) hdr)) hdr new) (new + 8)
                = wrap (read64 (mem s) (hdr + 8) - req - sizeof_Header)).
  { rewrite !read_write_other by lia.
    rewrite read_write_same by exact Rw. reflexivity. }
  split; [exact Esz|].
  split.
  { intros Hbig. rewrite Esz. rewrite wrap_small; unfold sizeof_Header, WORD in *; lia. }
  split.
  { rewrite !read_write_other by lia.
    rewrite read_write_same by (unfold WORD; lia). reflexivity. }
  split.
  { intros x Hx1 Hx2. unfold sizeof_Header in *.
    rewrite !write64_byte_out by lia. reflexivity. }
  repeat split.
Qed.

Lemma hdr_merge_folds_right_into_left_witness :
  exists s',
    hdr_merge (arena1 + 16) (arena1 + 56) heap_first_freed = Ok tt s' /\
    read64 (mem s') (hdr_size (arena1 + 16))
    = wrap (read64 (mem heap_first_freed) (hdr_size (arena1 + 16))
            + read64 (mem heap_first_freed) (hdr_size (arena1 + 56))
            + sizeof_Header) /\
    read64 (mem s') (hdr_next (arena1 + 16))
    = read64 (mem heap_first_freed) (hdr_next (arena1 + 56)) /\
    read64 (mem s') (hdr_asize (arena1 + 16))
    = read64 (mem heap_first_freed) (hdr_asize (arena1 + 16)) /\
    read64 (mem s') (hdr_next (arena1 + 56))
    = read64 (mem heap_first_freed) (hdr_next (arena1 + 56)) /\
    read64 (mem s') (hdr_size (arena1 + 56))
    = read64 (mem heap_first_freed) (hdr_size (arena1 + 56)) /\
    read64 (mem s') (hdr_asize (arena1 + 56))
    = read64 (mem heap_first_freed) (hdr_asize (arena1 + 56)) /\
    (forall x, x < arena1 + 16 \/ arena1 + 16 + 16 <= x ->
               mem s' x = mem heap_first_freed x) /\
    same_maps heap_first_freed s' /\ err s' = err heap_first_freed.
Proof.
  apply (hdr_merge_folds_right_into_left heap_first_freed
           (arena1 + 16) (arena1 + 56)).
  - vm_compute. discriminate.
  - vm_compute. discriminate.
  - apply header_mapped_check. vm_compute. reflexivity.
  - apply header_mapped_check. vm_compute. reflexivity.
  - vm_compute. reflexivity.
  - left. vm_compute. discriminate.
Defined.

Lemma hdr_split_carves_new_header_witness :
  exists s',
    hdr_split (arena1 + 16) 100 heap_large_freed
    = Ok (arena1 + 16 + sizeof_Header + 100) s' /\
    read64 (mem s') (hdr_size (arena1 + 16)) = 100 /\
    read64 (mem s') (hdr_next (arena1 + 16)) = arena1 + 16 + sizeof_Header + 100 /\
    read64 (mem s') (hdr_asize (arena1 + 16))
    = read64 (mem heap_large_freed) (hdr_asize (arena1 + 16)) /\
    read64 (mem s') (hdr_next (arena1 + 16 + sizeof_Header + 100))
    = read64 (mem heap_large_freed) (hdr_next (arena1 + 16)) /\
    read64 (mem s') (hdr_size (arena1 + 16 + sizeof_Header + 100))
    = wrap (read64 (mem heap_large_freed) (hdr_size (arena1 + 16)) - 100
            - sizeof_Header) /\
    (100 + sizeof_Header <= read64 (mem heap_large_freed) (hdr_size (arena1 + 16)) ->
     100 + sizeof_Header
     + read64 (mem s') (hdr_size (arena1 + 16 + sizeof_Header + 100))
     = read64 (mem heap_large_freed) (hdr_size (arena1 + 16))) /\
    read64 (mem s') (hdr_asize (arena1 + 16 + sizeof_Header + 100)) = 0 /\
    (forall x, x < arena1 + 16 \/ arena1 + 16 + 16 <= x ->
               x < arena1 + 16 + sizeof_Header + 100
               \/ arena1 + 16 + sizeof_Header + 100 + sizeof_Header <= x ->
               mem s' x = mem heap_large_freed x) /\
    same_maps heap_large_freed s'.
Proof.
  apply (hdr_split_carves_new_header heap_large_freed (arena1 + 16) 100).
  - reflexivity.
  - vm_compute. split; discriminate.
  - vm_compute. discriminate.
  - apply header_mapped_check. vm_compute. reflexivity.
  - apply header_mapped_check. vm_compute. reflexivity.
Defined.

(** ** [hdr_split] followed by [hdr_merge] *)

Lemma wrap_add_wrap_l (a b : Z) : wrap (wrap a + b) = wrap (a + b).
Proof. unfold wrap. apply Zplus_mod_idemp_l. Qed.

(** X5: Merging a block with the header that [hdr_split] has just carved out of
    it gives the block its size and its next-link back, also when the
    remainder's size had wrapped around; the occupied size is untouched
    throughout. *)
Theorem hdr_merge_undoes_hdr_split (s : State) (hdr req : Z) :
  0 < hdr -> 0 <= req <= read64 (mem s) (hdr_size hdr) ->
  hdr + sizeof_Header + req + sizeof_Header <= WORD ->
  header_mapped s hdr ->
  header_mapped s (hdr + sizeof_Header + req) ->
  exists s',
    (new <- hdr_split hdr req ;; hdr_merge hdr new) s = Ok tt s' /\
    read64 (mem s') (hdr_size hdr) = read64 (mem s) (hdr_size hdr) /\
    read64 (mem s') (hdr_next hdr) = read64 (mem s) (hdr_next hdr) /\
    read64 (mem s') (hdr_asize hdr) = read64 (mem s) (hdr_asize hdr) /\
    same_maps s s'.
Proof.
  intros Hh Hreq Hw Mh Mnew.
  pose proof (read64_range (mem s) (hdr_size hdr)) as Rs.
  pose proof (read64_range (mem s) (hdr_next hdr)) as Rn.
  assert (W : wrap (hdr + sizeof_Header + req) = hdr + sizeof_Header + req).
  { apply wrap_small. unfold sizeof_Header, WORD in *. lia. }
  pose proof (hdr_split_explicit s hdr req) as E. rewrite W in E.
  specialize (E ltac:(unfold NULL; lia) Mh ltac:(lia)
                ltac:(unfold NULL, sizeof_Header; lia) Mnew).
  rewrite (bind_ok _ _ _ _ _ E).
  set (new := hdr + sizeof_Header + req) in *.
  set (s1 := hdr_split_state s hdr req new).
  pose proof (wrap_range (read64 (mem s) (hdr_size hdr) - req - sizeof_Header))
    as Rw.
  assert (Hsep : hdr + 24 <= new) by (unfold new, sizeof_Header; lia).
  assert (Hnw : 0 <= new < WORD) by (unfold new, sizeof_Header, WORD in *; lia).
  assert (Mh1 : header_mapped s1 hdr) by exact Mh.
  assert (Mnew1 : header_mapped s1 new) by exact Mnew.
  assert (N1 : read64 (mem s1) (hdr_next hdr) = new).
  { unfold s1, hdr_split_state, hdr_ctor_state. simpl mem.
    unfold hdr_next. rewrite read_write_same by exact Hnw. reflexivity. }
  assert (S1 : read64 (mem s1) (hdr_size hdr) = req).
  { unfold s1, hdr_split_state, hdr_ctor_state. simpl mem.
    unfold hdr_next, hdr_size, hdr_asize.
    rewrite read_write_other by lia. rewrite read_write_other by lia.
    rewrite read_write_same by (unfold WORD in *; lia). reflexivity. }
  assert (A1 : read64 (mem s1) (hdr_asize hdr) = read64 (mem s) (hdr_asize hdr)).
  { unfold s1, hdr_split_state, hdr_ctor_state. simpl mem.
    unfold hdr_next, hdr_size, hdr_asize.
    rewrite !read_write_other by lia. reflexivity. }
  assert (NS1 : read64 (mem s1) (hdr_size new)
                = wrap (read64 (mem s) (hdr_size hdr) - req - sizeof_Header)).
  { unfold s1, hdr_split_state, hdr_ctor_state. simpl mem.
    unfold hdr_next, hdr_size, hdr_asize.
    rewrite !read_write_other by lia.
    rewrite read_write_same by exact Rw. reflexivity. }
  assert (NN1 : read64 (mem s1) (hdr_next new) = read64 (mem s) (hdr_next hdr)).
  { unfold s1, hdr_split_state, hdr_ctor_state. simpl mem.
    unfold hdr_next, hdr_size, hdr_asize.
    rewrite read_write_other by lia.
    rewrite read_write_same; [|rewrite !read_write_other by lia; exact Rn].
    rewrite !read_write_other by lia. reflexivity. }
  assert (SM : same_maps s s1) by (repeat split).
  clearbody s1.
  pose proof (hdr_merge_ok s1 hdr new ltac:(unfold NULL; lia)
                ltac:(unfold NULL; lia) ltac:(lia)
                (proj1 Mh1) (proj1 (proj2 Mh1))
                (proj1 Mnew1) (proj1 (proj2 Mnew1)) N1) as Em.
  cbv zeta in Em. eexists. split; [exact Em|].
  simpl mem. rewrite S1, NS1.
  assert (Eback : wrap (req + wrap (wrap (read64 (mem s) (hdr_size hdr) - req
                                          - sizeof_Header) + sizeof_Header))
                  = read64 (mem s) (hdr_size hdr)).
  { rewrite wrap_add_wrap_l, wrap_add_wrap_r.
    replace (req + (read64 (mem s) (hdr_size hdr) - req - sizeof_Header
                    + sizeof_Header))
      with (read64 (mem s) (hdr_size hdr)) by lia.
    apply wrap_small. exact Rs. }
  rewrite Eback.
  assert (En : read64 (write64 (mem s1) (hdr_size hdr)
                         (read64 (mem s) (hdr_size hdr))) (hdr_next new)
               = read64 (mem s) (hdr_next hdr)).
  { unfold hdr_next, hdr_size in *. rewrite read_write_other by lia. exact NN1. }
  rewrite En.
  split.
  { unfold hdr_next, hdr_size. rewrite read_write_other by lia.
    rewrite read_write_same by exact Rs. reflexivity. }
  split.
  { unfold hdr_next. rewrite read_write_same by exact Rn. reflexivity. }
  split.
  { unfold hdr_next, hdr_size, hdr_asize in *.
    rewrite !read_write_other by lia. exact A1. }
  destruct SM as (E1 & E2 & E3). repeat split; assumption.
Qed.

Lemma hdr_merge_undoes_hdr_split_witness :
  exists s',
    (new <- hdr_split (arena1 + 16) 16 ;; hdr_merge (arena1 + 16) new)
      heap_first_freed = Ok tt s' /\
    read64 (mem s') (hdr_size (arena1 + 16))
    = read64 (mem heap_first_freed) (hdr_size (arena1 + 16)) /\
    read64 (mem s') (hdr_next (arena1 + 16))
    = read64 (mem heap_first_freed) (hdr_next (arena1 + 16)) /\
    read64 (mem s') (hdr_asize (arena1 + 16))
    = read64 (mem heap_first_freed) (hdr_asize (arena1 + 16)) /\
    same_maps heap_first_freed s'.
Proof.
  apply (hdr_merge_undoes_hdr_split heap_first_freed (arena1 + 16) 16).
  - reflexivity.
  - vm_compute. split; discriminate.
  - vm_compute. discriminate.
  - apply header_mapped_check. vm_compute. reflexivity.
  - apply header_mapped_check. vm_compute. reflexivity.
Defined.

(** ** [hdr_get_prev] *)

Lemma get_prev_loop_post (fuel : nat) (hdr : Z) :
  forall (temp : Z) (s s' : State) (p : Z),
    get_prev_loop fuel hdr temp s = Ok p s' ->
    mapped (regions s) (hdr_next p) 8 = true /\
    read64 (mem s) (hdr_next p) = hdr.
Proof.
  induction fuel as [|f IH]; intros temp s s' p H; simpl in H.
  - discriminate.
  - step H as nx s1 Ld. inv_load Ld. subst s1.
    destruct (nx =? hdr) eqn:E.
    + apply ret_inv in H. destruct H as [-> _].
      apply Z.eqb_eq in E. split; [assumption | congruence].
    + eapply IH. exact H.
Qed.

Lemma last_cons_default (t : list Z) :
  forall x d : Z, last (x :: t) d = last t x.
Proof.
  induction t as [|y t' IH]; intros x d; [reflexivity|].
  change (last (x :: y :: t') d) with (last (y :: t') d).
  rewrite (IH y d), (IH y x). reflexivity.
Qed.

Lemma get_prev_loop_ring (s : State) (hdr : Z) (rest : list Z) :
  forall (temp : Z) (fuel : nat),
    ring_from s hdr (temp :: rest) ->
    Forall (header_mapped s) (temp :: rest) ->
    (List.length (temp :: rest) <= fuel)%nat ->
    get_prev_loop fuel hdr temp s = Ok (last rest temp) s.
Proof.
  induction rest as [|h' t IH]; intros temp fuel Hring Hmap Hfuel.
  - destruct fuel as [|f]; [simpl in Hfuel; lia|].
    simpl in Hring. pose proof (Forall_inv Hmap) as Mh.
    rewrite get_prev_loop_step. rewrite bind_load by apply Mh.
    rewrite Hring, Z.eqb_refl. reflexivity.
  - destruct fuel as [|f]; [simpl in Hfuel; lia|].
    destruct Hring as (Hnx & Hne & Hring').
    pose proof (Forall_inv Hmap) as Mh.
    pose proof (Forall_inv_tail Hmap) as Hmap'.
    rewrite get_prev_loop_step. rewrite bind_load by apply Mh.
    rewrite Hnx. rewrite eqb_false by exact Hne.
    rewrite (IH h' f Hring' Hmap' ltac:(simpl in *; lia)).
    rewrite last_cons_default. reflexivity.
Qed.

(** X6: [hdr_get_prev] returns its argument when that is null or no arena
    exists yet.  Otherwise it only reads, and whatever it returns links to
    [hdr]; on a ring through [hdr] of at most [fuel] blocks it returns the
    last block of the walk, the one before [hdr] (for a ring of one block,
    [hdr] itself). *)
Theorem hdr_get_prev_finds_predecessor (fuel : nat) (s : State) (hdr : Z) :
  (first_arena s = NULL \/ hdr = NULL -> hdr_get_prev fuel hdr s = Ok hdr s) /\
  (first_arena s <> NULL -> hdr <> NULL ->
   (forall p s',
      hdr_get_prev fuel hdr s = Ok p s' ->
      s' = s /\ mapped (regions s) (hdr_next p) 8 = true /\
      read64 (mem s) (hdr_next p) = hdr) /\
   (forall rest,
      ring_from s hdr (hdr :: rest) ->
      Forall (header_mapped s) (hdr :: rest) ->
      (List.length (hdr :: rest) <= fuel)%nat ->
      hdr_get_prev fuel hdr s = Ok (last rest hdr) s)).
Proof.
  split.
  - intros H. unfold hdr_get_prev. rewrite bind_get_first_arena.
    destruct H as [H | H]; rewrite H.
    + reflexivity.
    + rewrite Z.eqb_refl, orb_true_r. reflexivity.
  - intros Hfa Hh.
    assert (E : hdr_get_prev fuel hdr s = get_prev_loop fuel hdr hdr s).
    { unfold hdr_get_prev. rewrite bind_get_first_arena.
      rewrite !eqb_false by assumption. reflexivity. }
    rewrite E. split.
    + intros p s' H. split.
      * eapply get_prev_loop_pure. exact H.
      * eapply get_prev_loop_post. exact H.
    + intros rest Hring Hmap Hfuel. apply get_prev_loop_ring; assumption.
Qed.

Lemma hdr_get_prev_finds_predecessor_witness :
  hdr_get_prev enough (arena1 + 56) (init_state []) = Ok (arena1 + 56) (init_state []) /\
  (forall p s',
     hdr_get_prev enough (arena1 + 56) heap_first_freed = Ok p s' ->
     s' = heap_first_freed /\
     mapped (regions heap_first_freed) (hdr_next p) 8 = true /\
     read64 (mem heap_first_freed) (hdr_next p) = arena1 + 56) /\
  hdr_get_prev enough (arena1 + 56) heap_first_freed
  = Ok (last [arena1 + 96; arena1 + 16] (arena1 + 56)) heap_first_freed.
Proof.
  split; [|split].
  - apply (hdr_get_prev_finds_predecessor enough (init_state [])).
    left. reflexivity.
  - apply (hdr_get_prev_finds_predecessor enough heap_first_freed (arena1 + 56)).
    + vm_compute. discriminate.
    + vm_compute. discriminate.
  - apply (hdr_get_prev_finds_predecessor enough heap_first_freed (arena1 + 56)).
    + vm_compute. discriminate.
    + vm_compute. discriminate.
    + vm_compute. repeat split; discriminate.
    + repeat constructor; apply header_mapped_check; vm_compute; reflexivity.
    + vm_compute. lia.
Defined.

(** ** [first_fit], whatever the ring looks like *)

Lemma block_fits_true (h size : Z) (s s' : State) :
  block_fits h size s = Ok true s' ->
  mapped (regions s) (hdr_asize h) 8 = true /\
  read64 (mem s) (hdr_asize h) = 0 /\
  size <= read64 (mem s) (hdr_size h).
Proof.
  unfold block_fits. intros H.
  step H as asz s1 Ld. inv_load Ld. subst s1.
  destruct (asz =? 0) eqn:E.
  - apply Z.eqb_eq in E. subst asz.
    step H as sz s1 Ld. inv_load Ld. subst s1.
    apply ret_inv in H. destruct H as [H _].
    split; [assumption|]. split; [congruence|].
    apply Z.leb_le. subst sz. symmetry. exact H.
  - apply ret_inv in H. destruct H as [H _]. discriminate.
Qed.

Lemma first_fit_loop_sound (fuel : nat) (size : Z) :
  forall (h : Z) (s s' : State) (r : Z),
    first_fit_loop fuel size h s = Ok r s' ->
    r = NULL \/
    (mapped (regions s) (hdr_asize r) 8 = true /\
     read64 (mem s) (hdr_asize r) = 0 /\
     size <= read64 (mem s) (hdr_size r)).
Proof.
  induction fuel as [|f IH]; intros h s s' r H; simpl in H.
  - discriminate.
  - step H as nx s1 Ld. inv_load Ld. subst s1.
    step H as fa s1 G. unfold get_first_arena in G. inversion G; subst fa s1.
    clear G.
    destruct (negb (nx =? wrap (first_arena s + sizeof_Arena))).
    + step H as b s1 Bf. pose proof (block_fits_pure _ _ _ _ _ Bf). subst s1.
      destruct b.
      * apply ret_inv in H. destruct H as [-> _]. right.
        eapply block_fits_true. exact Bf.
      * step H as nx' s1 Ld. inv_load Ld. subst s1. eapply IH. exact H.
    + step H as b s1 Bf. pose proof (block_fits_pure _ _ _ _ _ Bf). subst s1.
      destruct b.
      * apply ret_inv in H. destruct H as [-> _]. right.
        eapply block_fits_true. exact Bf.
      * apply ret_inv in H. destruct H as [-> _]. left. reflexivity.
Qed.

(** X7: Whatever the links in memory look like, [first_fit] changes nothing,
    and a non-null result is the header of a block that is free and has at
    least the requested size; the request was positive and an arena
    exists. *)
Theorem first_fit_returns_only_free_fitting_blocks
        (fuel : nat) (s s' : State) (size r : Z) :
  first_fit fuel size s = Ok r s' ->
  s' = s /\
  (r = NULL \/
   (0 < size /\ first_arena s <> NULL /\
    mapped (regions s) (hdr_asize r) 8 = true /\
    read64 (mem s) (hdr_asize r) = 0 /\
    size <= read64 (mem s) (hdr_size r))).
Proof.
  intros H. split; [eapply first_fit_pure; exact H|].
  unfold first_fit in H.
  destruct (size <=? 0) eqn:Es.
  { apply ret_inv in H. left. apply H. }
  apply Z.leb_gt in Es.
  step H as fa s1 G. unfold get_first_arena in G. inversion G; subst fa s1.
  destruct (first_arena s =? NULL) eqn:Ef.
  { apply ret_inv in H. left. apply H. }
  apply Z.eqb_neq in Ef.
  destruct (first_fit_loop_sound _ _ _ _ _ _ H) as [E | E].
  - left. exact E.
  - right. split; [exact Es|]. split; [exact Ef|]. exact E.
Qed.

Lemma first_fit_returns_only_free_fitting_blocks_witness :
  heap_large_freed = heap_large_freed /\
  (arena1 + 16 = NULL \/
   (0 < 60 /\ first_arena heap_large_freed <> NULL /\
    mapped (regions heap_large_freed) (hdr_asize (arena1 + 16)) 8 = true /\
    read64 (mem heap_large_freed) (hdr_asize (arena1 + 16)) = 0 /\
    60 <= read64 (mem heap_large_freed) (hdr_size (arena1 + 16)))).
Proof.
  apply (first_fit_returns_only_free_fitting_blocks
           enough heap_large_freed heap_large_freed 60 (arena1 + 16)).
  apply (result_pure (first_fit enough 60) heap_large_freed (arena1 + 16)).
  - intros b s' H. eapply first_fit_pure. exact H.
  - vm_compute. reflexivity.
Defined.

(** ** [hdr_can_merge] with a single arena *)

(** X8: While the first arena has no successor the arena scan passes, and
    [hdr_can_merge] is exactly the test of line 228: both blocks free,
    [left->next == right], [left != right] and [left < right]; it only
    reads. *)
Theorem hdr_can_merge_single_arena
        (fuel : nat) (s : State) (left right : Z) :
  left <> NULL -> right <> NULL ->
  mapped (regions s) (arena_next (first_arena s)) 8 = true ->
  read64 (mem s) (arena_next (first_arena s)) = NULL ->
  mapped (regions s) (hdr_asize left) 8 = true ->
  mapped (regions s) (hdr_asize right) 8 = true ->
  mapped (regions s) (hdr_next left) 8 = true ->
  hdr_can_merge (S fuel) left right s
  = Ok ((read64 (mem s) (hdr_asize left) =? 0)
        && (read64 (mem s) (hdr_asize right) =? 0)
        && (read64 (mem s) (hdr_next left) =? right)
        && negb (left =? right) && (left <? right)) s.
Proof.
  intros Hl Hr Ma Ha Mla Mra Mln. unfold hdr_can_merge.
  rewrite !eqb_false by assumption.
  change (false || false) with false. cbv iota.
  rewrite bind_get_first_arena.
  rewrite (bind_ok _ _ _ _ _ (can_merge_scan_single_arena fuel s right Ma Ha)).
  change (negb true) with false. cbv iota.
  rewrite bind_load by exact Mla.
  destruct (read64 (mem s) (hdr_asize left) =? 0); [|reflexivity].
  change (negb true) with false. cbv iota.
  rewrite bind_load by exact Mra.
  destruct (read64 (mem s) (hdr_asize right) =? 0); [|reflexivity].
  change (negb true) with false. cbv iota.
  rewrite bind_load by exact Mln.
  destruct (read64 (mem s) (hdr_next left) =? right); [|reflexivity].
  change (negb true) with false. cbv iota.
  destruct (left =? right); reflexivity.
Qed.

(** The state [mfree] tests in when the second block of [heap_first_freed]
    is freed: the first two blocks are then free, linked and in order. *)
Lemma hdr_can_merge_single_arena_witness :
  hdr_can_merge enough (arena1 + 16) (arena1 + 56)
    (with_mem heap_first_freed
       (write64 (mem heap_first_freed) (hdr_asize (arena1 + 56)) 0))
  = Ok true
       (with_mem heap_first_freed
          (write64 (mem heap_first_freed) (hdr_asize (arena1 + 56)) 0)).
Proof.
  etransitivity.
  - apply (hdr_can_merge_single_arena 15
             (with_mem heap_first_freed
                (write64 (mem heap_first_freed) (hdr_asize (arena1 + 56)) 0))
             (arena1 + 16) (arena1 + 56)).
    + vm_compute. discriminate.
    + vm_compute. discriminate.
    + vm_compute. reflexivity.
    + vm_compute. reflexivity.
    + vm_compute. reflexivity.
    + vm_compute. reflexivity.
    + vm_compute. reflexivity.
  - f_equal; try (vm_compute; reflexivity).
Defined.

(** ** [arena_alloc] when the kernel grants the mapping *)

(** X9: For a request above the two footprints and below the last page of the
    address range, with the kernel answering [B], [arena_alloc] returns [B]
    without a diagnostic: one region of [allign_page req] bytes, more than
    requested, is mapped there; the arena header holds next = NULL and that
    size, every other byte of the arena is zero, and no byte outside it has
    changed. *)
Theorem arena_alloc_granted (s : State) (req B : Z) (rest : list Z) :
  sizeof_Arena + sizeof_Header < req -> req + PAGE_SIZE < WORD ->
  os s = B :: rest -> B <> MAP_FAILED -> B <> NULL ->
  exists s',
    arena_alloc req s = Ok B s' /\
    regions s' = (B, allign_page req) :: regions s /\
    os s' = rest /\ err s' = err s /\ first_arena s' = first_arena s /\
    req < allign_page req /\
    read64 (mem s') (arena_next B) = NULL /\
    read64 (mem s') (arena_size B) = allign_page req /\
    (forall x, B + sizeof_Arena <= x < B + allign_page req -> mem s' x = 0) /\
    (forall x, x < B \/ B + allign_page req <= x -> mem s' x = mem s x).
Proof.
  intros Hreq Hmax Hos Hmf Hnull.
  destruct (allign_page_strictly_above req
              ltac:(unfold sizeof_Arena, sizeof_Header in *; lia) Hmax)
    as [Hb Hmod].
  assert (HA : 16 <= allign_page req)
    by (unfold sizeof_Arena, sizeof_Header in *; lia).
  pose proof (arena_alloc_ok s req B rest Hreq HA Hos Hmf Hnull) as E.
  cbv zeta in E. eexists. split; [exact E|].
  simpl regions. simpl os. simpl err. simpl first_arena. simpl mem.
  split; [reflexivity|]. split; [reflexivity|]. split; [reflexivity|].
  split; [reflexivity|]. split; [lia|].
  unfold arena_next, arena_size.
  split.
  { rewrite read_write_other by lia.
    rewrite read_write_same by (unfold NULL, WORD; lia). reflexivity. }
  split.
  { rewrite read_write_same; [reflexivity|].
    unfold PAGE_SIZE, WORD in *. lia. }
  split.
  { intros x Hx. unfold sizeof_Arena in Hx.
    rewrite !write64_byte_out by lia.
    unfold in_region. simpl fst. simpl snd.
    replace ((B <=? x) && (x <? B + allign_page req)) with true; [reflexivity|].
    symmetry. apply andb_true_iff. split; [apply Z.leb_le | apply Z.ltb_lt]; lia. }
  { intros x Hx.
    rewrite !write64_byte_out by lia.
    unfold in_region. simpl fst. simpl snd.
    replace ((B <=? x) && (x <? B + allign_page req)) with false; [reflexivity|].
    symmetry. apply andb_false_iff.
    destruct Hx; [left; apply Z.leb_gt | right; apply Z.ltb_ge]; lia. }
Qed.

Lemma arena_alloc_granted_witness :
  exists s',
    arena_alloc 1000 (init_state [arena1]) = Ok arena1 s' /\
    regions s' = (arena1, allign_page 1000) :: regions (init_state [arena1]) /\
    os s' = [] /\ err s' = err (init_state [arena1]) /\
    first_arena s' = first_arena (init_state [arena1]) /\
    1000 < allign_page 1000 /\
    read64 (mem s') (arena_next arena1) = NULL /\
    read64 (mem s') (arena_size arena1) = allign_page 1000 /\
    (forall x, arena1 + sizeof_Arena <= x < arena1 + allign_page 1000 ->
               mem s' x = 0) /\
    (forall x, x < arena1 \/ arena1 + allign_page 1000 <= x ->
               mem s' x = mem (init_state [arena1]) x).
Proof.
  apply (arena_alloc_granted (init_state [arena1]) 1000 arena1 []).
  - reflexivity.
  - reflexivity.
  - reflexivity.
  - vm_compute. discriminate.
  - vm_compute. discriminate.
Defined.

(** ** [arena_append] *)

Lemma last_in (t : list Z) : forall x : Z, In (last t x) (x :: t).
Proof.
  induction t as [|y t' IH]; intros x.
  - left. reflexivity.
  - rewrite (last_cons_default t' y x). right. apply IH.
Qed.

Lemma arena_chain_mapped (s : State) (l : list Z) :
  forall a y, arena_chain s a l -> In y l ->
              y <> NULL /\ mapped (regions s) (arena_next y) 8 = true.
Proof.
  induction l as [|x rest IH]; intros a y Hc Hin; [contradiction|].
  destruct Hc as (_ & Hx & Mx & Hrest).
  destruct Hin as [<- | Hin]; [split; assumption|].
  eapply IH; eassumption.
Qed.

Lemma arena_last_chain (s : State) (rest : list Z) :
  forall (a x : Z) (fuel : nat),
    arena_chain s a (x :: rest) ->
    (List.length (x :: rest) <= fuel)%nat ->
    arena_last fuel a s = Ok (last rest x) s.
Proof.
  induction rest as [|y t IH]; intros a x fuel Hc Hfuel;
    (destruct fuel as [|f]; [simpl in Hfuel; lia|]);
    destruct Hc as (-> & Hx & Mx & Hrest); simpl arena_last.
  - simpl in Hrest. rewrite bind_load by exact Mx. rewrite Hrest. reflexivity.
  - rewrite bind_load by exact Mx.
    pose proof Hrest as (Ey & Hy & _). rewrite Ey.
    rewrite eqb_false by exact Hy.
    rewrite (IH y y f); [|rewrite <- Ey at 1; exact Hrest | simpl in *; lia].
    rewrite last_cons_default. reflexivity.
Qed.

Lemma arena_chain_store (s : State) (a : Z) (l : list Z) :
  0 < a < WORD ->
  mapped (regions s) (arena_next a) 8 = true ->
  read64 (mem s) (arena_next a) = NULL ->
  forall x0 a0,
    arena_chain s a0 (x0 :: l) ->
    separated ((x0 :: l) ++ [a]) ->
    arena_chain
      (with_mem s (write64 (mem s) (arena_next (last l x0)) a))
      a0 ((x0 :: l) ++ [a]).
Proof.
  intros Ha Ma Hn.
  induction l as [|y t IH]; intros x0 a0 Hc Hsep.
  - destruct Hc as (-> & Hx & Mx & Hrest). simpl in Hsep.
    destruct Hsep as (Hs0 & _). apply Forall_inv in Hs0.
    simpl. unfold arena_next, sizeof_Arena in *.
    split; [reflexivity|]. split; [exact Hx|]. split; [exact Mx|].
    rewrite read_write_same by lia.
    split; [reflexivity|]. split; [unfold NULL; lia|]. split; [exact Ma|].
    rewrite read_write_other by lia. exact Hn.
  - destruct Hc as (-> & Hx & Mx & Hrest).
    pose proof Hsep as (Hs0 & Hsep').
    rewrite (last_cons_default t y x0).
    assert (Hl : x0 + sizeof_Arena <= last t y \/ last t y + sizeof_Arena <= x0).
    { rewrite Forall_forall in Hs0. apply Hs0.
      change ((y :: t) ++ [a]) with (y :: t ++ [a]).
      destruct (last_in t y) as [E | E].
      - left. exact E.
      - right. apply in_or_app. left. exact E. }
    change ((x0 :: y :: t) ++ [a]) with (x0 :: (y :: t) ++ [a]).
    cbn [arena_chain].
    split; [reflexivity|]. split; [exact Hx|]. split; [exact Mx|].
    assert (E : read64 (mem (with_mem s (write64 (mem s) (arena_next (last t y)) a)))
                  (arena_next x0) = read64 (mem s) (arena_next x0)).
    { simpl mem. unfold arena_next, sizeof_Arena in *.
      apply read_write_other. lia. }
    rewrite E.
    apply (IH y (read64 (mem s) (arena_next x0)) Hrest Hsep').
Qed.

(** X10: [arena_append] makes the new arena the head of an empty list, and
    otherwise stores it in the next-link of the last arena: the list
    [l] of arenas becomes [l ++ [a]].  Nothing is mapped, and the head
    changes only when the list was empty.  (The arena headers do not
    overlap, and [a]'s own next-link is null, as [arena_alloc] leaves
    it.) *)
Theorem arena_append_appends
        (fuel : nat) (s : State) (a : Z) (l : list Z) :
  arena_chain s (first_arena s) l ->
  separated (l ++ [a]) ->
  0 < a < WORD ->
  mapped (regions s) (arena_next a) 8 = true ->
  read64 (mem s) (arena_next a) = NULL ->
  (List.length l <= fuel)%nat ->
  exists s',
    arena_append fuel a s = Ok tt s' /\
    arena_chain s' (first_arena s') (l ++ [a]) /\
    first_arena s' = hd a l /\
    regions s' = regions s /\ os s' = os s /\ err s' = err s.
Proof.
  intros Hc Hsep Ha Ma Hn Hfuel. unfold arena_append.
  rewrite bind_get_first_arena.
  destruct l as [|x rest].
  - simpl in Hc. rewrite Hc. change (NULL =? NULL) with true. cbv iota.
    eexists. split; [reflexivity|]. simpl.
    split; [|repeat split].
    split; [reflexivity|]. split; [unfold NULL; lia|]. split; [exact Ma|].
    exact Hn.
  - pose proof Hc as (E & Hx & Mx & Hrest).
    rewrite E. rewrite eqb_false by exact Hx.
    rewrite (bind_ok _ _ _ _ _
               (arena_last_chain s rest x x fuel
                  ltac:(rewrite <- E at 1; exact Hc) Hfuel)).
    destruct (arena_chain_mapped s (x :: rest) _ (last rest x) Hc (last_in rest x))
      as [_ Ml].
    rewrite (store64_ok _ _ _ Ml).
    eexists. split; [reflexivity|]. simpl first_arena. simpl regions.
    split; [|repeat split; assumption].
    rewrite E.
    apply arena_chain_store; try assumption.
    rewrite <- E at 1. exact Hc.
Qed.

Lemma arena_append_appends_witness :
  exists s',
    arena_append enough arena2 heap_second_mapped = Ok tt s' /\
    arena_chain s' (first_arena s') ([arena1] ++ [arena2]) /\
    first_arena s' = hd arena2 [arena1] /\
    regions s' = regions heap_second_mapped /\
    os s' = os heap_second_mapped /\ err s' = err heap_second_mapped.
Proof.
  apply (arena_append_appends enough heap_second_mapped arena2 [arena1]).
  - vm_compute. repeat split; discriminate.
  - unfold separated. simpl app.
    split; [|split; [constructor | exact I]].
    constructor; [|constructor]. right. vm_compute. discriminate.
  - vm_compute. split; reflexivity.
  - vm_compute. reflexivity.
  - vm_compute. reflexivity.
  - vm_compute. lia.
Defined.

(** ** What [mfree] leaves alone *)

(** X11: [mfree] maps and unmaps nothing, prints nothing and keeps
    [first_arena]; and it writes only below the pointer it is given: the
    bytes of the freed block and everything above them are what they
    were.  (Both merges write into a header at or below the freed
    block's own.) *)
Theorem mfree_writes_only_below_pointer
        (fuel : nat) (p : Z) (s s' : State) :
  sizeof_Header <= p < WORD ->
  mfree fuel p s = Ok tt s' ->
  same_maps s s' /\ err s' = err s /\
  forall x, p <= x -> mem s' x = mem s x.
Proof.
  intros Hp H. unfold mfree in H.
  rewrite eqb_false in H by (unfold NULL, sizeof_Header in *; lia).
  change (negb false) with true in H. cbv iota in H.
  replace (wrap (p - sizeof_Header)) with (p - 24) in H
    by (symmetry; unfold sizeof_Header in *; apply wrap_small; lia).
  unfold sizeof_Header in Hp.
  step H as u0 s1 St. inv_store St.
  assert (F1 : same_maps s s1 /\ err s1 = err s /\
               forall x, p <= x -> mem s1 x = mem s x).
  { subst s1. simpl. repeat split. intros x Hx. unfold hdr_asize.
    apply write64_byte_out. lia. }
  clear St.
  step H as nx s1' Ld. inv_load Ld. subst s1'.
  step H as m1 s1' Cm. apply hdr_can_merge_pure in Cm. subst s1'.
  step H as u1 s2 Mg.
  assert (F2 : same_maps s s2 /\ err s2 = err s /\
               forall x, p <= x -> mem s2 x = mem s x).
  { destruct m1.
    - step Mg as nx' s1' Ld. inv_load Ld. subst s1'. destruct u1.
      apply hdr_merge_frame in Mg. destruct Mg as (R & A & O & E & Fr).
      destruct F1 as ((R1 & O1 & A1) & E1 & M1).
      repeat split; try congruence.
      intros x Hx. rewrite Fr by lia. apply M1. exact Hx.
    - apply ret_inv in Mg. destruct Mg as [_ Mg]. subst s2. exact F1. }
  clear F1 Mg.
  step H as prev s2' Gp. pose proof (hdr_get_prev_pure _ _ _ _ _ Gp). subst s2'.
  step H as m2 s2' Cm. pose proof (hdr_can_merge_pure _ _ _ _ _ _ Cm). subst s2'.
  destruct m2.
  - apply hdr_can_merge_true_order in Cm.
    step H as prev' s2' Gp'.
    rewrite Gp in Gp'. inversion Gp'. subst prev' s2'.
    apply hdr_merge_frame in H. destruct H as (R & A & O & E & Fr).
    destruct F2 as ((R2 & O2 & A2) & E2 & M2).
    repeat split; try congruence.
    intros x Hx. rewrite Fr by lia. apply M2. exact Hx.
  - apply ret_inv in H. destruct H as [_ H]. subst s'. exact F2.
Qed.

Lemma mfree_writes_only_below_pointer_witness :
  same_maps heap_two_blocks
            (state_after (mfree enough (arena1 + 80)) heap_two_blocks) /\
  err (state_after (mfree enough (arena1 + 80)) heap_two_blocks)
  = err heap_two_blocks /\
  forall x, arena1 + 80 <= x ->
            mem (state_after (mfree enough (arena1 + 80)) heap_two_blocks) x
            = mem heap_two_blocks x.
Proof.
  apply (mfree_writes_only_below_pointer enough (arena1 + 80)).
  - vm_compute. split; [discriminate | reflexivity].
  - apply run_state_after. vm_compute. reflexivity.
Defined.

(** ** What [mmalloc] maps, and what it records *)

Lemma same_regions_refl (s : State) : same_regions s s.
Proof. split; reflexivity. Qed.

Lemma same_regions_trans (s1 s2 s3 : State) :
  same_regions s1 s2 -> same_regions s2 s3 -> same_regions s1 s3.
Proof. intros (A1 & A2) (B1 & B2). split; congruence. Qed.

Lemma store64_same_regions (a v : Z) (u : unit) (s s' : State) :
  store64 a v s = Ok u s' -> same_regions s s' /\ first_arena s' = first_arena s.
Proof. intros H. inv_store H. subst s'. repeat split. Qed.

Lemma hdr_ctor_same_regions (hdr size : Z) (u : unit) (s s' : State) :
  hdr_ctor hdr size s = Ok u s' ->
  same_regions s s' /\ first_arena s' = first_arena s.
Proof.
  unfold hdr_ctor. intros H.
  destruct (hdr =? NULL).
  { apply ret_inv in H. destruct H as [_ ->]. repeat split. }
  step H as u0 s0 Pr.
  assert (P0 : same_regions s s0 /\ first_arena s0 = first_arena s).
  { destruct (size <=? 0).
    - unfold fprintf_stderr in Pr. inversion Pr. repeat split.
    - apply ret_inv in Pr. destruct Pr as [_ ->]. repeat split. }
  step H as u1 s1 S1. apply store64_same_regions in S1.
  step H as u2 s2 S2. apply store64_same_regions in S2.
  apply store64_same_regions in H.
  destruct P0 as [P0 Q0], S1 as [P1 Q1], S2 as [P2 Q2], H as [P3 Q3].
  split; [|congruence].
  eauto using same_regions_trans.
Qed.

Lemma hdr_split_same_regions (hdr req r : Z) (s s' : State) :
  hdr_split hdr req s = Ok r s' ->
  same_regions s s' /\ first_arena s' = first_arena s.
Proof.
  unfold hdr_split. intros H.
  destruct (hdr =? NULL).
  { apply ret_inv in H. destruct H as [_ ->]. repeat split. }
  step H as sz s0 Ld. inv_load Ld. subst s0.
  destruct (sz <? req).
  { apply ret_inv in H. destruct H as [_ ->]. repeat split. }
  step H as u0 s0 Ct. apply hdr_ctor_same_regions in Ct.
  step H as u1 s1 S1. apply store64_same_regions in S1.
  step H as nx s1' Ld. inv_load Ld. subst s1'.
  step H as u2 s2 S2. apply store64_same_regions in S2.
  step H as u3 s3 S3. apply store64_same_regions in S3.
  apply ret_inv in H. destruct H as [_ ->].
  destruct Ct as [P0 Q0], S1 as [P1 Q1], S2 as [P2 Q2], S3 as [P3 Q3].
  split; [|congruence].
  eauto using same_regions_trans.
Qed.

Lemma arena_append_same_regions (fuel : nat) (a : Z) (u : unit) (s s' : State) :
  arena_append fuel a s = Ok u s' -> same_regions s s'.
Proof.
  unfold arena_append. intros H.
  step H as fa s1 G. unfold get_first_arena in G. inversion G; subst fa s1.
  destruct (first_arena s =? NULL).
  - unfold set_first_arena in H. inversion H. split; reflexivity.
  - step H as last s1 L. apply arena_last_pure in L. subst s1.
    apply store64_same_regions in H. apply H.
Qed.

Lemma mmap_maps_one (len r : Z) (s s' : State) :
  mmap len s = Ok r s' -> mapped_at_most len s s'.
Proof.
  unfold mmap, mapped_at_most. intros H.
  destruct (len =? 0).
  { inversion H. split; left; reflexivity. }
  destruct (os s) as [|a rest] eqn:Eos.
  { inversion H. subst s'. split; left; [reflexivity | exact Eos]. }
  destruct (a =? MAP_FAILED); inversion H; subst; simpl.
  - split; [left; reflexivity | right; eexists; reflexivity].
  - split; right; eexists; reflexivity.
Qed.

Lemma mapped_at_most_then_same (len : Z) (s s1 s2 : State) :
  mapped_at_most len s s1 -> same_regions s1 s2 -> mapped_at_most len s s2.
Proof.
  intros (R & O) (R' & O'). unfold mapped_at_most. rewrite R'.
  split; [exact R|].
  destruct O as [O | (r & O)].
  - left. congruence.
  - right. exists r. rewrite O'. exact O.
Qed.

Lemma same_then_mapped_at_most (len : Z) (s s1 s2 : State) :
  same_regions s s1 -> mapped_at_most len s1 s2 -> mapped_at_most len s s2.
Proof.
  intros (R & O) (R' & O'). unfold mapped_at_most. rewrite <- R, <- O.
  split; assumption.
Qed.

Lemma arena_alloc_maps_one (req a : Z) (s s' : State) :
  arena_alloc req s = Ok a s' -> mapped_at_most (allign_page req) s s'.
Proof.
  unfold arena_alloc. intros H.
  step H as u0 s0 Pr.
  assert (P0 : same_regions s s0).
  { destruct (req <=? sizeof_Arena + sizeof_Header).
    - unfold fprintf_stderr in Pr. inversion Pr. split; reflexivity.
    - apply ret_inv in Pr. destruct Pr as [_ ->]. apply same_regions_refl. }
  step H as tmp s1 Mm. apply mmap_maps_one in Mm.
  apply (same_then_mapped_at_most _ _ _ _ P0).
  destruct (tmp =? NULL).
  { apply ret_inv in H. destruct H as [_ ->]. exact Mm. }
  step H as u1 s2 S1. apply store64_same_regions in S1.
  step H as u2 s3 S2. apply store64_same_regions in S2.
  apply ret_inv in H. destruct H as [_ ->].
  destruct S1 as [S1 _], S2 as [S2 _].
  eauto using mapped_at_most_then_same, same_regions_trans.
Qed.

(** The end of both branches of [mmalloc]: split when the test says so,
    record the request, return the address past the header. *)
Lemma mmalloc_tail_inv (h n p : Z) (s s' : State) :
  0 <= n < WORD ->
  (split <- hdr_should_split h n ;;
   (if split then hdr_split h n ;;; ret tt else ret tt) ;;;
   store64 (hdr_asize h) n ;;;
   ret (wrap (h + sizeof_Header))) s = Ok p s' ->
  p = wrap (h + sizeof_Header) /\
  same_regions s s' /\
  mapped (regions s') (hdr_asize h) 8 = true /\
  read64 (mem s') (hdr_asize h) = n.
Proof.
  intros Hn H.
  step H as sp s0 Sp. apply hdr_should_split_pure in Sp. subst s0.
  step H as u1 s1 Sl.
  assert (P1 : same_regions s s1).
  { destruct sp.
    - step Sl as r s0 Hs. apply hdr_split_same_regions in Hs.
      apply ret_inv in Sl. destruct Sl as [_ ->]. apply Hs.
    - apply ret_inv in Sl. destruct Sl as [_ ->]. apply same_regions_refl. }
  step H as u2 s2 St. inv_store St.
  apply ret_inv in H. destruct H as [-> ->].
  split; [reflexivity|]. subst s2. simpl.
  split; [exact P1|]. split; [exact Hm|].
  apply read_write_same. exact Hn.
Qed.

Lemma mmalloc_tail_regions (h n p : Z) (s s' : State) :
  (split <- hdr_should_split h n ;;
   (if split then hdr_split h n ;;; ret tt else ret tt) ;;;
   store64 (hdr_asize h) n ;;;
   ret (wrap (h + sizeof_Header))) s = Ok p s' ->
  same_regions s s'.
Proof.
  intros H.
  step H as sp s0 Sp. apply hdr_should_split_pure in Sp. subst s0.
  step H as u1 s1 Sl.
  assert (P1 : same_regions s s1).
  { destruct sp.
    - step Sl as r s0 Hs. apply hdr_split_same_regions in Hs.
      apply ret_inv in Sl. destruct Sl as [_ ->]. apply Hs.
    - apply ret_inv in Sl. destruct Sl as [_ ->]. apply same_regions_refl. }
  step H as u2 s2 St. apply store64_same_regions in St.
  apply ret_inv in H. destruct H as [_ ->].
  destruct St as [St _]. eauto using same_regions_trans.
Qed.

(** The else branch up to the common tail: the header of the new block and
    the state the tail starts in. *)
Lemma mmalloc_new_arena_inv (fuel : nat) (n a p : Z) (s s' : State) :
  mmalloc_new_arena fuel n a s = Ok p s' ->
  exists s1,
    same_regions s s1 /\
    (split <- hdr_should_split (wrap (a + sizeof_Arena)) n ;;
     (if split then hdr_split (wrap (a + sizeof_Arena)) n ;;; ret tt
      else ret tt) ;;;
     store64 (hdr_asize (wrap (a + sizeof_Arena))) n ;;;
     ret (wrap (wrap (a + sizeof_Arena) + sizeof_Header))) s1 = Ok p s'.
Proof.
  unfold mmalloc_new_arena. intros H.
  step H as u0 s0 Pr.
  assert (P0 : same_regions s s0).
  { destruct (a =? NULL).
    - unfold fprintf_stderr in Pr. inversion Pr. split; reflexivity.
    - apply ret_inv in Pr. destruct Pr as [_ ->]. apply same_regions_refl. }
  step H as u1 s1 Ap. apply arena_append_same_regions in Ap.
  step H as asz s1' Ld. inv_load Ld. subst s1'.
  step H as u2 s2 Ct. apply hdr_ctor_same_regions in Ct. destruct Ct as [Ct _].
  step H as fa s2' G. unfold get_first_arena in G. inversion G; subst fa s2'.
  step H as u3 s3 S3. apply store64_same_regions in S3. destruct S3 as [S3 _].
  step H as fa' s3' G'. unfold get_first_arena in G'. inversion G'; subst fa' s3'.
  step H as prev s3' Gp. apply hdr_get_prev_pure in Gp. subst s3'.
  step H as u4 s4 S4. apply store64_same_regions in S4. destruct S4 as [S4 _].
  exists s4. split; [|exact H].
  eauto using same_regions_trans.
Qed.

(** X12: Whatever the heap looks like, a call of [mmalloc] that returns has
    unmapped nothing and has mapped at most one region, of
    [allign_page(size + sizeof(Arena) + sizeof(Header))] bytes; it has used
    up at most one answer of the kernel. *)
Theorem mmalloc_maps_at_most_one_arena
        (fuel : nat) (n p : Z) (s s' : State) :
  mmalloc fuel n s = Ok p s' ->
  mapped_at_most (allign_page (wrap (n + sizeof_Arena + sizeof_Header))) s s'.
Proof.
  unfold mmalloc. intros H.
  destruct (n <=? 0).
  { apply ret_inv in H. destruct H as [_ ->]. split; left; reflexivity. }
  step H as fh s0 Ff. apply first_fit_pure in Ff. subst s0.
  destruct (negb (fh =? NULL)).
  - apply mmalloc_tail_regions in H. destruct H as [R O].
    split; left; assumption.
  - step H as a s1 Al. apply arena_alloc_maps_one in Al.
    apply mmalloc_new_arena_inv in H. destruct H as (s2 & P2 & H).
    apply mmalloc_tail_regions in H.
    eauto using mapped_at_most_then_same, same_regions_trans.
Qed.

(** X13: A call [mmalloc(n)] with [n > 0] that returns gives the address just
    past a header whose occupied size is [n]. *)
Theorem mmalloc_records_request
        (fuel : nat) (n p : Z) (s s' : State) :
  0 < n < WORD ->
  mmalloc fuel n s = Ok p s' ->
  exists h,
    p = wrap (h + sizeof_Header) /\
    mapped (regions s') (hdr_asize h) 8 = true /\
    read64 (mem s') (hdr_asize h) = n.
Proof.
  intros Hn H. unfold mmalloc in H.
  rewrite leb_false in H by lia.
  step H as fh s0 Ff. apply first_fit_pure in Ff. subst s0.
  destruct (negb (fh =? NULL)).
  - apply mmalloc_tail_inv in H; [|lia].
    destruct H as (E & _ & Mp & Rd). exists fh. repeat split; assumption.
  - step H as a s1 Al.
    apply mmalloc_new_arena_inv in H. destruct H as (s2 & P2 & H).
    apply mmalloc_tail_inv in H; [|lia].
    destruct H as (E & _ & Mp & Rd).
    exists (wrap (a + sizeof_Arena)). repeat split; assumption.
Qed.

Lemma mmalloc_maps_at_most_one_arena_witness :
  mapped_at_most (allign_page (wrap (200000 + sizeof_Arena + sizeof_Header)))
                 (init_state [arena1])
                 (state_after (mmalloc enough 200000) (init_state [arena1])).
Proof.
  apply (mmalloc_maps_at_most_one_arena enough 200000 (arena1 + 40)).
  apply run_state_after. vm_compute. reflexivity.
Defined.

Lemma mmalloc_records_request_witness :
  exists h,
    arena1 + 120 = wrap (h + sizeof_Header) /\
    mapped (regions (state_after (mmalloc enough 16) heap_two_blocks))
           (hdr_asize h) 8 = true /\
    read64 (mem (state_after (mmalloc enough 16) heap_two_blocks))
           (hdr_asize h) = 16.
Proof.
  apply (mmalloc_records_request enough 16 (arena1 + 120) heap_two_blocks).
  - vm_compute. split; reflexivity.
  - apply run_state_after. vm_compute. reflexivity.
Defined.

(** ** [mrealloc] to a size the block already has *)

Lemma hdr_ctor_frame (hdr size : Z) (u : unit) (s s' : State) :
  hdr_ctor hdr size s = Ok u s' ->
  forall x, x < hdr \/ hdr + sizeof_Header <= x -> mem s' x = mem s x.
Proof.
  unfold hdr_ctor. intros H x Hx.
  destruct (hdr =? NULL).
  { apply ret_inv in H. destruct H as [_ ->]. reflexivity. }
  step H as u0 s0 Pr.
  assert (P0 : mem s0 = mem s).
  { destruct (size <=? 0).
    - unfold fprintf_stderr in Pr. inversion Pr. reflexivity.
    - apply ret_inv in Pr. destruct Pr as [_ ->]. reflexivity. }
  step H as u1 s1 S1. inv_store S1.
  step H as u2 s2 S2. inv_store S2.
  inv_store H. subst s' s2 s1. simpl. rewrite P0.
  unfold hdr_next, hdr_size, hdr_asize, sizeof_Header in *.
  rewrite !write64_byte_out by lia. reflexivity.
Qed.

Lemma hdr_split_frame (hdr req r : Z) (s s' : State) :
  hdr_split hdr req s = Ok r s' ->
  forall x,
    (x < hdr \/ hdr + 16 <= x) ->
    (x < wrap (hdr + sizeof_Header + req) \/
     wrap (hdr + sizeof_Header + req) + sizeof_Header <= x) ->
    mem s' x = mem s x.
Proof.
  unfold hdr_split. intros H x Hx Hnew.
  destruct (hdr =? NULL).
  { apply ret_inv in H. destruct H as [_ ->]. reflexivity. }
  step H as sz s0 Ld. inv_load Ld. subst s0.
  destruct (sz <? req).
  { apply ret_inv in H. destruct H as [_ ->]. reflexivity. }
  set (new := wrap (hdr + sizeof_Header + req)) in *.
  step H as u0 s0 Ct. pose proof (hdr_ctor_frame _ _ _ _ _ Ct x Hnew) as F0.
  step H as u1 s1 S1. inv_store S1.
  step H as nx s1' Ld. inv_load Ld. subst s1'.
  step H as u2 s2 S2. inv_store S2.
  step H as u3 s3 S3. inv_store S3.
  apply ret_inv in H. destruct H as [_ ->]. subst s3 s2 s1. simpl.
  rewrite <- F0.
  unfold hdr_next, hdr_size, sizeof_Header in *.
  rewrite !write64_byte_out by lia. reflexivity.
Qed.

Lemma mapped_byte_in_first_region (rs : list (Z * Z)) (B A x : Z) :
  B <= x < B + A -> mapped_byte ((B, A) :: rs) x = true.
Proof.
  intros H. unfold mapped_byte. simpl existsb. apply orb_true_iff. left.
  unfold in_region. simpl fst. simpl snd.
  apply andb_true_iff. split; [apply Z.leb_le | apply Z.ltb_lt]; lia.
Qed.

Lemma mapped_of_bytes (rs : list (Z * Z)) (a : Z) (k : nat) :
  (forall x, a <= x < a + Z.of_nat k -> mapped_byte rs x = true) ->
  mapped rs a k = true.
Proof.
  intros H. unfold mapped. apply forallb_forall. intros i Hi.
  apply in_seq in Hi. apply H. lia.
Qed.

(** A header all of whose bytes lie in a mapped range. *)
Lemma header_mapped_of_bytes (s : State) (lo hi h : Z) :
  (forall x, lo <= x < hi -> mapped_byte (regions s) x = true) ->
  lo <= h -> h + sizeof_Header <= hi ->
  header_mapped s h.
Proof.
  intros H Hlo Hhi. unfold sizeof_Header in Hhi.
  unfold header_mapped, hdr_next, hdr_size, hdr_asize.
  repeat split; apply mapped_of_bytes; intros x Hx; apply H; lia.
Qed.

(** What a shrinking or size-keeping [mrealloc] that returned has done. *)
Lemma mrealloc_within_block_inv
      (fuel : nat) (p size r : Z) (s s' : State) :
  sizeof_Header <= p ->
  p + size < WORD ->
  0 < size <= read64 (mem s) (hdr_size (p - sizeof_Header)) ->
  mrealloc fuel p size s = Ok r s' ->
  r = p /\
  same_regions s s' /\ first_arena s' = first_arena s /\
  (forall x, p <= x < p + size -> mem s' x = mem s x) /\
  (size < read64 (mem s) (hdr_size (p - sizeof_Header)) ->
   read64 (mem s') (hdr_asize (p - sizeof_Header)) = size).
Proof.
  intros Hp Hps Hsz H. unfold mrealloc in H.
  unfold sizeof_Header in Hp.
  rewrite eqb_false in H by (unfold NULL; lia).
  rewrite eqb_false in H by lia.
  replace (wrap (p - sizeof_Header)) with (p - sizeof_Header) in H
    by (symmetry; unfold sizeof_Header; apply wrap_small; lia).
  set (h := p - sizeof_Header) in *.
  step H as usz s0 Ld. inv_load Ld. subst s0 usz.
  destruct (size <? read64 (mem s) (hdr_size h)) eqn:Elt.
  - step H as u1 s1 S1. inv_store S1.
    step H as sp s1' Sp. apply hdr_should_split_pure in Sp. subst s1'.
    step H as u2 s2 Sl.
    assert (F2 : (same_regions s s2 /\ first_arena s2 = first_arena s) /\
                 forall x, p <= x < p + size -> mem s2 x = mem s x).
    { assert (F1 : forall x, p <= x < p + size -> mem s1 x = mem s x).
      { intros x Hx. subst s1. simpl. unfold hdr_asize, h, sizeof_Header.
        apply write64_byte_out. lia. }
      assert (R1 : same_regions s s1 /\ first_arena s1 = first_arena s)
        by (subst s1; repeat split).
      destruct sp.
      - step Sl as nh s1' Hs. apply ret_inv in Sl. destruct Sl as [_ ->].
        pose proof (hdr_split_same_regions _ _ _ _ _ Hs) as [R2 A2].
        destruct R1 as [R1 A1].
        split; [split; [eauto using same_regions_trans | congruence]|].
        intros x Hx. rewrite <- (F1 x Hx).
        apply (hdr_split_frame _ _ _ _ _ Hs).
        + unfold h, sizeof_Header. lia.
        + replace (wrap (h + sizeof_Header + size)) with (p + size)
            by (symmetry; unfold h, sizeof_Header;
                replace (p - 24 + 24 + size) with (p + size) by lia;
                apply wrap_small; lia).
          lia.
      - apply ret_inv in Sl. destruct Sl as [_ ->]. split; assumption. }
    step H as u3 s3 S3. inv_store S3.
    apply ret_inv in H. destruct H as [-> ->].
    destruct F2 as ((R2 & A2) & F2).
    split; [reflexivity|]. subst s3. simpl.
    split; [exact R2|]. split; [exact A2|]. split.
    + intros x Hx. rewrite <- (F2 x Hx). unfold hdr_asize, h, sizeof_Header.
      apply write64_byte_out. lia.
    + intros _. apply read_write_same. unfold WORD in *. lia.
  - apply Z.ltb_ge in Elt.
    assert (E : size = read64 (mem s) (hdr_size h)) by lia.
    rewrite <- E in H. rewrite Z.eqb_refl in H.
    apply ret_inv in H. destruct H as [-> ->].
    split; [reflexivity|]. split; [apply same_regions_refl|].
    split; [reflexivity|]. split; [reflexivity|]. intros C. lia.
Qed.


(** X14: A request for the usable size of the block, or for at least a header
    less, is served where the block is.  On a block whose header and bytes
    are mapped [mrealloc] returns the pointer it was given, maps nothing and
    leaves the first [size] bytes of the block as they were.  A request for
    the usable size changes nothing at all.  A smaller one is recorded as
    the occupied size; when more than a header is left over, the block is
    cut down to [size] and the rest becomes a free block right behind it,
    linked between the block and its old successor; when exactly a header
    is left over, the block keeps its size and its link. *)
Theorem mrealloc_within_block_keeps_pointer
        (fuel : nat) (s : State) (p size usz : Z) :
  sizeof_Header < p ->
  header_mapped s (p - sizeof_Header) ->
  read64 (mem s) (hdr_size (p - sizeof_Header)) = usz ->
  0 < size ->
  size = usz \/ size + sizeof_Header <= usz ->
  p + usz < WORD ->
  (forall x, p <= x < p + usz -> mapped_byte (regions s) x = true) ->
  exists s',
    mrealloc fuel p size s = Ok p s' /\
    same_regions s s' /\ first_arena s' = first_arena s /\
    (forall x, p <= x < p + size -> mem s' x = mem s x) /\
    (size = usz -> s' = s) /\
    (size < usz -> read64 (mem s') (hdr_asize (p - sizeof_Header)) = size) /\
    (size + sizeof_Header = usz ->
     read64 (mem s') (hdr_size (p - sizeof_Header)) = usz /\
     read64 (mem s') (hdr_next (p - sizeof_Header))
     = read64 (mem s) (hdr_next (p - sizeof_Header))) /\
    (size + sizeof_Header < usz ->
     read64 (mem s') (hdr_size (p - sizeof_Header)) = size /\
     read64 (mem s') (hdr_next (p - sizeof_Header)) = p + size /\
     read64 (mem s') (hdr_next (p + size))
     = read64 (mem s) (hdr_next (p - sizeof_Header)) /\
     read64 (mem s') (hdr_size (p + size)) = usz - size - sizeof_Header /\
     read64 (mem s') (hdr_asize (p + size)) = 0).
Proof.
  intros Hp Mh Hsz Hsize Hcase Hw Hbytes.
  assert (Ret : exists s',
             mrealloc fuel p size s = Ok p s' /\
             (size = usz -> s' = s) /\
             (size + sizeof_Header = usz ->
              read64 (mem s') (hdr_size (p - sizeof_Header)) = usz /\
              read64 (mem s') (hdr_next (p - sizeof_Header))
              = read64 (mem s) (hdr_next (p - sizeof_Header))) /\
             (size + sizeof_Header < usz ->
              read64 (mem s') (hdr_size (p - sizeof_Header)) = size /\
              read64 (mem s') (hdr_next (p - sizeof_Header)) = p + size /\
              read64 (mem s') (hdr_next (p + size))
              = read64 (mem s) (hdr_next (p - sizeof_Header)) /\
              read64 (mem s') (hdr_size (p + size)) = usz - size - sizeof_Header /\
              read64 (mem s') (hdr_asize (p + size)) = 0)).
  { destruct Mh as (Mhn & Mhs & Mha).
    pose proof (read64_range (mem s) (hdr_next (p - sizeof_Header))) as Rn.
    unfold mrealloc.
    rewrite eqb_false by (unfold NULL, sizeof_Header in *; lia).
    rewrite eqb_false by lia.
    cbv zeta.
    replace (wrap (p - sizeof_Header)) with (p - sizeof_Header)
      by (symmetry; apply wrap_small; unfold sizeof_Header, WORD in *; lia).
    unfold sizeof_Header in *.
    rewrite bind_load by exact Mhs. rewrite Hsz.
    destruct Hcase as [E | Hroom].
    - (* the size the block has *)
      rewrite ltb_false by lia. subst size. rewrite Z.eqb_refl.
      exists s. split; [reflexivity|]. split; [reflexivity|].
      split; intros C; lia.
    - rewrite ltb_true by lia.
      rewrite bind_store by exact Mha.
      set (s1 := with_mem s (write64 (mem s) (hdr_asize (p - 24)) 0)).
      assert (Sz1 : read64 (mem s1) (hdr_size (p - 24)) = usz).
      { unfold s1. mem_reads. exact Hsz. }
      assert (As1 : read64 (mem s1) (hdr_asize (p - 24)) = 0).
      { unfold s1. mem_reads. reflexivity. }
      assert (Nx1 : read64 (mem s1) (hdr_next (p - 24))
                    = read64 (mem s) (hdr_next (p - 24))).
      { unfold s1. mem_reads. reflexivity. }
      rewrite (bind_ok _ _ _ _ _
                 (hdr_should_split_spec s1 (p - 24) size
                    ltac:(unfold NULL; lia) Mha Mhs)).
      rewrite As1, Sz1. unfold sizeof_Header.
      change (0 =? 0) with true. rewrite (eqb_false size 0) by lia.
      change (true && negb false) with true.
      replace (wrap (usz - 24 - size)) with (usz - 24 - size)
        by (symmetry; apply wrap_small; unfold WORD in *; lia).
      destruct (Z.eq_dec (size + 24) usz) as [E | Hne].
      + (* exactly a header is left over: no split *)
        replace (usz - 24 - size) with 0 by lia.
        change (true && negb (0 =? 0)) with false. cbv iota.
        rewrite bind_ret.
        rewrite bind_store by exact Mha.
        eexists. split; [reflexivity|].
        split; [intros C; lia|]. split; [|intros C; lia].
        intros _. simpl mem. rewrite <- Sz1, <- Nx1.
        unfold hdr_next, hdr_size, hdr_asize.
        split; apply read_write_other; lia.
      + (* more than a header is left over: the block is cut *)
        rewrite (eqb_false (usz - 24 - size) 0) by lia.
        change (true && negb false) with true. cbv iota.
        assert (Wn : wrap (p - 24 + sizeof_Header + size) = p + size).
        { unfold sizeof_Header.
          replace (p - 24 + 24 + size) with (p + size) by lia.
          apply wrap_small. unfold WORD in *. lia. }
        assert (Mnew : header_mapped s1 (p + size)).
        { apply (header_mapped_of_bytes s1 p (p + usz)).
          - exact Hbytes.
          - lia.
          - unfold sizeof_Header. lia. }
        assert (Sp : hdr_split (p - 24) size s1
                     = Ok (p + size)
                          (hdr_split_state s1 (p - 24) size (p + size))).
        { rewrite <- Wn. apply hdr_split_explicit.
          - unfold NULL. lia.
          - repeat split; assumption.
          - rewrite Sz1. lia.
          - rewrite Wn. unfold NULL. lia.
          - rewrite Wn. exact Mnew. }
        rewrite (bind_ok _ _ _ _ _ (bind_ok _ (fun _ => ret tt) _ _ _ Sp)).
        rewrite bind_store by exact Mha.
        eexists. split; [reflexivity|].
        split; [intros C; lia|]. split; [intros C; lia|].
        intros _.
        unfold hdr_split_state, hdr_ctor_state. rewrite Sz1. simpl mem.
        replace (wrap (usz - size - sizeof_Header)) with (usz - size - 24)
          by (symmetry; unfold sizeof_Header; apply wrap_small;
              unfold WORD in *; lia).
        unfold hdr_next, hdr_size, hdr_asize in *.
        repeat rewrite (read_write_other _ _ _ (p - 24)) by lia.
        split.
        { rewrite ?read_write_other by lia.
          apply read_write_same. unfold WORD in *. lia. }
        split.
        { rewrite ?read_write_other by lia.
          apply read_write_same. unfold WORD in *. lia. }
        split.
        { rewrite ?read_write_other by lia.
          apply read_write_same. exact Rn. }
        split.
        { rewrite ?read_write_other by lia.
          apply read_write_same. unfold WORD in *. lia. }
        rewrite ?read_write_other by lia.
        apply read_write_same. unfold WORD. lia. }
  destruct Ret as (s' & Run & Heq & Hexact & Hcut).
  destruct (mrealloc_within_block_inv fuel p size p s s')
    as (_ & R & A & F & As); try assumption.
  - lia.
  - unfold sizeof_Header in *. lia.
  - rewrite Hsz. unfold sizeof_Header in *. lia.
  - exists s'. rewrite Hsz in As.
    split; [exact Run|]. split; [exact R|]. split; [exact A|].
    split; [exact F|]. split; [exact Heq|]. split; [exact As|].
    split; [exact Hexact | exact Hcut].
Qed.

(** A block of 1000 bytes shrunk to 100: the rest becomes a free block of
    876 bytes at [arena1 + 140]. *)
Lemma mrealloc_within_block_keeps_pointer_witness :
  exists s',
    mrealloc enough (arena1 + 40) 100 heap_one_block = Ok (arena1 + 40) s' /\
    same_regions heap_one_block s' /\
    first_arena s' = first_arena heap_one_block /\
    (forall x, arena1 + 40 <= x < arena1 + 40 + 100 ->
       mem s' x = mem heap_one_block x) /\
    (100 = 1000 -> s' = heap_one_block) /\
    (100 < 1000 ->
     read64 (mem s') (hdr_asize (arena1 + 40 - sizeof_Header)) = 100) /\
    (100 + sizeof_Header = 1000 ->
     read64 (mem s') (hdr_size (arena1 + 40 - sizeof_Header)) = 1000 /\
     read64 (mem s') (hdr_next (arena1 + 40 - sizeof_Header))
     = read64 (mem heap_one_block) (hdr_next (arena1 + 40 - sizeof_Header))) /\
    (100 + sizeof_Header < 1000 ->
     read64 (mem s') (hdr_size (arena1 + 40 - sizeof_Header)) = 100 /\
     read64 (mem s') (hdr_next (arena1 + 40 - sizeof_Header)) = arena1 + 40 + 100 /\
     read64 (mem s') (hdr_next (arena1 + 40 + 100))
     = read64 (mem heap_one_block) (hdr_next (arena1 + 40 - sizeof_Header)) /\
     read64 (mem s') (hdr_size (arena1 + 40 + 100)) = 1000 - 100 - sizeof_Header /\
     read64 (mem s') (hdr_asize (arena1 + 40 + 100)) = 0).
Proof.
  apply (mrealloc_within_block_keeps_pointer
           enough heap_one_block (arena1 + 40) 100 1000).
  - vm_compute. reflexivity.
  - apply header_mapped_check. vm_compute. reflexivity.
  - vm_compute. reflexivity.
  - lia.
  - right. vm_compute. discriminate.
  - vm_compute. reflexivity.
  - intros x Hx.
    replace (regions heap_one_block) with [(arena1, 131072)]
      by (vm_compute; reflexivity).
    apply mapped_byte_in_first_region. unfold arena1 in *. lia.
Defined.

(** ** [mrealloc] growing a block into its free successor *)

Lemma hdr_can_merge_free_pair (fuel : nat) (s : State) (left right : Z) :
  left <> NULL -> right <> NULL ->
  mapped (regions s) (arena_next (first_arena s)) 8 = true ->
  read64 (mem s) (arena_next (first_arena s)) = NULL ->
  mapped (regions s) (hdr_asize left) 8 = true ->
  mapped (regions s) (hdr_asize right) 8 = true ->
  mapped (regions s) (hdr_next left) 8 = true ->
  read64 (mem s) (hdr_asize left) = 0 ->
  read64 (mem s) (hdr_asize right) = 0 ->
  read64 (mem s) (hdr_next left) = right ->
  left < right ->
  hdr_can_merge (S fuel) left right s = Ok true s.
Proof.
  intros Hl Hr Ma Ha Mla Mra Mln Al Ar Nl Hlt. unfold hdr_can_merge.
  rewrite !eqb_false by assumption.
  change (false || false) with false. cbv iota.
  rewrite bind_get_first_arena.
  rewrite (bind_ok _ _ _ _ _ (can_merge_scan_single_arena fuel s right Ma Ha)).
  change (negb true) with false. cbv iota.
  rewrite bind_load by exact Mla. rewrite Al.
  change (negb (0 =? 0)) with false. cbv iota.
  rewrite bind_load by exact Mra. rewrite Ar.
  change (negb (0 =? 0)) with false. cbv iota.
  rewrite bind_load by exact Mln. rewrite Nl.
  rewrite Z.eqb_refl. change (negb true) with false. cbv iota.
  rewrite eqb_false by lia. rewrite ltb_true by exact Hlt. reflexivity.
Qed.

(** X15: With a single arena, a block whose ring successor lies right behind
    it and is free grows in place: for a request [m] above the block's
    size [usz] that leaves room for the header of a remainder
    ([m <= usz + nsz], with [nsz] the successor's size), [mrealloc]
    returns the pointer it was given, records [m] as the occupied size of
    a block of at least [m] bytes, keeps the [usz] bytes the block had,
    and maps nothing. *)
Theorem mrealloc_grows_into_free_successor
        (fuel : nat) (s : State) (p m usz nsz : Z) :
  sizeof_Header < p ->
  mapped (regions s) (arena_next (first_arena s)) 8 = true ->
  read64 (mem s) (arena_next (first_arena s)) = NULL ->
  first_arena s + sizeof_Arena <= p - sizeof_Header ->
  header_mapped s (p - sizeof_Header) ->
  header_mapped s (p + usz) ->
  read64 (mem s) (hdr_size (p - sizeof_Header)) = usz ->
  read64 (mem s) (hdr_next (p - sizeof_Header)) = p + usz ->
  read64 (mem s) (hdr_size (p + usz)) = nsz ->
  read64 (mem s) (hdr_asize (p + usz)) = 0 ->
  p + usz + sizeof_Header + nsz <= WORD ->
  usz < m <= usz + nsz ->
  (m < usz + nsz -> header_mapped s (p + m)) ->
  exists s',
    mrealloc (S fuel) p m s = Ok p s' /\
    read64 (mem s') (hdr_asize (p - sizeof_Header)) = m /\
    m <= read64 (mem s') (hdr_size (p - sizeof_Header)) /\
    (forall x, p <= x < p + usz -> mem s' x = mem s x) /\
    same_maps s s' /\ err s' = err s.
Proof.
  intros Hp Ma Han Hfa (Mhn & Mhs & Mha) (Mnn & Mns & Mna)
         Hsz Hnxt Hnsz Hnasz Hend Hm Mnew.
  pose proof (read64_range (mem s) (hdr_size (p - sizeof_Header))) as Ru.
  rewrite Hsz in Ru.
  pose proof (read64_range (mem s) (hdr_size (p + usz))) as Rn.
  rewrite Hnsz in Rn.
  pose proof (read64_range (mem s) (hdr_next (p + usz))) as Rnn.
  unfold mrealloc.
  rewrite eqb_false by (unfold NULL, sizeof_Header in *; lia).
  rewrite eqb_false by lia.
  cbv zeta.
  replace (wrap (p - sizeof_Header)) with (p - sizeof_Header)
    by (symmetry; apply wrap_small; unfold sizeof_Header, WORD in *; lia).
  unfold sizeof_Header, sizeof_Arena in *.
  rewrite bind_load by exact Mhs. rewrite Hsz.
  rewrite ltb_false by lia. rewrite eqb_false by lia.
  rewrite bind_load by exact Mhs. rewrite Hsz.
  rewrite leb_false by lia.
  rewrite bind_load by exact Mha.
  rewrite bind_store by exact Mha.
  set (s1 := with_mem s (write64 (mem s) (hdr_asize (p - 24)) 0)).
  assert (An1 : read64 (mem s1) (arena_next (first_arena s1)) = NULL).
  { unfold s1. simpl first_arena. mem_reads. exact Han. }
  assert (Nx1 : read64 (mem s1) (hdr_next (p - 24)) = p + usz).
  { unfold s1. mem_reads. exact Hnxt. }
  assert (Sz1 : read64 (mem s1) (hdr_size (p - 24)) = usz).
  { unfold s1. mem_reads. exact Hsz. }
  assert (As1 : read64 (mem s1) (hdr_asize (p - 24)) = 0).
  { unfold s1. mem_reads. reflexivity. }
  assert (Nas1 : read64 (mem s1) (hdr_asize (p + usz)) = 0).
  { unfold s1. mem_reads. exact Hnasz. }
  assert (Nsz1 : read64 (mem s1) (hdr_size (p + usz)) = nsz).
  { unfold s1. mem_reads. exact Hnsz. }
  assert (Cm : hdr_can_merge (S fuel) (p - 24) (p + usz) s1 = Ok true s1).
  { apply hdr_can_merge_free_pair; try assumption.
    - unfold NULL. lia.
    - unfold NULL. lia.
    - lia. }
  rewrite bind_load by exact Mhn. rewrite Nx1.
  rewrite bind_load by exact Mna. rewrite Nas1.
  change (0 =? 0) with true. cbv iota.
  unfold bind at 1.
  rewrite bind_load by exact Mhn. rewrite Nx1.
  rewrite bind_load by exact Mns. rewrite Nsz1.
  rewrite bind_load by exact Mhs. rewrite Sz1.
  replace (wrap (m - usz) <=? wrap (nsz + 24)) with true.
  2:{ symmetry. apply Z.leb_le.
      rewrite !wrap_small by (unfold WORD in *; lia). lia. }
  rewrite bind_load by exact Mhn. rewrite Nx1.
  rewrite Cm. cbv iota beta.
  (* the merge *)
  rewrite bind_load by exact Mhn. rewrite Nx1.
  rewrite (bind_ok _ _ _ _ _
             (hdr_merge_ok s1 (p - 24) (p + usz)
                ltac:(unfold NULL; lia) ltac:(unfold NULL; lia) ltac:(lia)
                Mhn Mhs Mnn Mns Nx1)).
  rewrite Sz1, Nsz1. unfold sizeof_Header.
  replace (wrap (usz + wrap (nsz + 24))) with (usz + nsz + 24).
  2:{ rewrite (wrap_small (nsz + 24)) by (unfold WORD in *; lia).
      rewrite wrap_small by (unfold WORD in *; lia). lia. }
  match goal with
  | |- context [bind _ _ ?st] => set (s2 := st)
  end.
  assert (Sz2 : read64 (mem s2) (hdr_size (p - 24)) = usz + nsz + 24).
  { unfold s2, s1. mem_reads. reflexivity. }
  assert (As2 : read64 (mem s2) (hdr_asize (p - 24)) = 0).
  { unfold s2, s1. mem_reads. reflexivity. }
  assert (F2 : forall x, p <= x < p + usz -> mem s2 x = mem s x).
  { intros x Hx. unfold s2, s1. simpl mem.
    unfold hdr_next, hdr_size, hdr_asize.
    rewrite !write64_byte_out by lia. reflexivity. }
  assert (E2 : err s2 = err s) by reflexivity.
  assert (M2 : same_maps s s2) by (repeat split).
  assert (Mhn2 : mapped (regions s2) (hdr_next (p - 24)) 8 = true) by exact Mhn.
  assert (Mhs2 : mapped (regions s2) (hdr_size (p - 24)) 8 = true) by exact Mhs.
  assert (Mha2 : mapped (regions s2) (hdr_asize (p - 24)) 8 = true) by exact Mha.
  assert (Mnew2 : m < usz + nsz -> header_mapped s2 (p + m)) by exact Mnew.
  clearbody s2. clear Cm An1 Nx1 Sz1 As1 Nas1 Nsz1. clear s1.
  rewrite (bind_ok _ _ _ _ _
             (hdr_should_split_spec s2 (p - 24) m
                ltac:(unfold NULL; lia) Mha2 Mhs2)).
  rewrite As2, Sz2. unfold sizeof_Header.
  change (0 =? 0) with true. rewrite (eqb_false m 0) by lia.
  change (true && negb false) with true.
  replace (wrap (usz + nsz + 24 - 24 - m)) with (usz + nsz - m)
    by (symmetry;
        replace (usz + nsz + 24 - 24 - m) with (usz + nsz - m) by lia;
        apply wrap_small; unfold WORD in *; lia).
  destruct (Z.eq_dec m (usz + nsz)) as [Efull | Hroom].
  - (* the merged block is taken whole *)
    replace (usz + nsz - m =? 0) with true by (symmetry; apply Z.eqb_eq; lia).
    change (true && negb true) with false. cbv iota.
    rewrite bind_ret.
    rewrite bind_store by exact Mha2.
    eexists. split; [reflexivity|].
    split; [mem_reads; reflexivity|].
    split.
    { replace (read64 _ (hdr_size (p - 24))) with (usz + nsz + 24).
      - lia.
      - rewrite <- Sz2. mem_reads. reflexivity. }
    split.
    { intros x Hx. simpl mem. unfold hdr_asize.
      rewrite write64_byte_out by lia. apply F2. exact Hx. }
    split; [exact M2 | exact E2].
  - (* the rest is split off again *)
    rewrite eqb_false by lia.
    change (true && negb false) with true. cbv iota.
    assert (Wn : wrap (p - 24 + sizeof_Header + m) = p + m).
    { unfold sizeof_Header. replace (p - 24 + 24 + m) with (p + m) by lia.
      apply wrap_small. unfold WORD in *. lia. }
    assert (Sp : hdr_split (p - 24) m s2
                 = Ok (p + m) (hdr_split_state s2 (p - 24) m (p + m))).
    { rewrite <- Wn. apply hdr_split_explicit.
      - unfold NULL. lia.
      - repeat split; assumption.
      - rewrite Sz2. lia.
      - rewrite Wn. unfold NULL. lia.
      - rewrite Wn. apply Mnew2. lia. }
    unfold bind at 1. unfold bind at 1. rewrite Sp. cbv iota beta.
    unfold ret at 1. cbv iota beta.
    rewrite bind_store by exact Mha2.
    eexists. split; [reflexivity|].
    split.
    { mem_reads. reflexivity. }
    split.
    { replace (read64 _ (hdr_size (p - 24))) with m; [lia|].
      unfold hdr_split_state, hdr_ctor_state, sizeof_Header. mem_reads.
      reflexivity. }
    split.
    { intros x Hx. rewrite <- (F2 x Hx).
      unfold hdr_split_state, hdr_ctor_state. simpl mem.
      unfold hdr_next, hdr_size, hdr_asize, sizeof_Header.
      rewrite !write64_byte_out by lia. reflexivity. }
    split; [exact M2|].
    unfold hdr_split_state, hdr_ctor_state. simpl err.
    rewrite leb_false; [exact E2|].
    rewrite Sz2. unfold sizeof_Header.
    replace (usz + nsz + 24 - m - 24) with (usz + nsz - m) by lia.
    rewrite wrap_small by (unfold WORD in *; lia). lia.
Qed.

Lemma mrealloc_grows_into_free_successor_witness :
  exists s',
    mrealloc (S 15) (arena1 + 40) 2000 heap_one_block = Ok (arena1 + 40) s' /\
    read64 (mem s') (hdr_asize (arena1 + 40 - sizeof_Header)) = 2000 /\
    2000 <= read64 (mem s') (hdr_size (arena1 + 40 - sizeof_Header)) /\
    (forall x, arena1 + 40 <= x < arena1 + 40 + 1000 ->
               mem s' x = mem heap_one_block x) /\
    same_maps heap_one_block s' /\ err s' = err heap_one_block.
Proof.
  apply (mrealloc_grows_into_free_successor
           15 heap_one_block (arena1 + 40) 2000 1000 130008).
  - vm_compute. reflexivity.
  - vm_compute. reflexivity.
  - vm_compute. reflexivity.
  - vm_compute. discriminate.
  - apply header_mapped_check; vm_compute; reflexivity.
  - apply header_mapped_check; vm_compute; reflexivity.
  - vm_compute. reflexivity.
  - vm_compute. reflexivity.
  - vm_compute. reflexivity.
  - vm_compute. reflexivity.
  - vm_compute. discriminate.
  - vm_compute. split; [reflexivity | discriminate].
  - intros _. apply header_mapped_check; vm_compute; reflexivity.
Defined.
(** ** A first request that ends less than a header before the arena's end *)

Lemma mapped_missing_byte (rs : list (Z * Z)) (a x : Z) :
  a <= x < a + 8 -> mapped_byte rs x = false -> mapped rs a 8 = false.
Proof.
  intros Hx H. apply not_true_is_false. intros C. unfold mapped in C.
  rewrite forallb_forall in C.
  specialize (C (Z.to_nat (x - a)) ltac:(apply in_seq; lia)).
  replace (a + Z.of_nat (Z.to_nat (x - a))) with x in C by lia.
  congruence.
Qed.

Lemma mapped_byte_behind (rs : list (Z * Z)) (B A x : Z) :
  B + A <= x -> mapped_byte ((B, A) :: rs) x = mapped_byte rs x.
Proof.
  intros H. unfold mapped_byte. simpl existsb.
  replace (in_region x (B, A)) with false; [reflexivity|].
  symmetry. unfold in_region. simpl fst. simpl snd.
  apply andb_false_iff. right. apply Z.ltb_ge. exact H.
Qed.

(** [hdr_ctor] writes the three fields without looking where they lie:
    when one of them is not in mapped memory, the call faults. *)
Lemma hdr_ctor_unmapped_faults (s : State) (hdr size : Z) :
  hdr <> NULL ->
  mapped (regions s) (hdr_size hdr) 8 = false \/
  mapped (regions s) (hdr_asize hdr) 8 = false \/
  mapped (regions s) (hdr_next hdr) 8 = false ->
  hdr_ctor hdr size s = Fault.
Proof.
  intros Hh Hun. unfold hdr_ctor.
  rewrite eqb_false by exact Hh.
  assert (K : forall s0, regions s0 = regions s ->
            (store64 (hdr_size hdr) size ;;;
             store64 (hdr_asize hdr) 0 ;;;
             store64 (hdr_next hdr) NULL) s0 = Fault).
  { intros s0 R0.
    destruct (mapped (regions s0) (hdr_size hdr) 8) eqn:E1;
      [|apply bind_fault; apply store64_fault; exact E1].
    rewrite bind_store by exact E1.
    destruct (mapped (regions s0) (hdr_asize hdr) 8) eqn:E2;
      [|apply bind_fault; apply store64_fault; exact E2].
    rewrite bind_store by exact E2.
    apply store64_fault. simpl regions.
    rewrite R0 in *. destruct Hun as [C | [C | C]]; congruence. }
  destruct (size <=? 0).
  - unfold bind at 1. unfold fprintf_stderr. apply K. reflexivity.
  - rewrite bind_ret. apply K. reflexivity.
Qed.

Lemma hdr_split_unmapped_faults (s : State) (hdr req : Z) :
  hdr <> NULL ->
  mapped (regions s) (hdr_size hdr) 8 = true ->
  req <= read64 (mem s) (hdr_size hdr) ->
  wrap (hdr + sizeof_Header + req) <> NULL ->
  (exists x,
     wrap (hdr + sizeof_Header + req) <= x
     < wrap (hdr + sizeof_Header + req) + sizeof_Header /\
     mapped_byte (regions s) x = false) ->
  hdr_split hdr req s = Fault.
Proof.
  intros Hh Ms Hreq Hnew (x & Hx & Hun). unfold hdr_split.
  rewrite eqb_false by exact Hh.
  rewrite bind_load by exact Ms.
  rewrite ltb_false by exact Hreq.
  apply bind_fault. apply hdr_ctor_unmapped_faults; [exact Hnew|].
  set (new := wrap (hdr + sizeof_Header + req)) in *.
  unfold sizeof_Header, hdr_size, hdr_asize, hdr_next in *.
  destruct (Z_lt_le_dec x (new + 8)) as [H1 | H1].
  - right. right. apply (mapped_missing_byte _ _ x); [lia | exact Hun].
  - destruct (Z_lt_le_dec x (new + 16)) as [H2 | H2].
    + left. apply (mapped_missing_byte _ _ x); [lia | exact Hun].
    + right. left. apply (mapped_missing_byte _ _ x); [lia | exact Hun].
Qed.

(** The first call of an allocator without arena up to the split test: the
    arena is mapped at [B] and holds one free block; nothing outside the
    arena has changed. *)
Lemma mmalloc_first_until_split
      (fuel : nat) (s : State) (B L : Z) (rest : list Z) :
  first_arena s = NULL -> os s = B :: rest ->
  0 < B -> B + allign_page (L + 40) < WORD ->
  0 < L -> L + 40 < allign_page (L + 40) ->
  exists s4,
    mmalloc (S fuel) L s
    = (split <- hdr_should_split (B + 16) L ;;
       (if split then hdr_split (B + 16) L ;;; ret tt else ret tt) ;;;
       store64 (hdr_asize (B + 16)) L ;;;
       ret (wrap (B + 16 + 24))) s4 /\
    regions s4 = (B, allign_page (L + 40)) :: regions s /\
    read64 (mem s4) (hdr_asize (B + 16)) = 0 /\
    read64 (mem s4) (hdr_size (B + 16)) = allign_page (L + 40) - 40 /\
    read64 (mem s4) (hdr_next (B + 16)) = B + 16 /\
    (forall x, x < B \/ B + allign_page (L + 40) <= x -> mem s4 x = mem s x).
Proof.
  intros Hfa Hos HB HBA HL HLA.
  unfold mmalloc.
  rewrite leb_false by exact HL.
  rewrite (bind_ok _ _ _ _ _ (first_fit_no_arena (S fuel) s L Hfa)).
  change (negb (NULL =? NULL)) with false. cbv iota.
  replace (wrap (L + sizeof_Arena + sizeof_Header)) with (L + 40)
    by (symmetry; unfold sizeof_Arena, sizeof_Header;
        replace (L + 16 + 24) with (L + 40) by lia;
        apply wrap_small; unfold WORD in *; lia).
  rewrite (bind_ok _ _ _ _ _
             (arena_alloc_ok s (L + 40) B rest
                ltac:(unfold sizeof_Arena, sizeof_Header; lia) ltac:(lia)
                Hos
                ltac:(unfold MAP_FAILED, WORD in *; lia)
                ltac:(unfold NULL; lia))).
  set (A := allign_page (L + 40)) in *.
  set (s0 := with_mem _ _).
  assert (F0 : first_arena s0 = NULL) by exact Hfa.
  unfold mmalloc_new_arena.
  rewrite (eqb_false B NULL) by (unfold NULL; lia).
  rewrite bind_ret.
  rewrite (bind_ok _ _ _ _ _ (arena_append_first (S fuel) s0 B F0)).
  unfold sizeof_Arena, sizeof_Header.
  set (s1 := mkState _ _ _ _ _).
  replace (wrap (B + 16)) with (B + 16)
    by (symmetry; apply wrap_small; unfold WORD in *; lia).
  assert (R1 : regions s1 = (B, A) :: regions s) by reflexivity.
  rewrite bind_load by in_arena.
  replace (read64 (mem s1) (arena_size B)) with A
    by (unfold s1, s0; mem_reads; reflexivity).
  replace (wrap (A - 16 - 24)) with (A - 40)
    by (symmetry; replace (A - 16 - 24) with (A - 40) by lia;
        apply wrap_small; unfold WORD in *; lia).
  rewrite (bind_ok _ _ _ _ _
             (hdr_ctor_ok s1 (B + 16) (A - 40)
                ltac:(unfold NULL; lia) ltac:(lia)
                ltac:(repeat split; in_arena))).
  set (s2 := with_mem s1 _).
  assert (R2 : regions s2 = (B, A) :: regions s) by reflexivity.
  rewrite bind_get_first_arena. simpl first_arena.
  replace (wrap (B + 16)) with (B + 16)
    by (symmetry; apply wrap_small; unfold WORD in *; lia).
  rewrite bind_store by in_arena.
  set (s3 := with_mem s2 _).
  assert (R3 : regions s3 = (B, A) :: regions s) by reflexivity.
  rewrite bind_get_first_arena. simpl first_arena.
  replace (wrap (B + 16)) with (B + 16)
    by (symmetry; apply wrap_small; unfold WORD in *; lia).
  rewrite (bind_ok _ _ _ _ _
             (hdr_get_prev_self fuel s3 (B + 16)
                ltac:(simpl; unfold NULL; lia) ltac:(unfold NULL; lia)
                ltac:(in_arena)
                ltac:(unfold s3, s2; mem_reads; reflexivity))).
  rewrite bind_store by in_arena.
  set (s4 := with_mem s3 _).
  exists s4. split; [reflexivity|]. split; [reflexivity|].
  split; [unfold s4, s3, s2; mem_reads; reflexivity|].
  split; [unfold s4, s3, s2; mem_reads; reflexivity|].
  split; [unfold s4, s3, s2; mem_reads; reflexivity|].
  intros x Hx. unfold s4, s3, s2, s1, s0. simpl mem.
  unfold hdr_next, hdr_size, hdr_asize, arena_next, arena_size.
  rewrite !write64_byte_out by lia.
  replace (in_region x (B, A)) with false; [reflexivity|].
  symmetry. unfold in_region. simpl fst. simpl snd.
  destruct Hx as [Hx | Hx].
  - apply andb_false_iff. left. apply Z.leb_gt. exact Hx.
  - apply andb_false_iff. right. apply Z.ltb_ge. exact Hx.
Qed.

(** X16: An allocator without arena, in a process that may have other memory
    mapped, is asked for [L] bytes that end fewer than 24 bytes before the
    end of the arena mapped for them.  The split test wraps around and says
    yes, and [hdr_split] writes the header of a remainder across the end of
    the arena.  When a byte of that header behind the arena is not mapped,
    the call faults.  When they all are, the call returns the block at
    [B + 40] as usual, having written over the bytes behind the arena: the
    planted header claims a free block of almost 2^64 bytes and is linked
    into the ring. *)
Theorem mmalloc_short_tail_overruns_arena
        (fuel : nat) (s : State) (B L : Z) (rest : list Z) :
  first_arena s = NULL -> os s = B :: rest ->
  0 < B -> B + allign_page (L + 40) + sizeof_Header < WORD ->
  0 < L ->
  L + 40 < allign_page (L + 40) < L + 64 ->
  B + allign_page (L + 40) < B + 40 + L + sizeof_Header /\
  ((exists x, B + allign_page (L + 40) <= x < B + 40 + L + sizeof_Header /\
              mapped_byte (regions s) x = false) ->
   mmalloc (S fuel) L s = Fault) /\
  ((forall x, B + allign_page (L + 40) <= x < B + 40 + L + sizeof_Header ->
              mapped_byte (regions s) x = true) ->
   exists s',
     mmalloc (S fuel) L s = Ok (B + 40) s' /\
     regions s' = (B, allign_page (L + 40)) :: regions s /\
     read64 (mem s') (hdr_size (B + 16)) = L /\
     read64 (mem s') (hdr_asize (B + 16)) = L /\
     read64 (mem s') (hdr_next (B + 16)) = B + 40 + L /\
     read64 (mem s') (hdr_next (B + 40 + L)) = B + 16 /\
     read64 (mem s') (hdr_size (B + 40 + L))
     = WORD - (L + 64 - allign_page (L + 40)) /\
     read64 (mem s') (hdr_asize (B + 40 + L)) = 0 /\
     (forall x, x < B \/ B + 40 + L + sizeof_Header <= x ->
                mem s' x = mem s x)).
Proof.
  intros Hfa Hos HB HBA HL HLA. unfold sizeof_Header in HBA.
  split; [unfold sizeof_Header; lia|].
  destruct (mmalloc_first_until_split fuel s B L rest Hfa Hos HB
              ltac:(lia) HL ltac:(lia))
    as (s4 & E & R4 & As4 & Sz4 & Nx4 & F4).
  rewrite E. clear E.
  set (A := allign_page (L + 40)) in *.
  assert (M4 : header_mapped s4 (B + 16))
    by (repeat split; in_arena).
  rewrite (bind_ok _ _ _ _ _
             (hdr_should_split_spec s4 (B + 16) L
                ltac:(unfold NULL; lia) (proj2 (proj2 M4)) (proj1 (proj2 M4)))).
  rewrite As4, Sz4. unfold sizeof_Header.
  rewrite (eqb_false L 0) by lia.
  change ((0 =? 0) && negb false) with true.
  replace (wrap (A - 40 - 24 - L)) with (A - 64 - L + WORD)
    by (symmetry; replace (A - 40 - 24 - L) with (A - 64 - L) by lia;
        apply wrap_neg; unfold WORD in *; lia).
  rewrite (eqb_false (A - 64 - L + WORD) 0) by (unfold WORD in *; lia).
  change (true && negb false) with true. cbv iota.
  assert (W : wrap (B + 16 + sizeof_Header + L) = B + 40 + L).
  { unfold sizeof_Header. replace (B + 16 + 24 + L) with (B + 40 + L) by lia.
    apply wrap_small. unfold WORD in *. lia. }
  split.
  - (* a byte of the planted header is not mapped *)
    intros (x & Hx & Hun).
    apply bind_fault. apply bind_fault.
    apply hdr_split_unmapped_faults.
    + unfold NULL. lia.
    + apply M4.
    + rewrite Sz4. lia.
    + rewrite W. unfold NULL. lia.
    + rewrite W. exists x. unfold sizeof_Header in *. split; [lia|].
      rewrite R4. rewrite mapped_byte_behind by lia. exact Hun.
  - (* the planted header lies in mapped memory *)
    intros Hm.
    assert (Mnew : header_mapped s4 (B + 40 + L)).
    { apply (header_mapped_of_bytes s4 B (B + 40 + L + 24)).
      - intros x Hx. rewrite R4.
        destruct (Z_lt_le_dec x (B + A)) as [Hin | Hout].
        + apply mapped_byte_in_first_region. lia.
        + rewrite mapped_byte_behind by lia. apply Hm.
          unfold sizeof_Header. lia.
      - lia.
      - unfold sizeof_Header. lia. }
    assert (Sp : hdr_split (B + 16) L s4
                 = Ok (B + 40 + L)
                      (hdr_split_state s4 (B + 16) L (B + 40 + L))).
    { rewrite <- W. apply hdr_split_explicit.
      - unfold NULL. lia.
      - exact M4.
      - rewrite Sz4. lia.
      - rewrite W. unfold NULL. lia.
      - rewrite W. exact Mnew. }
    rewrite (bind_ok _ _ _ _ _ (bind_ok _ (fun _ => ret tt) _ _ _ Sp)).
    rewrite bind_store by apply M4.
    replace (wrap (B + 16 + 24)) with (B + 40)
      by (symmetry; replace (B + 16 + 24) with (B + 40) by lia;
          apply wrap_small; unfold WORD in *; lia).
    eexists. split; [reflexivity|].
    split; [exact R4|].
    unfold hdr_split_state, hdr_ctor_state. rewrite Sz4. simpl mem.
    replace (wrap (A - 40 - L - sizeof_Header)) with (WORD - (L + 64 - A))
      by (symmetry; unfold sizeof_Header;
          replace (WORD - (L + 64 - A)) with (A - 40 - L - 24 + WORD) by lia;
          apply wrap_neg; unfold WORD in *; lia).
    pose proof (read64_range (mem s4) (hdr_next (B + 16))) as Rn.
    unfold hdr_next, hdr_size, hdr_asize in *.
    repeat rewrite (read_write_other _ _ _ (B + 16)) by lia.
    rewrite Nx4.
    split.
    { rewrite ?read_write_other by lia.
      apply read_write_same. unfold WORD in *. lia. }
    split.
    { rewrite ?read_write_other by lia.
      apply read_write_same. unfold WORD in *. lia. }
    split.
    { rewrite ?read_write_other by lia.
      apply read_write_same. unfold WORD in *. lia. }
    split.
    { rewrite ?read_write_other by lia.
      apply read_write_same. unfold WORD in *. lia. }
    split.
    { rewrite ?read_write_other by lia.
      apply read_write_same. unfold WORD in *. lia. }
    split.
    { rewrite ?read_write_other by lia.
      apply read_write_same. unfold WORD. lia. }
    intros x Hx. unfold sizeof_Header in Hx.
    rewrite !write64_byte_out by lia. apply F4. lia.
Qed.

(** A first request of 131024 bytes ends 8 bytes before the end of its
    128 KiB arena.  With nothing mapped behind the arena the call faults;
    with a page mapped there it returns, and the 16 bytes behind the arena
    hold the size and the occupied size of the planted header. *)
Lemma mmalloc_short_tail_overruns_arena_witness :
  mmalloc (S 15) 131024 (init_state [arena1]) = Fault /\
  exists s',
    mmalloc (S 15) 131024 (fresh_beside page_behind [arena1])
    = Ok (arena1 + 40) s' /\
    regions s' = (arena1, allign_page (131024 + 40)) :: page_behind /\
    read64 (mem s') (hdr_size (arena1 + 16)) = 131024 /\
    read64 (mem s') (hdr_asize (arena1 + 16)) = 131024 /\
    read64 (mem s') (hdr_next (arena1 + 16)) = arena1 + 40 + 131024 /\
    read64 (mem s') (hdr_next (arena1 + 40 + 131024)) = arena1 + 16 /\
    read64 (mem s') (hdr_size (arena1 + 40 + 131024))
    = WORD - (131024 + 64 - allign_page (131024 + 40)) /\
    read64 (mem s') (hdr_asize (arena1 + 40 + 131024)) = 0 /\
    (forall x, x < arena1 \/ arena1 + 40 + 131024 + sizeof_Header <= x ->
               mem s' x = mem (fresh_beside page_behind [arena1]) x).
Proof.
  split.
  - apply (mmalloc_short_tail_overruns_arena
             15 (init_state [arena1]) arena1 131024 []).
    + reflexivity.
    + reflexivity.
    + vm_compute. reflexivity.
    + vm_compute. reflexivity.
    + vm_compute. reflexivity.
    + vm_compute. split; reflexivity.
    + exists (arena1 + 131072). split; [vm_compute; split; [discriminate | reflexivity]|].
      reflexivity.
  - apply (mmalloc_short_tail_overruns_arena
             15 (fresh_beside page_behind [arena1]) arena1 131024 []).
    + reflexivity.
    + reflexivity.
    + vm_compute. reflexivity.
    + vm_compute. reflexivity.
    + vm_compute. reflexivity.
    + vm_compute. split; reflexivity.
    + intros x Hx.
      replace (allign_page (131024 + 40)) with 131072 in Hx
        by (vm_compute; reflexivity).
      unfold fresh_beside, page_behind. simpl regions.
      apply mapped_byte_in_first_region.
      unfold arena1, PAGE_SIZE, sizeof_Header in *. lia.
Defined.

(** ** [mmalloc] when no block fits: a new arena joins the heap *)

Lemma mapped_byte_weaken (r : Z * Z) (rs : list (Z * Z)) (x : Z) :
  mapped_byte rs x = true -> mapped_byte (r :: rs) x = true.
Proof.
  unfold mapped_byte. simpl existsb. intros H. rewrite H.
  apply orb_true_r.
Qed.

Lemma mapped_weaken (r : Z * Z) (rs : list (Z * Z)) (a : Z) (n : nat) :
  mapped rs a n = true -> mapped (r :: rs) a n = true.
Proof.
  unfold mapped. rewrite !forallb_forall. intros H i Hi.
  apply mapped_byte_weaken. apply H. exact Hi.
Qed.

Lemma write64_ext_byte (m m' : Mem) (a v x : Z) :
  m' x = m x -> write64 m' a v x = write64 m a v x.
Proof. intros H. unfold write64. rewrite H. reflexivity. Qed.

Lemma ring_from_ext (s s' : State) (first : Z) (l : list Z) :
  (forall h, In h l ->
             read64 (mem s') (hdr_next h) = read64 (mem s) (hdr_next h)) ->
  ring_from s first l -> ring_from s' first l.
Proof.
  induction l as [|h rest IH]; intros E H; [exact H|].
  destruct rest as [|h' t].
  - simpl in *. rewrite E by (left; reflexivity). exact H.
  - destruct H as (Hn & Hne & Hr).
    split; [rewrite E by (left; reflexivity); exact Hn|].
    split; [exact Hne|].
    apply IH; [|exact Hr]. intros x Hx. apply E. right. exact Hx.
Qed.

Lemma arena_chain_ext (s s' : State) (l : list Z) :
  forall a,
    (forall x, In x l ->
               read64 (mem s') (arena_next x) = read64 (mem s) (arena_next x) /\
               (mapped (regions s) (arena_next x) 8 = true ->
                mapped (regions s') (arena_next x) 8 = true)) ->
    arena_chain s a l -> arena_chain s' a l.
Proof.
  induction l as [|x rest IH]; intros a E H; [exact H|].
  destruct H as (-> & Hx & Mx & Hr).
  destruct (E x (or_introl eq_refl)) as [Ex Mx'].
  split; [reflexivity|]. split; [exact Hx|]. split; [apply Mx'; exact Mx|].
  rewrite Ex. apply IH; [|exact Hr].
  intros y Hy. apply E. right. exact Hy.
Qed.

Lemma arena_append_run (fuel : nat) (s : State) (a x : Z) (rest : list Z) :
  arena_chain s (first_arena s) (x :: rest) ->
  (List.length (x :: rest) <= fuel)%nat ->
  arena_append fuel a s
  = Ok tt (with_mem s (write64 (mem s) (arena_next (last rest x)) a)).
Proof.
  intros Hc Hfuel. unfold arena_append.
  rewrite bind_get_first_arena.
  pose proof Hc as (E & Hx & _).
  rewrite E. rewrite eqb_false by exact Hx.
  rewrite (bind_ok _ _ _ _ _
             (arena_last_chain s rest x x fuel
                ltac:(rewrite <- E at 1; exact Hc) Hfuel)).
  destruct (arena_chain_mapped s (x :: rest) _ (last rest x) Hc (last_in rest x))
    as [_ Ml].
  apply store64_ok. exact Ml.
Qed.

Lemma separated_snoc (l : list Z) (b : Z) :
  separated l ->
  Forall (fun a => a + sizeof_Arena <= b \/ b + sizeof_Arena <= a) l ->
  separated (l ++ [b]).
Proof.
  induction l as [|x rest IH]; intros Hs Hb.
  - simpl. split; constructor.
  - destruct Hs as [Hx Hr]. simpl. split.
    + apply Forall_app. split; [exact Hx|].
      constructor; [|constructor]. apply (Forall_inv Hb).
    + apply IH; [exact Hr | apply (Forall_inv_tail Hb)].
Qed.

Lemma disjoint_headers_app (l t : list Z) :
  disjoint_headers l -> disjoint_headers t ->
  Forall (fun x =>
            Forall (fun y => x + sizeof_Header <= y \/ y + sizeof_Header <= x) t)
         l ->
  disjoint_headers (l ++ t).
Proof.
  induction l as [|x rest IH]; intros Hl Ht Hx; [exact Ht|].
  destruct Hl as [Hxr Hr]. simpl. split.
  - apply Forall_app. split; [exact Hxr | apply (Forall_inv Hx)].
  - apply IH; [exact Hr | exact Ht | apply (Forall_inv_tail Hx)].
Qed.

(** A ring whose last link is redirected to [new], the head of a chain
    [tail] that leads back to [first]. *)
Lemma ring_from_splice (s s' : State) (first new : Z) (tl : list Z) :
  0 <= new < WORD -> new <> first ->
  ring_from s' first (new :: tl) ->
  forall l,
    ring_from s first l ->
    disjoint_headers l ->
    (forall h, In h l ->
       read64 (mem s') (hdr_next h)
       = read64 (write64 (mem s) (hdr_next (last l 0)) new) (hdr_next h)) ->
    ring_from s' first (l ++ new :: tl).
Proof.
  intros Hnew Hne Htail.
  induction l as [|h rest IH]; intros Hr Hd E; [contradiction|].
  destruct rest as [|h' t].
  - simpl app. change (ring_from s' first (h :: new :: tl))
      with (read64 (mem s') (hdr_next h) = new /\ new <> first /\
            ring_from s' first (new :: tl)).
    split; [|split; assumption].
    rewrite E by (left; reflexivity). simpl last.
    apply read_write_same. exact Hnew.
  - destruct Hr as (Hn & Hne' & Hr). destruct Hd as (Hsep & Hd).
    change (ring_from s' first ((h :: h' :: t) ++ new :: tl))
      with (read64 (mem s') (hdr_next h) = h' /\ h' <> first /\
            ring_from s' first ((h' :: t) ++ new :: tl)).
    assert (EL : last (h :: h' :: t) 0 = last (h' :: t) 0) by reflexivity.
    split; [|split; [exact Hne'|]].
    + rewrite E by (left; reflexivity). rewrite EL.
      rewrite read_write_other; [exact Hn|].
      assert (Hin : In (last (h' :: t) 0) (h' :: t)).
      { rewrite last_cons_default. apply last_in. }
      rewrite Forall_forall in Hsep. specialize (Hsep _ Hin).
      unfold hdr_next, sizeof_Header in *. lia.
    + apply IH; [exact Hr | exact Hd|].
      intros x Hx. rewrite <- EL. apply E. right. exact Hx.
Qed.

(** The list part of the argument: a heap with one more arena at [B],
    whose blocks [tl] lie inside it, has the shape again once the two
    links are in place. *)
Lemma heap_shape_extend (s s' : State) (la l tl : list Z) (B A : Z) :
  heap_shape s la l ->
  0 < B -> sizeof_Arena <= A ->
  outside_region B A sizeof_Header l ->
  outside_region B A sizeof_Arena la ->
  regions s' = (B, A) :: regions s ->
  first_arena s' = first_arena s ->
  arena_chain s' (first_arena s) (la ++ [B]) ->
  ring_from s' (wrap (first_arena s + sizeof_Arena)) (l ++ tl) ->
  Forall (fun t => B + sizeof_Arena <= t /\ t + sizeof_Header <= B + A) tl ->
  disjoint_headers tl ->
  heap_shape s' (la ++ [B]) (l ++ tl).
Proof.
  intros (Hfa & Hchain & Hsepa & Hhd & Hring & Hmap & Hnn & Hdis & Hba)
         HB HA Hol Hola R' F' Hchain' Hring' Htl Hdtl.
  unfold outside_region in *. rewrite Forall_forall in Hol, Hola, Htl, Hba.
  unfold heap_shape. rewrite F'.
  split; [exact Hfa|]. split; [exact Hchain'|].
  split.
  { apply separated_snoc; [exact Hsepa|].
    apply Forall_forall. intros a Ha. specialize (Hola a Ha). lia. }
  split.
  { destruct l as [|h t]; [contradiction | exact Hhd]. }
  split; [exact Hring'|].
  split.
  { apply Forall_app. split.
    - apply Forall_forall. intros h Hh. rewrite Forall_forall in Hmap.
      destruct (Hmap h Hh) as (M1 & M2 & M3). unfold header_mapped.
      rewrite R'. repeat split; apply mapped_weaken; assumption.
    - apply Forall_forall. intros t Ht. specialize (Htl t Ht).
      unfold header_mapped. rewrite R'.
      unfold sizeof_Arena, sizeof_Header in *.
      repeat split; apply mapped_in_new_region;
        unfold hdr_next, hdr_size, hdr_asize; lia. }
  split.
  { intros Hin. apply in_app_or in Hin. destruct Hin as [Hin | Hin].
    - exact (Hnn Hin).
    - specialize (Htl _ Hin). unfold NULL, sizeof_Arena in *. lia. }
  split.
  { apply disjoint_headers_app; [exact Hdis | exact Hdtl|].
    apply Forall_forall. intros x Hx. apply Forall_forall. intros t Ht.
    specialize (Hol x Hx). specialize (Htl t Ht).
    unfold sizeof_Arena, sizeof_Header in *. lia. }
  apply Forall_app. split.
  - apply Forall_forall. intros h Hh. apply Forall_app. split.
    + apply Hba. exact Hh.
    + constructor; [|constructor]. specialize (Hol h Hh).
      unfold sizeof_Arena, sizeof_Header in *. lia.
  - apply Forall_forall. intros t Ht. specialize (Htl t Ht).
    apply Forall_app. split.
    + apply Forall_forall. intros a Ha. specialize (Hola a Ha).
      unfold sizeof_Arena, sizeof_Header in *. lia.
    + constructor; [|constructor]. unfold sizeof_Arena, sizeof_Header in *. lia.
Qed.

(** X17: When no block of the ring fits, [mmalloc] maps one arena for the
    request, appends it to the arena list and its first block to the ring,
    and hands out that block; unless the block fills the arena, the rest
    follows it in the ring as a free block.  The heap keeps its shape.
    (The request leaves room for the header of the rest, and the kernel
    places the arena clear of every existing header.) *)
Theorem mmalloc_splices_new_arena
        (fuel : nat) (s : State) (n B : Z) (rest la l : list Z) :
  heap_shape s la l ->
  first_fitting s n l = NULL ->
  os s = B :: rest ->
  0 < B -> B + allign_page (n + 40) < WORD ->
  0 < n -> n + 64 <= allign_page (n + 40) ->
  outside_region B (allign_page (n + 40)) sizeof_Header l ->
  outside_region B (allign_page (n + 40)) sizeof_Arena la ->
  (List.length l <= fuel)%nat -> (List.length la <= fuel)%nat ->
  exists s',
    mmalloc fuel n s = Ok (B + 40) s' /\
    regions s' = (B, allign_page (n + 40)) :: regions s /\
    os s' = rest /\
    read64 (mem s') (hdr_asize (B + 16)) = n /\
    heap_shape s' (la ++ [B]) (l ++ new_blocks B (allign_page (n + 40)) n).
Proof.
  intros Hshape Hnofit Hos HB HBA Hn HnA Hol Hola Hfl Hfla.
  pose proof Hshape as
      (Hfa & Hchain & Hsepa & Hhd & Hring & Hmap & Hnn & Hdis & Hba).
  set (A := allign_page (n + 40)) in *.
  set (first := wrap (first_arena s + sizeof_Arena)) in *.
  destruct l as [|f0 l']; [contradiction|].
  simpl in Hhd. subst f0.
  destruct la as [|a0 la']; [simpl in Hchain; contradiction|].
  pose proof Hchain as (Efa & Ha0 & Ma0 & _).
  set (Ll := last l' first). set (La := last la' a0).
  assert (InLl : In Ll (first :: l')) by apply last_in.
  assert (InLa : In La (a0 :: la')) by apply last_in.
  assert (Rf : 0 <= first < WORD) by apply wrap_range.
  assert (Hf0 : first <> NULL).
  { intros C. apply Hnn. left. exact C. }
  assert (HLl : Ll + 24 <= B \/ B + A <= Ll).
  { unfold outside_region in Hol. rewrite Forall_forall in Hol.
    apply (Hol Ll InLl). }
  assert (Hf1 : first + 24 <= B \/ B + A <= first).
  { apply (Forall_inv Hol). }
  assert (HLa : La + 16 <= B \/ B + A <= La).
  { unfold outside_region in Hola. rewrite Forall_forall in Hola.
    apply (Hola La InLa). }
  assert (HLL : Ll + 24 <= La \/ La + 16 <= Ll).
  { rewrite Forall_forall in Hba. specialize (Hba Ll InLl).
    rewrite Forall_forall in Hba. apply (Hba La InLa). }
  assert (MLl : header_mapped s Ll).
  { rewrite Forall_forall in Hmap. apply (Hmap Ll InLl). }
  (* the scan finds nothing, the arena is mapped *)
  unfold mmalloc.
  rewrite leb_false by exact Hn.
  rewrite (bind_ok _ _ _ _ _
             (first_fit_ring fuel s n (first :: l') Hn Hfa eq_refl
                Hring Hmap Hfl)).
  rewrite Hnofit.
  change (negb (NULL =? NULL)) with false. cbv iota.
  replace (wrap (n + sizeof_Arena + sizeof_Header)) with (n + 40)
    by (symmetry; unfold sizeof_Arena, sizeof_Header;
        replace (n + 16 + 24) with (n + 40) by lia;
        apply wrap_small; unfold WORD in *; lia).
  rewrite (bind_ok _ _ _ _ _
             (arena_alloc_ok s (n + 40) B rest
                ltac:(unfold sizeof_Arena, sizeof_Header; lia) ltac:(lia)
                Hos
                ltac:(unfold MAP_FAILED, WORD in *; lia)
                ltac:(unfold NULL; lia))).
  fold A.
  set (s0 := with_mem _ _).
  assert (R0 : regions s0 = (B, A) :: regions s) by reflexivity.
  assert (F0 : forall x, x < B \/ B + A <= x -> mem s0 x = mem s x).
  { intros x Hx. unfold s0. simpl mem. unfold arena_next, arena_size.
    rewrite !write64_byte_out by lia. unfold in_region. simpl fst. simpl snd.
    destruct ((B <=? x) && (x <? B + A)) eqn:E; [|reflexivity].
    apply andb_true_iff in E. destruct E as [E1 E2].
    apply Z.leb_le in E1. apply Z.ltb_lt in E2. lia. }
  assert (An0 : read64 (mem s0) (arena_next B) = NULL).
  { unfold s0. mem_reads. reflexivity. }
  assert (Chain0 : arena_chain s0 (first_arena s0) (a0 :: la')).
  { apply (arena_chain_ext s s0); [|exact Hchain].
    intros x Hx. split.
    - apply read64_ext. intros y Hy. apply F0.
      unfold outside_region in Hola. rewrite Forall_forall in Hola.
      specialize (Hola x Hx). unfold arena_next, sizeof_Arena in *. lia.
    - intros M. rewrite R0. apply mapped_weaken. exact M. }
  unfold mmalloc_new_arena.
  rewrite (eqb_false B NULL) by (unfold NULL; lia).
  rewrite bind_ret.
  rewrite (bind_ok _ _ _ _ _ (arena_append_run fuel s0 B a0 la' Chain0 Hfla)).
  fold La.
  set (s1 := with_mem s0 _).
  assert (R1 : regions s1 = (B, A) :: regions s) by reflexivity.
  assert (Chain1 : arena_chain s1 (first_arena s) ((a0 :: la') ++ [B])).
  { apply arena_chain_store.
    - unfold WORD in *. lia.
    - rewrite R0. apply mapped_in_new_region; unfold arena_next; lia.
    - exact An0.
    - exact Chain0.
    - apply separated_snoc; [exact Hsepa|].
      unfold outside_region in Hola. apply Forall_forall. intros a Ha.
      rewrite Forall_forall in Hola. specialize (Hola a Ha).
      unfold sizeof_Arena in *. lia. }
  unfold sizeof_Arena, sizeof_Header.
  replace (wrap (B + 16)) with (B + 16)
    by (symmetry; apply wrap_small; unfold WORD in *; lia).
  rewrite bind_load by (rewrite R1; apply mapped_in_new_region;
                        unfold arena_size; lia).
  replace (read64 (mem s1) (arena_size B)) with A
    by (unfold s1, s0; mem_reads; reflexivity).
  replace (wrap (A - 16 - 24)) with (A - 40)
    by (symmetry; replace (A - 16 - 24) with (A - 40) by lia;
        apply wrap_small; unfold WORD in *; lia).
  rewrite (bind_ok _ _ _ _ _
             (hdr_ctor_ok s1 (B + 16) (A - 40)
                ltac:(unfold NULL; lia) ltac:(lia)
                ltac:(unfold header_mapped; rewrite R1;
                      repeat split; apply mapped_in_new_region;
                      unfold hdr_next, hdr_size, hdr_asize; lia))).
  set (s2 := with_mem s1 _).
  assert (R2 : regions s2 = (B, A) :: regions s) by reflexivity.
  rewrite bind_get_first_arena.
  change (wrap (first_arena s2 + 16)) with first.
  rewrite bind_store by (rewrite R2; apply mapped_in_new_region;
                         unfold hdr_next; lia).
  set (s3 := with_mem s2 _).
  assert (R3 : regions s3 = (B, A) :: regions s) by reflexivity.
  rewrite bind_get_first_arena.
  change (wrap (first_arena s3 + 16)) with first.
  assert (F3 : forall x, x < B \/ B + A <= x -> x < La \/ La + 8 <= x ->
                         mem s3 x = mem s x).
  { intros x Hx Hxa. rewrite <- (F0 x Hx). unfold s3, s2, s1.
    unfold with_mem, mem at 1 2 3 4 5 6.
    unfold hdr_next, hdr_size, hdr_asize, arena_next.
    rewrite !write64_byte_out by lia. reflexivity. }
  assert (Gp : hdr_get_prev fuel first s3 = Ok Ll s3).
  { unfold hdr_get_prev. rewrite bind_get_first_arena.
    change (first_arena s3) with (first_arena s).
    rewrite !eqb_false by assumption.
    change (false || false) with false. cbv iota.
    apply get_prev_loop_ring.
    - apply (ring_from_ext s s3); [|exact Hring].
      intros h Hh. apply read64_ext. intros x Hx.
      unfold outside_region in Hol. rewrite Forall_forall in Hol.
      specialize (Hol h Hh).
      rewrite Forall_forall in Hba. specialize (Hba h Hh).
      rewrite Forall_forall in Hba. specialize (Hba La InLa).
      unfold hdr_next, sizeof_Header, sizeof_Arena in *.
      apply F3; lia.
    - apply Forall_forall. intros h Hh. rewrite Forall_forall in Hmap.
      destruct (Hmap h Hh) as (M1 & M2 & M3). unfold header_mapped.
      rewrite R3. repeat split; apply mapped_weaken; assumption.
    - exact Hfl. }
  rewrite (bind_ok _ _ _ _ _ Gp).
  rewrite bind_store by (rewrite R3; apply mapped_weaken; apply MLl).
  set (s4 := with_mem s3 _).
  assert (R4 : regions s4 = (B, A) :: regions s) by reflexivity.
  assert (As4 : read64 (mem s4) (hdr_asize (B + 16)) = 0).
  { unfold s4, s3, s2. mem_reads. reflexivity. }
  assert (Sz4 : read64 (mem s4) (hdr_size (B + 16)) = A - 40).
  { unfold s4, s3, s2. mem_reads. reflexivity. }
  assert (Nx4 : read64 (mem s4) (hdr_next (B + 16)) = first).
  { unfold s4, s3. mem_reads. reflexivity. }
  assert (F4 : forall x, x < B \/ B + A <= x -> x < La \/ La + 8 <= x ->
                         mem s4 x = write64 (mem s) (hdr_next Ll) (B + 16) x).
  { intros x Hx Hxa. unfold s4. unfold with_mem, mem at 1.
    apply write64_ext_byte. apply F3; assumption. }
  assert (F14 : forall x, x < B + 16 \/ B + A <= x -> x < Ll \/ Ll + 8 <= x ->
                          mem s4 x = mem s1 x).
  { intros x Hx Hxl. unfold s4, s3, s2.
    unfold with_mem, mem at 1 2 3 4 5.
    unfold hdr_next, hdr_size, hdr_asize.
    rewrite !write64_byte_out by lia. reflexivity. }
  rewrite (bind_ok _ _ _ _ _
             (hdr_should_split_spec s4 (B + 16) n
                ltac:(unfold NULL; lia)
                ltac:(rewrite R4; apply mapped_in_new_region;
                      unfold hdr_asize; lia)
                ltac:(rewrite R4; apply mapped_in_new_region;
                      unfold hdr_size; lia))).
  rewrite As4, Sz4. unfold sizeof_Header.
  rewrite (eqb_false n 0) by lia.
  change ((0 =? 0) && negb false) with true.
  replace (wrap (A - 40 - 24 - n)) with (A - 64 - n)
    by (symmetry; replace (A - 40 - 24 - n) with (A - 64 - n) by lia;
        apply wrap_small; unfold WORD in *; lia).
  replace (wrap (B + 16 + 24)) with (B + 40)
    by (symmetry; replace (B + 16 + 24) with (B + 40) by lia;
        apply wrap_small; unfold WORD in *; lia).
  assert (EL : last (first :: l') 0 = Ll) by apply last_cons_default.
  unfold new_blocks.
  destruct (A - 64 - n =? 0) eqn:Ez.
  - (* the block fills the arena *)
    apply Z.eqb_eq in Ez.
    replace (n + 64 =? A) with true by (symmetry; apply Z.eqb_eq; lia).
    change (true && negb true) with false. cbv iota.
    rewrite bind_ret.
    rewrite bind_store by (rewrite R4; apply mapped_in_new_region;
                           unfold hdr_asize; lia).
    set (s5 := with_mem s4 _).
    exists s5. split; [reflexivity|]. split; [reflexivity|].
    split; [reflexivity|].
    split; [unfold s5; mem_reads; reflexivity|].
    apply (heap_shape_extend s s5 (a0 :: la') (first :: l') [B + 16] B A);
      try assumption; try reflexivity.
    + unfold sizeof_Arena. lia.
    + apply (arena_chain_ext s1 s5); [|exact Chain1].
      intros x Hx. split; [|intros M; exact M].
      apply read64_ext. intros y Hy.
      transitivity (mem s4 y).
      * unfold s5. unfold with_mem, mem at 1. unfold hdr_asize, arena_next in *.
        apply write64_byte_out.
        apply in_app_or in Hx. destruct Hx as [Hx | [<- | []]].
        -- unfold outside_region in Hola. rewrite Forall_forall in Hola.
           specialize (Hola x Hx). unfold sizeof_Arena in *. lia.
        -- lia.
      * apply F14; unfold arena_next in *;
          apply in_app_or in Hx; destruct Hx as [Hx | [<- | []]].
        -- unfold outside_region in Hola. rewrite Forall_forall in Hola.
           specialize (Hola x Hx). unfold sizeof_Arena in *. lia.
        -- lia.
        -- rewrite Forall_forall in Hba. specialize (Hba Ll InLl).
           rewrite Forall_forall in Hba. specialize (Hba x Hx).
           unfold sizeof_Arena, sizeof_Header in *. lia.
        -- lia.
    + apply (ring_from_splice s s5 first (B + 16) []).
      * unfold WORD in *. lia.
      * lia.
      * simpl. unfold s5, s4. mem_reads. reflexivity.
      * exact Hring.
      * exact Hdis.
      * intros h Hh. rewrite EL. apply read64_ext. intros x Hx.
        unfold outside_region in Hol. rewrite Forall_forall in Hol.
        specialize (Hol h Hh).
        rewrite Forall_forall in Hba. specialize (Hba h Hh).
        rewrite Forall_forall in Hba. specialize (Hba La InLa).
        unfold hdr_next, sizeof_Header, sizeof_Arena in *.
        rewrite <- F4 by lia.
        unfold s5. unfold with_mem, mem at 1. unfold hdr_asize.
        apply write64_byte_out. lia.
    + constructor; [|constructor]. unfold sizeof_Arena, sizeof_Header. lia.
    + simpl. split; constructor.
  - (* the rest of the arena is split off *)
    apply Z.eqb_neq in Ez.
    rewrite (eqb_false (n + 64) A) by lia.
    change (true && negb false) with true. cbv iota.
    assert (Sp : hdr_split (B + 16) n s4
                 = Ok (B + 40 + n)
                      (with_mem s4
                         (write64
                            (write64
                               (write64
                                  (write64
                                     (write64
                                        (write64 (mem s4) (hdr_size (B + 40 + n))
                                           (A - 64 - n))
                                        (hdr_asize (B + 40 + n)) 0)
                                     (hdr_next (B + 40 + n)) NULL)
                                  (hdr_size (B + 16)) n)
                               (hdr_next (B + 40 + n)) first)
                            (hdr_next (B + 16)) (B + 40 + n)))).
    { unfold hdr_split. rewrite eqb_false by (unfold NULL; lia).
      rewrite bind_load by (rewrite R4; apply mapped_in_new_region;
                            unfold hdr_size; lia).
      rewrite Sz4.
      rewrite ltb_false by lia. unfold sizeof_Header.
      replace (wrap (B + 16 + 24 + n)) with (B + 40 + n)
        by (symmetry; replace (B + 16 + 24 + n) with (B + 40 + n) by lia;
            apply wrap_small; unfold WORD in *; lia).
      replace (wrap (A - 40 - n - 24)) with (A - 64 - n)
        by (symmetry; replace (A - 40 - n - 24) with (A - 64 - n) by lia;
            apply wrap_small; unfold WORD in *; lia).
      rewrite (bind_ok _ _ _ _ _
                 (hdr_ctor_ok s4 (B + 40 + n) (A - 64 - n)
                    ltac:(unfold NULL; lia) ltac:(lia)
                    ltac:(unfold header_mapped; rewrite R4;
                          repeat split; apply mapped_in_new_region;
                          unfold hdr_next, hdr_size, hdr_asize; lia))).
      rewrite bind_store by (apply mapped_in_new_region; unfold hdr_size; lia).
      rewrite bind_load by (apply mapped_in_new_region; unfold hdr_next; lia).
      match goal with
      | |- context [read64 ?m (hdr_next (B + 16))] =>
        replace (read64 m (hdr_next (B + 16))) with first
          by (rewrite <- Nx4; mem_reads; reflexivity)
      end.
      rewrite bind_store by (apply mapped_in_new_region; unfold hdr_next; lia).
      rewrite bind_store by (apply mapped_in_new_region; unfold hdr_next; lia).
      reflexivity. }
    rewrite (bind_ok _ _ _ _ _
               (bind_ok _ (fun _ => ret tt) _ _ _ Sp)).
    rewrite bind_store by (apply mapped_in_new_region; unfold hdr_asize; lia).
    set (s5 := with_mem (with_mem s4 _) _).
    exists s5. split; [reflexivity|]. split; [reflexivity|].
    split; [reflexivity|].
    split; [unfold s5; mem_reads; reflexivity|].
    assert (F5 : forall x, x < B + 16 \/ B + A <= x -> mem s5 x = mem s4 x).
    { intros x Hx. unfold s5. unfold with_mem, mem at 1 2.
      unfold hdr_next, hdr_size, hdr_asize.
      rewrite !write64_byte_out by lia. reflexivity. }
    apply (heap_shape_extend s s5 (a0 :: la') (first :: l')
             [B + 16; B + 40 + n] B A);
      try assumption; try reflexivity.
    + unfold sizeof_Arena. lia.
    + apply (arena_chain_ext s1 s5); [|exact Chain1].
      intros x Hx. split; [|intros M; exact M].
      apply read64_ext. intros y Hy.
      transitivity (mem s4 y).
      * apply F5. unfold arena_next in *.
        apply in_app_or in Hx. destruct Hx as [Hx | [<- | []]].
        -- unfold outside_region in Hola. rewrite Forall_forall in Hola.
           specialize (Hola x Hx). unfold sizeof_Arena in *. lia.
        -- lia.
      * apply F14; unfold arena_next in *;
          apply in_app_or in Hx; destruct Hx as [Hx | [<- | []]].
        -- unfold outside_region in Hola. rewrite Forall_forall in Hola.
           specialize (Hola x Hx). unfold sizeof_Arena in *. lia.
        -- lia.
        -- rewrite Forall_forall in Hba. specialize (Hba Ll InLl).
           rewrite Forall_forall in Hba. specialize (Hba x Hx).
           unfold sizeof_Arena, sizeof_Header in *. lia.
        -- lia.
    + apply (ring_from_splice s s5 first (B + 16) [B + 40 + n]).
      * unfold WORD in *. lia.
      * lia.
      * simpl. split; [|split].
        -- unfold s5. mem_reads. reflexivity.
        -- lia.
        -- unfold s5. mem_reads. reflexivity.
      * exact Hring.
      * exact Hdis.
      * intros h Hh. rewrite EL. apply read64_ext. intros x Hx.
        unfold outside_region in Hol. rewrite Forall_forall in Hol.
        specialize (Hol h Hh).
        rewrite Forall_forall in Hba. specialize (Hba h Hh).
        rewrite Forall_forall in Hba. specialize (Hba La InLa).
        unfold hdr_next, sizeof_Header, sizeof_Arena in *.
        rewrite <- F4 by lia. apply F5. lia.
    + constructor; [|constructor; [|constructor]];
        unfold sizeof_Arena, sizeof_Header; lia.
    + simpl. split; [|split; constructor].
      constructor; [|constructor]. unfold sizeof_Header. lia.
Qed.

Ltac apart_check :=
  first [ left; vm_compute; discriminate | right; vm_compute; discriminate ].

Lemma mmalloc_splices_new_arena_witness :
  exists s',
    mmalloc enough 200000 heap_one_small = Ok (arena2 + 40) s' /\
    regions s' = (arena2, allign_page (200000 + 40)) :: regions heap_one_small /\
    os s' = [] /\
    read64 (mem s') (hdr_asize (arena2 + 16)) = 200000 /\
    heap_shape s' ([arena1] ++ [arena2])
               ([arena1 + 16; arena1 + 56]
                  ++ new_blocks arena2 (allign_page (200000 + 40)) 200000).
Proof.
  apply (mmalloc_splices_new_arena
           enough heap_one_small 200000 arena2 [] [arena1]
           [arena1 + 16; arena1 + 56]).
  - unfold heap_shape.
    split; [vm_compute; discriminate|].
    split; [vm_compute; repeat split; discriminate|].
    split; [simpl; split; constructor|].
    split; [vm_compute; reflexivity|].
    split; [vm_compute; repeat split; discriminate|].
    split.
    { constructor; [apply header_mapped_check; vm_compute; reflexivity|].
      constructor; [apply header_mapped_check; vm_compute; reflexivity|].
      constructor. }
    split; [vm_compute; intros [C | [C | []]]; discriminate|].
    split.
    { simpl. split; [|split; [constructor | exact I]].
      constructor; [apart_check | constructor]. }
    constructor; [constructor; [apart_check | constructor]|].
    constructor; [constructor; [apart_check | constructor]|].
    constructor.
  - vm_compute. reflexivity.
  - vm_compute. reflexivity.
  - vm_compute. reflexivity.
  - vm_compute. reflexivity.
  - vm_compute. reflexivity.
  - vm_compute. discriminate.
  - unfold outside_region.
    constructor; [apart_check|]. constructor; [apart_check | constructor].
  - unfold outside_region. constructor; [apart_check | constructor].
  - vm_compute. lia.
  - vm_compute. lia.
Defined.

(** ** The first call builds a heap of that shape *)

(** X18: On a fresh allocator the first [mmalloc] maps one arena at the address
    the kernel gives, and leaves a heap of the shape above: that arena
    alone in the arena list, and in the ring the block handed out and,
    unless it fills the arena, the free rest.  (The request leaves room
    for the header of the rest.) *)
Theorem first_mmalloc_builds_heap (fuel : nat) (B L : Z) (rest : list Z) :
  0 < B -> B + allign_page (L + 40) < WORD ->
  0 < L -> L + 64 <= allign_page (L + 40) ->
  exists s1,
    mmalloc (S fuel) L (init_state (B :: rest)) = Ok (B + 40) s1 /\
    os s1 = rest /\
    regions s1 = [(B, allign_page (L + 40))] /\
    read64 (mem s1) (hdr_asize (B + 16)) = L /\
    heap_shape s1 [B] (new_blocks B (allign_page (L + 40)) L).
Proof.
  intros HB HBA HL HLA.
  destruct (mmalloc_fresh fuel B L rest HB HBA HL HLA)
    as (s1 & E1 & Hos & (Hreg & Hfa & Han & Hasz & Hcases)).
  set (A := allign_page (L + 40)) in *.
  exists s1. split; [exact E1|]. split; [exact Hos|]. split; [exact Hreg|].
  split; [exact Hasz|].
  assert (W : wrap (first_arena s1 + sizeof_Arena) = B + 16).
  { rewrite Hfa. unfold sizeof_Arena. apply wrap_small. unfold WORD in *. lia. }
  unfold heap_shape. rewrite W. rewrite Hfa.
  split; [unfold NULL; lia|].
  split.
  { simpl. split; [reflexivity|]. split; [unfold NULL; lia|].
    split; [in_arena | exact Han]. }
  split; [simpl; split; constructor|].
  split; [reflexivity|].
  unfold new_blocks.
  destruct Hcases as [(Efull & Hnx & Hsz) | (Hroom & Hnx & Hsz & Rnx & Rsz & Rasz)].
  - replace (L + 64 =? A) with true by (symmetry; apply Z.eqb_eq; exact Efull).
    split; [exact Hnx|].
    split; [constructor; [repeat split; in_arena | constructor]|].
    split; [intros [C | []]; unfold NULL in C; lia|].
    split; [simpl; split; constructor|].
    constructor; [|constructor].
    constructor; [|constructor]. unfold sizeof_Arena. lia.
  - rewrite (eqb_false (L + 64) A) by lia.
    split.
    { simpl. split; [exact Hnx|]. split; [lia | exact Rnx]. }
    split.
    { constructor; [repeat split; in_arena|].
      constructor; [repeat split; in_arena | constructor]. }
    split; [intros [C | [C | []]]; unfold NULL in C; lia|].
    split.
    { simpl. split; [|split; [constructor | exact I]].
      constructor; [|constructor]. unfold sizeof_Header. lia. }
    constructor; [constructor; [unfold sizeof_Arena; lia | constructor]|].
    constructor; [constructor; [unfold sizeof_Arena; lia | constructor]|].
    constructor.
Qed.

Lemma first_mmalloc_builds_heap_witness :
  exists s1,
    mmalloc (S 15) 16 (init_state [arena1; arena2]) = Ok (arena1 + 40) s1 /\
    os s1 = [arena2] /\
    regions s1 = [(arena1, allign_page (16 + 40))] /\
    read64 (mem s1) (hdr_asize (arena1 + 16)) = 16 /\
    heap_shape s1 [arena1] (new_blocks arena1 (allign_page (16 + 40)) 16).
Proof.
  apply (first_mmalloc_builds_heap 15 arena1 16 [arena2]).
  - vm_compute. reflexivity.
  - vm_compute. reflexivity.
  - vm_compute. reflexivity.
  - vm_compute. discriminate.
Defined.

(** ** [mmalloc] from a block of the ring *)

Lemma hd_insert_after (h new d : Z) (l : list Z) :
  hd d (insert_after h new l) = hd d l.
Proof. destruct l as [|x rest]; [reflexivity|]. simpl. destruct (x =? h); reflexivity. Qed.

Lemma in_insert_after (h new x : Z) (l : list Z) :
  In x (insert_after h new l) -> In x l \/ x = new.
Proof.
  induction l as [|y rest IH]; simpl; [intros []|].
  destruct (y =? h).
  - intros [E | [E | Hin]]; [left; left; exact E | right; symmetry; exact E
                            | left; right; exact Hin].
  - intros [E | Hin]; [left; left; exact E|].
    destruct (IH Hin) as [H | H]; [left; right; exact H | right; exact H].
Qed.

Lemma Forall_insert_after (P : Z -> Prop) (h new : Z) (l : list Z) :
  Forall P l -> P new -> Forall P (insert_after h new l).
Proof.
  intros Hl Hn. induction Hl as [|x rest Hx Hr IH]; simpl; [constructor|].
  destruct (x =? h).
  - constructor; [exact Hx|]. constructor; assumption.
  - constructor; assumption.
Qed.

Lemma disjoint_headers_in (l : list Z) :
  disjoint_headers l ->
  forall x y, In x l -> In y l ->
              x = y \/ x + sizeof_Header <= y \/ y + sizeof_Header <= x.
Proof.
  induction l as [|z rest IH]; intros Hd x y Hx Hy; [contradiction|].
  destruct Hd as [Hz Hr]. rewrite Forall_forall in Hz.
  destruct Hx as [<- | Hx], Hy as [<- | Hy].
  - left. reflexivity.
  - right. apply Hz. exact Hy.
  - right. specialize (Hz x Hx). lia.
  - apply IH; assumption.
Qed.

Lemma disjoint_insert_after (h new : Z) (l : list Z) :
  disjoint_headers l ->
  Forall (fun x => x + sizeof_Header <= new \/ new + sizeof_Header <= x) l ->
  disjoint_headers (insert_after h new l).
Proof.
  induction l as [|x rest IH]; intros Hd Hn; [exact I|].
  destruct Hd as [Hx Hr]. simpl. destruct (x =? h).
  - split; [constructor; [apply (Forall_inv Hn) | exact Hx]|].
    split; [|exact Hr].
    apply Forall_forall. intros y Hy.
    pose proof (Forall_inv_tail Hn) as Hn'. rewrite Forall_forall in Hn'.
    specialize (Hn' y Hy). lia.
  - split.
    + apply Forall_insert_after; [exact Hx | apply (Forall_inv Hn)].
    + apply IH; [exact Hr | apply (Forall_inv_tail Hn)].
Qed.

Lemma ring_from_nonneg (s : State) (first : Z) (l : list Z) :
  forall x, ring_from s first (x :: l) -> 0 <= x ->
            Forall (fun y => 0 <= y) (x :: l).
Proof.
  induction l as [|y t IH]; intros x Hr Hx.
  - constructor; [exact Hx | constructor].
  - destruct Hr as (Hn & _ & Hr). constructor; [exact Hx|].
    apply IH; [exact Hr|]. rewrite <- Hn. apply read64_range.
Qed.

(** A ring in which [h] now links to [new], and [new] to what [h] linked
    to. *)
Lemma ring_from_insert (s s' : State) (first h new : Z) :
  new <> first ->
  read64 (mem s') (hdr_next h) = new ->
  read64 (mem s') (hdr_next new) = read64 (mem s) (hdr_next h) ->
  forall l,
    ring_from s first l -> In h l -> disjoint_headers l ->
    (forall x, In x l -> x <> h ->
               read64 (mem s') (hdr_next x) = read64 (mem s) (hdr_next x)) ->
    ring_from s' first (insert_after h new l).
Proof.
  intros Hne Hh Hnew.
  induction l as [|x rest IH]; intros Hr Hin Hd E; [contradiction|].
  simpl insert_after. destruct (x =? h) eqn:Ex.
  - apply Z.eqb_eq in Ex. subst x.
    assert (Erest : forall y, In y rest ->
              read64 (mem s') (hdr_next y) = read64 (mem s) (hdr_next y)).
    { intros y Hy. apply E; [right; exact Hy|].
      destruct Hd as [Hsep _]. rewrite Forall_forall in Hsep.
      specialize (Hsep y Hy). unfold sizeof_Header in Hsep. lia. }
    destruct rest as [|h' t].
    + simpl in Hr. simpl. split; [exact Hh|]. split; [exact Hne|].
      rewrite Hnew. exact Hr.
    + destruct Hr as (Hn & Hne' & Hr).
      change (read64 (mem s') (hdr_next h) = new /\ new <> first /\
              read64 (mem s') (hdr_next new) = h' /\ h' <> first /\
              ring_from s' first (h' :: t)).
      split; [exact Hh|]. split; [exact Hne|].
      split; [rewrite Hnew; exact Hn|]. split; [exact Hne'|].
      apply (ring_from_ext s s'); assumption.
  - apply Z.eqb_neq in Ex.
    destruct Hin as [C | Hin]; [contradiction|].
    destruct rest as [|h' t]; [contradiction|].
    destruct Hr as (Hn & Hne' & Hr). destruct Hd as [_ Hd].
    assert (IH' : ring_from s' first (insert_after h new (h' :: t))).
    { apply IH; try assumption. intros y Hy. apply E. right. exact Hy. }
    assert (Ex' : read64 (mem s') (hdr_next x) = h').
    { rewrite E; [exact Hn | left; reflexivity | exact Ex]. }
    simpl insert_after in *. destruct (h' =? h).
    + split; [exact Ex'|]. split; [exact Hne' | exact IH'].
    + split; [exact Ex'|]. split; [exact Hne' | exact IH'].
Qed.

(** The run of [mmalloc] once the scan has found [h]. *)
Lemma mmalloc_split_run
      (fuel : nat) (s : State) (n h : Z) (la l : list Z) :
  heap_shape s la l ->
  first_fit fuel n s = Ok h s -> In h l ->
  read64 (mem s) (hdr_asize h) = 0 ->
  0 < n -> n + sizeof_Header < read64 (mem s) (hdr_size h) ->
  h + sizeof_Header + read64 (mem s) (hdr_size h) <= WORD ->
  header_mapped s (h + sizeof_Header + n) ->
  outside_region (h + sizeof_Header) (read64 (mem s) (hdr_size h))
                 sizeof_Header l ->
  outside_region (h + sizeof_Header) (read64 (mem s) (hdr_size h))
                 sizeof_Arena la ->
  exists s',
    mmalloc fuel n s = Ok (h + sizeof_Header) s' /\
    same_maps s s' /\ err s' = err s /\
    read64 (mem s') (hdr_asize h) = n /\
    read64 (mem s') (hdr_size h) = n /\
    read64 (mem s') (hdr_asize (h + sizeof_Header + n)) = 0 /\
    read64 (mem s') (hdr_size (h + sizeof_Header + n))
    = read64 (mem s) (hdr_size h) - n - sizeof_Header /\
    (forall x, x < h \/ h + sizeof_Header <= x ->
               x < h + sizeof_Header + n
               \/ h + sizeof_Header + n + sizeof_Header <= x ->
               mem s' x = mem s x) /\
    heap_shape s' la (insert_after h (h + sizeof_Header + n) l).
Proof.
  intros Hshape Hff Hin Hfree Hn Hroom Hend Mnew Hol Hola.
  pose proof Hshape as
      (Hfa & Hchain & Hsepa & Hhd & Hring & Hmap & Hnn & Hdis & Hba).
  set (first := wrap (first_arena s + sizeof_Arena)) in *.
  set (sz := read64 (mem s) (hdr_size h)) in *.
  assert (Hh : h <> NULL).
  { intros C. apply Hnn. rewrite <- C. exact Hin. }
  assert (Mh : header_mapped s h).
  { rewrite Forall_forall in Hmap. apply Hmap. exact Hin. }
  assert (Hh0 : 0 <= h).
  { destruct l as [|f0 l']; [contradiction|].
    assert (Rf : 0 <= first < WORD) by apply wrap_range.
    simpl in Hhd. rewrite <- Hhd in Rf.
    pose proof (ring_from_nonneg s first l' f0 Hring ltac:(lia)) as Hall.
    rewrite Forall_forall in Hall. apply Hall. exact Hin. }
  pose proof (read64_range (mem s) (hdr_size h)) as Rs. fold sz in Rs.
  pose proof (read64_range (mem s) (hdr_next h)) as Rnx.
  unfold sizeof_Header in Hroom, Hend.
  set (new := h + sizeof_Header + n) in *.
  assert (Hnw : new = h + 24 + n) by reflexivity.
  assert (W : wrap (h + sizeof_Header + n) = new).
  { apply wrap_small. unfold new, sizeof_Header, WORD in *. lia. }
  (* the run *)
  unfold mmalloc.
  rewrite leb_false by exact Hn.
  rewrite (bind_ok _ _ _ _ _ Hff).
  rewrite eqb_false by exact Hh.
  change (negb false) with true. cbv iota.
  rewrite (bind_ok _ _ _ _ _
             (hdr_should_split_spec s h n Hh (proj2 (proj2 Mh))
                (proj1 (proj2 Mh)))).
  rewrite Hfree. fold sz.
  rewrite (eqb_false n 0) by lia.
  replace (wrap (sz - sizeof_Header - n)) with (sz - 24 - n)
    by (symmetry; unfold sizeof_Header; apply wrap_small;
        unfold WORD in *; lia).
  rewrite (eqb_false (sz - 24 - n) 0) by lia.
  change ((0 =? 0) && negb false && negb false) with true. cbv iota.
  assert (Sp : hdr_split h n s = Ok new (hdr_split_state s h n new)).
  { rewrite <- W. apply hdr_split_explicit.
    - exact Hh.
    - exact Mh.
    - fold sz. lia.
    - rewrite W. unfold NULL. lia.
    - rewrite W. exact Mnew. }
  rewrite (bind_ok _ _ _ _ _ (bind_ok _ (fun _ => ret tt) _ _ _ Sp)).
  rewrite bind_store by apply Mh.
  replace (wrap (h + sizeof_Header)) with (h + sizeof_Header)
    by (symmetry; apply wrap_small; unfold sizeof_Header, WORD in *; lia).
  set (s' := with_mem _ _).
  exists s'. split; [reflexivity|].
  split; [repeat split|].
  split.
  { unfold s', hdr_split_state, hdr_ctor_state. simpl err.
    rewrite leb_false; [reflexivity|]. fold sz. unfold sizeof_Header.
    rewrite wrap_small by (unfold WORD in *; lia). lia. }
  (* what the memory holds now *)
  assert (F : forall x, x < h \/ h + 24 <= x -> x < new \/ new + 24 <= x ->
                        mem s' x = mem s x).
  { intros x Hx1 Hx2. unfold s', hdr_split_state, hdr_ctor_state.
    unfold with_mem, mem at 1 2 3 4.
    unfold hdr_next, hdr_size, hdr_asize.
    rewrite !write64_byte_out by lia. reflexivity. }
  assert (Nh : read64 (mem s') (hdr_next h) = new).
  { unfold s', hdr_split_state, hdr_ctor_state. simpl mem.
    unfold hdr_next, hdr_size, hdr_asize.
    rewrite read_write_other by lia.
    apply read_write_same. unfold WORD in *. lia. }
  assert (Nn : read64 (mem s') (hdr_next new) = read64 (mem s) (hdr_next h)).
  { unfold s', hdr_split_state, hdr_ctor_state. simpl mem.
    unfold hdr_next, hdr_size, hdr_asize in *.
    repeat rewrite (read_write_other _ _ _ h) by lia.
    rewrite !read_write_other by lia.
    apply read_write_same. exact Rnx. }
  split.
  { unfold s'. simpl mem. apply read_write_same. unfold WORD in *. lia. }
  split.
  { unfold s', hdr_split_state, hdr_ctor_state. simpl mem.
    unfold hdr_next, hdr_size, hdr_asize.
    rewrite !read_write_other by lia.
    apply read_write_same. unfold WORD in *. lia. }
  split.
  { unfold s', hdr_split_state, hdr_ctor_state. simpl mem.
    unfold hdr_next, hdr_size, hdr_asize.
    rewrite !read_write_other by lia.
    apply read_write_same. unfold WORD. lia. }
  split.
  { unfold s', hdr_split_state, hdr_ctor_state. simpl mem. fold sz.
    replace (wrap (sz - n - sizeof_Header)) with (sz - n - sizeof_Header)
      by (symmetry; apply wrap_small; unfold sizeof_Header, WORD in *; lia).
    unfold hdr_next, hdr_size, hdr_asize.
    rewrite !read_write_other by lia.
    apply read_write_same. unfold sizeof_Header, WORD in *. lia. }
  split.
  { intros x Hx1 Hx2. unfold sizeof_Header in *. apply F; lia. }
  (* the shape *)
  unfold outside_region in Hol, Hola.
  rewrite Forall_forall in Hol, Hola.
  assert (Sep : forall x, In x l -> x + 24 <= new \/ new + 24 <= x).
  { intros x Hx. specialize (Hol x Hx). unfold sizeof_Header in *. lia. }
  assert (SepA : forall a, In a la -> new + 24 <= a \/ a + 16 <= new).
  { intros a Ha. specialize (Hola a Ha).
    unfold sizeof_Header, sizeof_Arena in *. lia. }
  assert (HbaH : forall a, In a la -> h + 24 <= a \/ a + 16 <= h).
  { intros a Ha. rewrite Forall_forall in Hba. specialize (Hba h Hin).
    rewrite Forall_forall in Hba. apply (Hba a Ha). }
  unfold heap_shape.
  change (first_arena s') with (first_arena s). fold first.
  split; [exact Hfa|].
  split.
  { apply (arena_chain_ext s s'); [|exact Hchain].
    intros a Ha. split; [|intros M; exact M].
    apply read64_ext. intros x Hx. specialize (SepA a Ha).
    specialize (HbaH a Ha). unfold arena_next in Hx. apply F; lia. }
  split; [exact Hsepa|].
  split; [rewrite hd_insert_after; exact Hhd|].
  split.
  { apply (ring_from_insert s s' first h new); try assumption.
    - intros C. specialize (Sep first).
      destruct l as [|f0 l']; [contradiction|]. simpl in Hhd. subst f0.
      specialize (Sep (or_introl eq_refl)).
      pose proof (disjoint_headers_in _ Hdis first h (or_introl eq_refl) Hin)
        as D. unfold sizeof_Header in D. lia.
    - intros x Hx Hxh. apply read64_ext. intros y Hy.
      pose proof (disjoint_headers_in _ Hdis x h Hx Hin) as D.
      specialize (Sep x Hx). unfold hdr_next, sizeof_Header in *.
      apply F; lia. }
  split.
  { apply Forall_insert_after; [exact Hmap | exact Mnew]. }
  split.
  { intros C. apply in_insert_after in C. destruct C as [C | C].
    - exact (Hnn C).
    - unfold NULL in C. lia. }
  split.
  { apply disjoint_insert_after; [exact Hdis|].
    apply Forall_forall. intros x Hx. unfold sizeof_Header. apply Sep. exact Hx. }
  apply Forall_insert_after; [exact Hba|].
  apply Forall_forall. intros a Ha. specialize (SepA a Ha).
  unfold sizeof_Header, sizeof_Arena. lia.
Qed.

(** X19: A request served from the ring: [h] is the first block that fits, and
    it is more than a header larger than the request.  [mmalloc] maps
    nothing; it cuts the block down to the [n] bytes asked for, marks it
    as holding [n] bytes and returns the address past its header; the rest
    becomes a free block of its own, right behind [h] in the ring.  The
    heap keeps its shape, and no byte outside the two headers changes.
    (No header lies inside the block that is cut.) *)
Theorem mmalloc_splits_fitting_block
        (fuel : nat) (s : State) (n h : Z) (la l : list Z) :
  heap_shape s la l ->
  first_fitting s n l = h -> h <> NULL ->
  0 < n -> n + sizeof_Header < read64 (mem s) (hdr_size h) ->
  h + sizeof_Header + read64 (mem s) (hdr_size h) <= WORD ->
  header_mapped s (h + sizeof_Header + n) ->
  outside_region (h + sizeof_Header) (read64 (mem s) (hdr_size h))
                 sizeof_Header l ->
  outside_region (h + sizeof_Header) (read64 (mem s) (hdr_size h))
                 sizeof_Arena la ->
  (List.length l <= fuel)%nat ->
  exists s',
    mmalloc fuel n s = Ok (h + sizeof_Header) s' /\
    same_maps s s' /\
    read64 (mem s') (hdr_asize h) = n /\
    read64 (mem s') (hdr_size h) = n /\
    read64 (mem s') (hdr_asize (h + sizeof_Header + n)) = 0 /\
    read64 (mem s') (hdr_size (h + sizeof_Header + n))
    = read64 (mem s) (hdr_size h) - n - sizeof_Header /\
    (forall x, x < h \/ h + sizeof_Header <= x ->
               x < h + sizeof_Header + n
               \/ h + sizeof_Header + n + sizeof_Header <= x ->
               mem s' x = mem s x) /\
    heap_shape s' la (insert_after h (h + sizeof_Header + n) l).
Proof.
  intros Hshape Hfit Hh Hn Hroom Hend Mnew Hol Hola Hfl.
  pose proof Hshape as (Hfa & _ & _ & Hhd & Hring & Hmap & _).
  assert (Hin : In h l /\ fits s n h = true).
  { unfold first_fitting in Hfit.
    destruct (find (fits s n) l) as [h0|] eqn:E.
    - subst h0. apply first_fitting_in. exact E.
    - exfalso. apply Hh. symmetry. exact Hfit. }
  destruct Hin as [Hin Hfits].
  unfold fits in Hfits. apply andb_true_iff in Hfits.
  destruct Hfits as [Hfree _]. apply Z.eqb_eq in Hfree.
  pose proof (first_fit_ring fuel s n l Hn Hfa Hhd Hring Hmap Hfl) as Hff.
  rewrite Hfit in Hff.
  destruct (mmalloc_split_run fuel s n h la l Hshape Hff Hin Hfree Hn Hroom
              Hend Mnew Hol Hola)
    as (s' & E & Hm & _ & Ha & Hs & Hna & Hns & Fr & Sh).
  exists s'. split; [exact E|]. split; [exact Hm|]. split; [exact Ha|].
  split; [exact Hs|]. split; [exact Hna|]. split; [exact Hns|].
  split; [exact Fr | exact Sh].
Qed.

Lemma mmalloc_splits_fitting_block_witness :
  exists s',
    mmalloc enough 60 heap_large_freed = Ok (arena1 + 16 + sizeof_Header) s' /\
    same_maps heap_large_freed s' /\
    read64 (mem s') (hdr_asize (arena1 + 16)) = 60 /\
    read64 (mem s') (hdr_size (arena1 + 16)) = 60 /\
    read64 (mem s') (hdr_asize (arena1 + 16 + sizeof_Header + 60)) = 0 /\
    read64 (mem s') (hdr_size (arena1 + 16 + sizeof_Header + 60))
    = read64 (mem heap_large_freed) (hdr_size (arena1 + 16)) - 60
      - sizeof_Header /\
    (forall x, x < arena1 + 16 \/ arena1 + 16 + sizeof_Header <= x ->
               x < arena1 + 16 + sizeof_Header + 60
               \/ arena1 + 16 + sizeof_Header + 60 + sizeof_Header <= x ->
               mem s' x = mem heap_large_freed x) /\
    heap_shape s' [arena1]
               (insert_after (arena1 + 16) (arena1 + 16 + sizeof_Header + 60)
                             [arena1 + 16]).
Proof.
  apply (mmalloc_splits_fitting_block
           enough heap_large_freed 60 (arena1 + 16) [arena1] [arena1 + 16]).
  - unfold heap_shape.
    split; [vm_compute; discriminate|].
    split; [vm_compute; repeat split; discriminate|].
    split; [simpl; split; constructor|].
    split; [vm_compute; reflexivity|].
    split; [vm_compute; reflexivity|].
    split.
    { constructor; [apply header_mapped_check; vm_compute; reflexivity|].
      constructor. }
    split; [vm_compute; intros [C | []]; discriminate|].
    split; [simpl; split; constructor|].
    constructor; [constructor; [apart_check | constructor]|].
    constructor.
  - vm_compute. reflexivity.
  - vm_compute. discriminate.
  - vm_compute. reflexivity.
  - vm_compute. reflexivity.
  - vm_compute. discriminate.
  - apply header_mapped_check. vm_compute. reflexivity.
  - unfold outside_region. constructor; [apart_check | constructor].
  - unfold outside_region. constructor; [apart_check | constructor].
  - vm_compute. lia.
Defined.

(** ** Rings: links, rotation, and taking a block out *)

Lemma ring_from_links (s : State) (f : Z) (t : list Z) :
  forall x,
    ring_from s f (x :: t) <->
    links s (x :: t) /\ read64 (mem s) (hdr_next (last t x)) = f /\ ~ In f t.
Proof.
  induction t as [|y t' IH]; intros x.
  - simpl. split.
    + intros H. split; [exact I|]. split; [exact H | intros []].
    + intros (_ & H & _). exact H.
  - change (ring_from s f (x :: y :: t'))
      with (read64 (mem s) (hdr_next x) = y /\ y <> f /\ ring_from s f (y :: t')).
    change (links s (x :: y :: t'))
      with (read64 (mem s) (hdr_next x) = y /\ links s (y :: t')).
    rewrite (last_cons_default t' y x). rewrite (IH y). split.
    + intros (Hn & Hne & Hl & Hlast & Hnin).
      split; [split; assumption|]. split; [exact Hlast|].
      intros [C | C]; [apply Hne; exact C | exact (Hnin C)].
    + intros ((Hn & Hl) & Hlast & Hnin).
      split; [exact Hn|]. split; [intros C; apply Hnin; left; exact C|].
      split; [exact Hl|]. split; [exact Hlast|].
      intros C. apply Hnin. right. exact C.
Qed.

Lemma links_app_r (s : State) (a b : list Z) :
  links s (a ++ b) -> links s b.
Proof.
  induction a as [|x a' IH]; intros H; [exact H|].
  apply IH. simpl app in H.
  destruct (a' ++ b) as [|y r] eqn:E; [exact I|]. apply H.
Qed.

Lemma links_app_l (s : State) (a b : list Z) :
  links s (a ++ b) -> links s a.
Proof.
  induction a as [|x a' IH]; intros H; [exact I|].
  destruct a' as [|y a'']; [exact I|].
  destruct H as [Hn H]. split; [exact Hn|]. apply IH. exact H.
Qed.

Lemma links_mid (s : State) (a b : list Z) (x : Z) :
  forall y, links s ((y :: a) ++ x :: b) ->
            read64 (mem s) (hdr_next (last a y)) = x.
Proof.
  induction a as [|z a' IH]; intros y H.
  - simpl in *. apply H.
  - rewrite last_cons_default. apply IH. apply H.
Qed.

Lemma links_join (s : State) (b : list Z) (x : Z) :
  forall a y,
    links s (y :: a) -> links s (x :: b) ->
    read64 (mem s) (hdr_next (last a y)) = x ->
    links s ((y :: a) ++ x :: b).
Proof.
  intros a. induction a as [|z a' IH]; intros y Ha Hb Hn.
  - simpl in *. split; assumption.
  - destruct Ha as [Hy Ha]. rewrite last_cons_default in Hn.
    change (read64 (mem s) (hdr_next y) = z /\ links s ((z :: a') ++ x :: b)).
    split; [exact Hy|]. apply IH; assumption.
Qed.

Lemma disjoint_headers_NoDup (l : list Z) : disjoint_headers l -> NoDup l.
Proof.
  induction l as [|x rest IH]; intros H; [constructor|].
  destruct H as [Hx Hr]. constructor; [|apply IH; exact Hr].
  intros C. rewrite Forall_forall in Hx. specialize (Hx x C).
  unfold sizeof_Header in Hx. lia.
Qed.

(** The ring read from [h] on: the blocks behind [h], then those before
    it. *)
Lemma ring_rotate (s : State) (f h : Z) (l1 l2 : list Z) :
  ring_from s f (l1 ++ h :: l2) ->
  hd NULL (l1 ++ h :: l2) = f ->
  NoDup (l1 ++ h :: l2) ->
  ring_from s h (h :: l2 ++ l1).
Proof.
  intros Hr Hhd Hnd.
  assert (Hnin : ~ In h (l2 ++ l1)).
  { intros C. apply NoDup_remove_2 in Hnd. apply Hnd.
    apply in_or_app. apply in_app_or in C. tauto. }
  destruct l1 as [|x l1'].
  - simpl in *. subst f. rewrite app_nil_r. exact Hr.
  - simpl in Hhd. subst x.
    change ((f :: l1') ++ h :: l2) with (f :: (l1' ++ h :: l2)) in Hr.
    apply ring_from_links in Hr. destruct Hr as (Hl & Hlast & _).
    change (f :: l1' ++ h :: l2) with ((f :: l1') ++ h :: l2) in Hl.
    pose proof (links_app_r _ _ _ Hl) as Hl2.
    pose proof (links_app_l _ _ _ Hl) as Hl1.
    pose proof (links_mid _ _ _ _ _ Hl) as Hm.
    replace (last (l1' ++ h :: l2) f) with (last l2 h) in Hlast.
    2:{ clear. revert f. induction l1' as [|z t IH]; intros f.
        - simpl app. rewrite last_cons_default. reflexivity.
        - change ((z :: t) ++ h :: l2) with (z :: (t ++ h :: l2)).
          rewrite last_cons_default. apply IH. }
    apply ring_from_links.
    split; [|split; [|exact Hnin]].
    + change (h :: l2 ++ f :: l1') with ((h :: l2) ++ f :: l1').
      apply links_join; assumption.
    + replace (last (l2 ++ f :: l1') h) with (last l1' f); [exact Hm|].
      clear. revert h. induction l2 as [|z t IH]; intros h.
      * simpl app. rewrite last_cons_default. reflexivity.
      * change ((z :: t) ++ f :: l1') with (z :: (t ++ f :: l1')).
        rewrite last_cons_default. apply IH.
Qed.

(** The ring once [left] links past [right]. *)
Lemma ring_from_skip (s s' : State) (f left right : Z) (l2 : list Z) :
  read64 (mem s') (hdr_next left) = read64 (mem s) (hdr_next right) ->
  forall l1,
    ring_from s f (l1 ++ left :: right :: l2) ->
    NoDup (l1 ++ left :: right :: l2) ->
    (forall x, In x (l1 ++ left :: right :: l2) -> x <> left -> x <> right ->
               read64 (mem s') (hdr_next x) = read64 (mem s) (hdr_next x)) ->
    ring_from s' f (l1 ++ left :: l2).
Proof.
  intros Hleft. induction l1 as [|x l1' IH]; intros Hr Hnd E.
  - simpl app in *.
    destruct Hr as (Hn & Hne & Hr).
    assert (E2 : forall y, In y l2 ->
              read64 (mem s') (hdr_next y) = read64 (mem s) (hdr_next y)).
    { intros y Hy. apply NoDup_cons_iff in Hnd. destruct Hnd as [N1 Hnd'].
      apply NoDup_cons_iff in Hnd'. destruct Hnd' as [N2 _].
      apply E.
      - right. right. exact Hy.
      - intros C. subst y. apply N1. right. exact Hy.
      - intros C. subst y. apply N2. exact Hy. }
    destruct l2 as [|y t].
    + simpl in *. rewrite Hleft. exact Hr.
    + destruct Hr as (Hn2 & Hne2 & Hr).
      change (read64 (mem s') (hdr_next left) = y /\ y <> f /\
              ring_from s' f (y :: t)).
      split; [rewrite Hleft; exact Hn2|]. split; [exact Hne2|].
      apply (ring_from_ext s s'); assumption.
  - change ((x :: l1') ++ left :: right :: l2)
      with (x :: (l1' ++ left :: right :: l2)) in *.
    change ((x :: l1') ++ left :: l2) with (x :: (l1' ++ left :: l2)).
    apply NoDup_cons_iff in Hnd. destruct Hnd as [N1 Hnd'].
    assert (Ex : read64 (mem s') (hdr_next x) = read64 (mem s) (hdr_next x)).
    { apply E; [left; reflexivity | |];
        intros C; subst x; apply N1; apply in_or_app; right.
      - left. reflexivity.
      - right. left. reflexivity. }
    assert (IH' : ring_from s' f (l1' ++ left :: l2)).
    { apply IH.
      - destruct (l1' ++ left :: right :: l2) as [|y r] eqn:El.
        + destruct l1'; discriminate.
        + apply Hr.
      - exact Hnd'.
      - intros y Hy. apply E. right. exact Hy. }
    destruct l1' as [|y r].
    + simpl app in *. destruct Hr as (Hn & Hne & _).
      split; [rewrite Ex; exact Hn|]. split; [exact Hne | exact IH'].
    + change ((y :: r) ++ left :: right :: l2)
        with (y :: (r ++ left :: right :: l2)) in Hr.
      change ((y :: r) ++ left :: l2) with (y :: (r ++ left :: l2)) in *.
      destruct Hr as (Hn & Hne & _).
      split; [rewrite Ex; exact Hn|]. split; [exact Hne | exact IH'].
Qed.

Lemma ring_from_range (s : State) (first : Z) (l : list Z) :
  forall x, ring_from s first (x :: l) -> 0 <= x < WORD ->
            Forall (fun y => 0 <= y < WORD) (x :: l).
Proof.
  induction l as [|y t IH]; intros x Hr Hx.
  - constructor; [exact Hx | constructor].
  - destruct Hr as (Hn & _ & Hr). constructor; [exact Hx|].
    apply IH; [exact Hr|]. rewrite <- Hn. apply read64_range.
Qed.

Lemma Forall_skip (P : Z -> Prop) (l1 l2 : list Z) (x y : Z) :
  Forall P (l1 ++ x :: y :: l2) -> Forall P (l1 ++ x :: l2).
Proof.
  intros H. apply Forall_app in H. destruct H as [H1 H2].
  apply Forall_app. split; [exact H1|].
  constructor; [apply (Forall_inv H2)|].
  apply (Forall_inv_tail (Forall_inv_tail H2)).
Qed.

Lemma in_skip (l1 l2 : list Z) (x y z : Z) :
  In z (l1 ++ x :: l2) -> In z (l1 ++ x :: y :: l2).
Proof.
  intros H. apply in_or_app. apply in_app_or in H.
  destruct H as [H | [H | H]]; [left; exact H | right; left; exact H|].
  right. right. right. exact H.
Qed.

Lemma disjoint_headers_skip (x y : Z) (l2 : list Z) :
  forall l1, disjoint_headers (l1 ++ x :: y :: l2) ->
             disjoint_headers (l1 ++ x :: l2).
Proof.
  induction l1 as [|z l1' IH]; intros H.
  - destruct H as (Hx & _ & Hr). split; [|exact Hr].
    apply (Forall_inv_tail Hx).
  - destruct H as (Hz & Hr). split; [|apply IH; exact Hr].
    apply (Forall_skip _ l1' l2 x y). exact Hz.
Qed.

(** The shape is kept by writes that miss the link of every block and of
    every arena. *)
Lemma heap_shape_frame (s s' : State) (la l : list Z) :
  heap_shape s la l ->
  regions s' = regions s -> first_arena s' = first_arena s ->
  (forall h x, In h l -> h <= x < h + 8 -> mem s' x = mem s x) ->
  (forall a x, In a la -> a <= x < a + 8 -> mem s' x = mem s x) ->
  heap_shape s' la l.
Proof.
  intros (Hfa & Hchain & Hsepa & Hhd & Hring & Hmap & Hnn & Hdis & Hba)
         R' F' El Ea.
  unfold heap_shape. rewrite F'.
  split; [exact Hfa|].
  split.
  { apply (arena_chain_ext s s'); [|exact Hchain].
    intros a Ha. split; [|rewrite R'; intros M; exact M].
    apply read64_ext. intros x Hx. apply (Ea a x Ha). exact Hx. }
  split; [exact Hsepa|]. split; [exact Hhd|].
  split.
  { apply (ring_from_ext s s'); [|exact Hring].
    intros h Hh. apply read64_ext. intros x Hx. apply (El h x Hh). exact Hx. }
  split.
  { apply Forall_forall. intros h Hh. rewrite Forall_forall in Hmap.
    destruct (Hmap h Hh) as (M1 & M2 & M3). unfold header_mapped.
    rewrite R'. repeat split; assumption. }
  split; [exact Hnn|]. split; [exact Hdis | exact Hba].
Qed.

(** ... and by a block of the ring taking over the link of its
    successor. *)
Lemma heap_shape_skip (s s' : State) (la l1 l2 : list Z) (left right : Z) :
  heap_shape s la (l1 ++ left :: right :: l2) ->
  regions s' = regions s -> first_arena s' = first_arena s ->
  (forall x, x < left \/ left + 16 <= x -> mem s' x = mem s x) ->
  read64 (mem s') (hdr_next left) = read64 (mem s) (hdr_next right) ->
  heap_shape s' la (l1 ++ left :: l2).
Proof.
  intros (Hfa & Hchain & Hsepa & Hhd & Hring & Hmap & Hnn & Hdis & Hba)
         R' F' Fr Hleft.
  assert (Inl : In left (l1 ++ left :: right :: l2)).
  { apply in_or_app. right. left. reflexivity. }
  unfold heap_shape. rewrite F'.
  split; [exact Hfa|].
  split.
  { apply (arena_chain_ext s s'); [|exact Hchain].
    intros a Ha. split; [|rewrite R'; intros M; exact M].
    apply read64_ext. intros x Hx. apply Fr.
    rewrite Forall_forall in Hba. specialize (Hba left Inl).
    rewrite Forall_forall in Hba. specialize (Hba a Ha).
    unfold arena_next, sizeof_Header, sizeof_Arena in *. lia. }
  split; [exact Hsepa|].
  split.
  { rewrite <- Hhd. destruct l1; reflexivity. }
  split.
  { apply (ring_from_skip s s' _ left right l2 Hleft l1 Hring).
    - apply disjoint_headers_NoDup. exact Hdis.
    - intros x Hx Hxl Hxr. apply read64_ext. intros y Hy. apply Fr.
      pose proof (disjoint_headers_in _ Hdis x left Hx Inl) as D.
      unfold hdr_next, sizeof_Header in *. lia. }
  split.
  { apply Forall_skip in Hmap. apply Forall_forall. intros h Hh.
    rewrite Forall_forall in Hmap.
    destruct (Hmap h Hh) as (M1 & M2 & M3). unfold header_mapped.
    rewrite R'. repeat split; assumption. }
  split.
  { intros C. apply Hnn. apply in_skip. exact C. }
  split; [apply (disjoint_headers_skip left right l2 l1); exact Hdis|].
  apply Forall_skip in Hba. exact Hba.
Qed.

Lemma hdr_can_merge_refuses (fuel : nat) (s : State) (left right : Z) :
  left <> NULL -> right <> NULL ->
  mapped (regions s) (arena_next (first_arena s)) 8 = true ->
  read64 (mem s) (arena_next (first_arena s)) = NULL ->
  mapped (regions s) (hdr_asize left) 8 = true ->
  mapped (regions s) (hdr_asize right) 8 = true ->
  mapped (regions s) (hdr_next left) 8 = true ->
  (read64 (mem s) (hdr_asize left) =? 0)
  && (read64 (mem s) (hdr_asize right) =? 0) && (left <? right) = false ->
  hdr_can_merge (S fuel) left right s = Ok false s.
Proof.
  intros Hl Hr Ma Ha Mla Mra Mln Hno. unfold hdr_can_merge.
  rewrite !eqb_false by assumption.
  change (false || false) with false. cbv iota.
  rewrite bind_get_first_arena.
  rewrite (bind_ok _ _ _ _ _ (can_merge_scan_single_arena fuel s right Ma Ha)).
  change (negb true) with false. cbv iota.
  rewrite bind_load by exact Mla.
  destruct (read64 (mem s) (hdr_asize left) =? 0); [|reflexivity].
  change (negb true) with false. cbv iota.
  rewrite bind_load by exact Mra.
  destruct (read64 (mem s) (hdr_asize right) =? 0); [|reflexivity].
  change (negb true) with false. cbv iota.
  rewrite bind_load by exact Mln.
  destruct (read64 (mem s) (hdr_next left) =? right); [|reflexivity].
  change (negb true) with false. cbv iota.
  simpl in Hno. rewrite Hno.
  destruct (left =? right); reflexivity.
Qed.

(** One merge of [mfree] on a heap with a single arena: [left] and its
    ring successor [right] are free and in address order. *)
Lemma merge_step (fuel : nat) (s : State) (a left right : Z) (l1 l2 : list Z) :
  heap_shape s [a] (l1 ++ left :: right :: l2) ->
  read64 (mem s) (hdr_asize left) = 0 ->
  read64 (mem s) (hdr_asize right) = 0 ->
  left < right ->
  exists s',
    hdr_can_merge (S fuel) left right s = Ok true s /\
    hdr_merge left right s = Ok tt s' /\
    heap_shape s' [a] (l1 ++ left :: l2) /\
    regions s' = regions s /\ first_arena s' = first_arena s /\
    os s' = os s /\ err s' = err s /\
    read64 (mem s') (hdr_size left)
    = wrap (read64 (mem s) (hdr_size left)
            + read64 (mem s) (hdr_size right) + sizeof_Header) /\
    (forall x, x < left \/ left + 16 <= x -> mem s' x = mem s x).
Proof.
  intros Hshape Al Ar Hlt.
  pose proof Hshape as
      (Hfa & Hchain & Hsepa & Hhd & Hring & Hmap & Hnn & Hdis & Hba).
  assert (Inl : In left (l1 ++ left :: right :: l2)).
  { apply in_or_app. right. left. reflexivity. }
  assert (Inr : In right (l1 ++ left :: right :: l2)).
  { apply in_or_app. right. right. left. reflexivity. }
  rewrite Forall_forall in Hmap.
  destruct (Hmap left Inl) as (Mln & Mls & Mla).
  destruct (Hmap right Inr) as (Mrn & Mrs & Mra).
  assert (Hl0 : left <> NULL) by (intros C; apply Hnn; rewrite <- C; exact Inl).
  assert (Hr0 : right <> NULL) by (intros C; apply Hnn; rewrite <- C; exact Inr).
  assert (Hn : read64 (mem s) (hdr_next left) = right).
  { destruct (l1 ++ left :: right :: l2) as [|x t] eqn:El.
    - destruct l1; discriminate.
    - apply ring_from_links in Hring. destruct Hring as (Hl & _).
      rewrite <- El in Hl. apply links_app_r in Hl. apply Hl. }
  destruct Hchain as (Ea & Ha0 & Ma & Han). simpl in Han.
  rewrite <- Ea in Ma, Han.
  pose proof (disjoint_headers_in _ Hdis left right Inl Inr) as D.
  unfold sizeof_Header in D.
  pose proof (hdr_merge_ok s left right Hl0 Hr0 ltac:(lia)
                Mln Mls Mrn Mrs Hn) as E.
  cbv zeta in E.
  eexists. split.
  { apply hdr_can_merge_free_pair; assumption. }
  split; [exact E|].
  pose proof (read64_range (mem s) (hdr_next right)) as Rn.
  assert (Fr : forall x, x < left \/ left + 16 <= x ->
                         write64
                           (write64 (mem s) (hdr_size left)
                              (wrap (read64 (mem s) (hdr_size left)
                                     + wrap (read64 (mem s) (hdr_size right)
                                             + sizeof_Header))))
                           (hdr_next left)
                           (read64
                              (write64 (mem s) (hdr_size left)
                                 (wrap (read64 (mem s) (hdr_size left)
                                        + wrap (read64 (mem s) (hdr_size right)
                                                + sizeof_Header))))
                              (hdr_next right)) x = mem s x).
  { intros x Hx. unfold hdr_next, hdr_size.
    rewrite !write64_byte_out by lia. reflexivity. }
  split.
  { apply (heap_shape_skip s _ [a] l1 l2 left right Hshape);
      try reflexivity.
    - exact Fr.
    - simpl mem. unfold hdr_next, hdr_size in *.
      rewrite (read_write_other _ _ _ right) by lia.
      apply read_write_same. exact Rn. }
  simpl regions. simpl first_arena. simpl os. simpl err. simpl mem.
  split; [reflexivity|]. split; [reflexivity|]. split; [reflexivity|].
  split; [reflexivity|].
  split; [|exact Fr].
  unfold hdr_next, hdr_size in *.
  rewrite read_write_other by lia.
  rewrite read_write_same by apply wrap_range.
  rewrite wrap_add_wrap_r. f_equal. lia.
Qed.

Lemma heap_shape_range (s : State) (la l : list Z) :
  heap_shape s la l -> Forall (fun y => 0 <= y < WORD) l.
Proof.
  intros (_ & _ & _ & Hhd & Hring & _).
  destruct l as [|x t]; [constructor|].
  simpl in Hhd. apply (ring_from_range s _ t x Hring).
  rewrite Hhd. apply wrap_range.
Qed.

Lemma ring_from_hd (s : State) (f x : Z) (t : list Z) :
  ring_from s f (x :: t) -> read64 (mem s) (hdr_next x) = hd f t.
Proof. destruct t as [|y r]; intros H; [exact H | apply H]. Qed.

Lemma hd_in (x : Z) (r : list Z) : In (hd x r) (x :: r).
Proof. destruct r; [left | right; left]; reflexivity. Qed.

Lemma in_rotate (h x : Z) (l1 l2 : list Z) :
  In x (h :: l2 ++ l1) -> In x (l1 ++ h :: l2).
Proof.
  intros [H | H]; apply in_or_app;
    [right; left; exact H | apply in_app_or in H;
                             destruct H; [right; right | left]; assumption].
Qed.

(** What a heap with a single arena gives the merge test. *)
Lemma single_arena_facts (s : State) (a : Z) (l : list Z) (x : Z) :
  heap_shape s [a] l -> In x l ->
  mapped (regions s) (arena_next (first_arena s)) 8 = true /\
  read64 (mem s) (arena_next (first_arena s)) = NULL /\
  x <> NULL /\ header_mapped s x.
Proof.
  intros (Hfa & Hchain & _ & _ & _ & Hmap & Hnn & _) Hx.
  destruct Hchain as (Ea & _ & Ma & Han). simpl in Han.
  rewrite <- Ea in Ma, Han.
  split; [exact Ma|]. split; [exact Han|].
  split; [intros C; apply Hnn; rewrite <- C; exact Hx|].
  rewrite Forall_forall in Hmap. apply Hmap. exact Hx.
Qed.

(** The first attempt of [mfree], lines 347-348, on a block of the ring
    that is marked free: it is merged with its ring successor when that is
    free and lies above it. *)
Lemma mfree_first_merge (f : nat) (s : State) (a h : Z) (l1 l2 : list Z) :
  heap_shape s [a] (l1 ++ h :: l2) ->
  Forall (fun x => wrap (first_arena s + sizeof_Arena) <= x) (l1 ++ h :: l2) ->
  read64 (mem s) (hdr_asize h) = 0 ->
  exists s2,
    load64 (hdr_next h) s = Ok (hd h (l2 ++ l1)) s /\
    hdr_can_merge (S f) h (hd h (l2 ++ l1)) s
    = Ok ((read64 (mem s) (hdr_asize (hd h (l2 ++ l1))) =? 0)
          && (h <? hd h (l2 ++ l1))) s /\
    (if (read64 (mem s) (hdr_asize (hd h (l2 ++ l1))) =? 0)
        && (h <? hd h (l2 ++ l1))
     then nx' <- load64 (hdr_next h) ;; hdr_merge h nx'
     else ret tt) s = Ok tt s2 /\
    heap_shape s2 [a]
      (l1 ++ h :: (if (read64 (mem s) (hdr_asize (hd h (l2 ++ l1))) =? 0)
                      && (h <? hd h (l2 ++ l1))
                   then tl l2 else l2)) /\
    regions s2 = regions s /\ first_arena s2 = first_arena s /\
    os s2 = os s /\ err s2 = err s /\
    read64 (mem s2) (hdr_size h)
    = (if (read64 (mem s) (hdr_asize (hd h (l2 ++ l1))) =? 0)
          && (h <? hd h (l2 ++ l1))
       then wrap (read64 (mem s) (hdr_size h)
                  + read64 (mem s) (hdr_size (hd h (l2 ++ l1)))
                  + sizeof_Header)
       else read64 (mem s) (hdr_size h)) /\
    (forall x, x < h \/ h + 16 <= x -> mem s2 x = mem s x).
Proof.
  intros Hshape Hmin Ah.
  pose proof Hshape as
      (Hfa & Hchain & Hsepa & Hhd & Hring & Hmap & Hnn & Hdis & Hba).
  set (first := wrap (first_arena s + sizeof_Arena)) in *.
  set (nx := hd h (l2 ++ l1)).
  assert (Inh : In h (l1 ++ h :: l2)).
  { apply in_or_app. right. left. reflexivity. }
  assert (Rot : ring_from s h (h :: l2 ++ l1)).
  { apply (ring_rotate s first); [exact Hring | exact Hhd|].
    apply disjoint_headers_NoDup. exact Hdis. }
  assert (Nx : read64 (mem s) (hdr_next h) = nx).
  { apply (ring_from_hd s h h (l2 ++ l1) Rot). }
  assert (Inx : In nx (l1 ++ h :: l2)).
  { apply in_rotate. apply hd_in. }
  destruct (single_arena_facts s a _ h Hshape Inh) as (Ma & Han & Hh0 & Mh).
  destruct (single_arena_facts s a _ nx Hshape Inx) as (_ & _ & Hn0 & Mn).
  destruct ((read64 (mem s) (hdr_asize nx) =? 0) && (h <? nx)) eqn:Em1.
  - apply andb_true_iff in Em1. destruct Em1 as [An Hlt].
    apply Z.eqb_eq in An. apply Z.ltb_lt in Hlt.
    destruct l2 as [|y t].
    + exfalso. unfold nx in Hlt. simpl app in Hlt.
      destruct l1 as [|f0 r]; [simpl in Hlt; lia|].
      simpl in Hlt, Hhd. subst f0.
      rewrite Forall_forall in Hmin. specialize (Hmin h Inh). lia.
    + assert (Eny : nx = y) by reflexivity.
      destruct (merge_step f s a h y l1 t Hshape Ah
                  ltac:(rewrite <- Eny; exact An)
                  ltac:(rewrite <- Eny; exact Hlt))
        as (s2 & Cm & Mg & Sh2 & R2 & F2 & O2 & E2 & Sz2 & Fr2).
      exists s2. rewrite Eny.
      split; [rewrite <- Eny, <- Nx; apply load64_ok; apply Mh|].
      split; [exact Cm|].
      split.
      { rewrite bind_load by apply Mh. rewrite Nx, Eny. exact Mg. }
      split; [exact Sh2|].
      split; [exact R2|]. split; [exact F2|]. split; [exact O2|].
      split; [exact E2|]. split; [exact Sz2 | exact Fr2].
  - exists s.
    split; [rewrite <- Nx; apply load64_ok; apply Mh|].
    split.
    { apply hdr_can_merge_refuses; try assumption; try apply Mh; try apply Mn.
      rewrite Ah. change (0 =? 0) with true. exact Em1. }
    split; [reflexivity|]. split; [exact Hshape|].
    repeat split; reflexivity.
Qed.

Lemma last_app_single (l : list Z) (x d : Z) : last (l ++ [x]) d = x.
Proof.
  induction l as [|y t IH]; [reflexivity|].
  change ((y :: t) ++ [x]) with (y :: (t ++ [x])).
  rewrite last_cons_default.
  destruct t as [|z r]; [reflexivity|].
  change ((z :: r) ++ [x]) with (z :: (r ++ [x])) in *.
  rewrite last_cons_default in *. exact IH.
Qed.

Lemma last_app_nonempty (l r : list Z) (x d : Z) :
  last (l ++ r ++ [x]) d = x.
Proof. rewrite app_assoc. apply last_app_single. Qed.

(** The second attempt of [mfree], lines 349-350: the block is merged into
    its ring predecessor when that is free and lies below it. *)
Lemma mfree_second_merge (f : nat) (s : State) (a h : Z) (l1 l2 : list Z) :
  heap_shape s [a] (l1 ++ h :: l2) ->
  Forall (fun x => wrap (first_arena s + sizeof_Arena) <= x) (l1 ++ h :: l2) ->
  read64 (mem s) (hdr_asize h) = 0 ->
  (List.length (l1 ++ h :: l2) <= S f)%nat ->
  exists s3,
    hdr_get_prev (S f) h s = Ok (last (l2 ++ l1) h) s /\
    hdr_can_merge (S f) (last (l2 ++ l1) h) h s
    = Ok ((read64 (mem s) (hdr_asize (last (l2 ++ l1) h)) =? 0)
          && (last (l2 ++ l1) h <? h)) s /\
    (if (read64 (mem s) (hdr_asize (last (l2 ++ l1) h)) =? 0)
        && (last (l2 ++ l1) h <? h)
     then prev' <- hdr_get_prev (S f) h ;; hdr_merge prev' h
     else ret tt) s = Ok tt s3 /\
    heap_shape s3 [a]
      (if (read64 (mem s) (hdr_asize (last (l2 ++ l1) h)) =? 0)
          && (last (l2 ++ l1) h <? h)
       then l1 ++ l2 else l1 ++ h :: l2) /\
    regions s3 = regions s /\ first_arena s3 = first_arena s /\
    os s3 = os s /\ err s3 = err s /\
    (if (read64 (mem s) (hdr_asize (last (l2 ++ l1) h)) =? 0)
        && (last (l2 ++ l1) h <? h)
     then read64 (mem s3) (hdr_size (last (l2 ++ l1) h))
          = wrap (read64 (mem s) (hdr_size (last (l2 ++ l1) h))
                  + read64 (mem s) (hdr_size h) + sizeof_Header)
     else s3 = s) /\
    (forall x, x < last (l2 ++ l1) h \/ last (l2 ++ l1) h + 16 <= x ->
               mem s3 x = mem s x).
Proof.
  intros Hshape Hmin Ah Hfuel.
  pose proof Hshape as
      (Hfa & Hchain & Hsepa & Hhd & Hring & Hmap & Hnn & Hdis & Hba).
  set (first := wrap (first_arena s + sizeof_Arena)) in *.
  set (prev := last (l2 ++ l1) h).
  assert (Inh : In h (l1 ++ h :: l2)).
  { apply in_or_app. right. left. reflexivity. }
  assert (Rot : ring_from s h (h :: l2 ++ l1)).
  { apply (ring_rotate s first); [exact Hring | exact Hhd|].
    apply disjoint_headers_NoDup. exact Hdis. }
  assert (Inp : In prev (l1 ++ h :: l2)).
  { apply in_rotate. apply last_in. }
  destruct (single_arena_facts s a _ h Hshape Inh) as (Ma & Han & Hh0 & Mh).
  destruct (single_arena_facts s a _ prev Hshape Inp) as (_ & _ & Hp0 & Mp).
  assert (Gp : hdr_get_prev (S f) h s = Ok prev s).
  { unfold hdr_get_prev. rewrite bind_get_first_arena.
    rewrite !eqb_false by assumption.
    change (false || false) with false. cbv iota.
    apply get_prev_loop_ring.
    - exact Rot.
    - apply Forall_forall. intros x Hx. rewrite Forall_forall in Hmap.
      apply Hmap. apply in_rotate. exact Hx.
    - simpl List.length. rewrite length_app in *. simpl List.length in Hfuel.
      lia. }
  assert (Np : read64 (mem s) (hdr_next prev) = h).
  { apply ring_from_links in Rot. apply Rot. }
  destruct ((read64 (mem s) (hdr_asize prev) =? 0) && (prev <? h)) eqn:Em2.
  - apply andb_true_iff in Em2. destruct Em2 as [Ap Hlt].
    apply Z.eqb_eq in Ap. apply Z.ltb_lt in Hlt.
    destruct (list_eq_dec Z.eq_dec l1 []) as [E1 | N1].
    + exfalso. subst l1. simpl in Hhd.
      rewrite Forall_forall in Hmin. specialize (Hmin prev Inp).
      fold first in Hmin. lia.
    + destruct (exists_last N1) as (l1' & p' & E1). subst l1.
      assert (Ep : prev = p').
      { unfold prev. apply last_app_nonempty. }
      clearbody prev. subst p'.
      rewrite <- app_assoc in Hshape. simpl app in Hshape.
      destruct (merge_step f s a prev h l1' l2 Hshape Ap Ah Hlt)
        as (s3 & Cm & Mg & Sh3 & R3 & F3 & O3 & E3 & Sz3 & Fr3).
      exists s3. split; [exact Gp|]. split; [exact Cm|].
      split; [rewrite (bind_ok _ _ _ _ _ Gp); exact Mg|].
      split; [rewrite <- app_assoc; exact Sh3|].
      split; [exact R3|]. split; [exact F3|]. split; [exact O3|].
      split; [exact E3|]. split; [exact Sz3 | exact Fr3].
  - exists s. split; [exact Gp|].
    split.
    { apply hdr_can_merge_refuses; try assumption; try apply Mh; try apply Mp.
      rewrite Ah. change (0 =? 0) with true. rewrite andb_true_r.
      exact Em2. }
    split; [reflexivity|]. split; [exact Hshape|].
    repeat split; reflexivity.
Qed.

(** ** [mfree] on a heap with a single arena *)

(** The run of [mfree], with what it leaves untouched. *)
Lemma mfree_single_arena_run
      (fuel : nat) (s : State) (a h : Z) (l1 l2 : list Z) :
  heap_shape s [a] (l1 ++ h :: l2) ->
  Forall (fun x => wrap (first_arena s + sizeof_Arena) <= x) (l1 ++ h :: l2) ->
  (List.length (l1 ++ h :: l2) <= fuel)%nat ->
  let nx := hd h (l2 ++ l1) in
  let m1 := (read64 (mem s) (hdr_asize nx) =? 0) && (h <? nx) in
  let l2' := if m1 then tl l2 else l2 in
  let sz1 := if m1
             then wrap (read64 (mem s) (hdr_size h)
                        + read64 (mem s) (hdr_size nx) + sizeof_Header)
             else read64 (mem s) (hdr_size h) in
  let prev := last (l2' ++ l1) h in
  let m2 := (read64 (mem s) (hdr_asize prev) =? 0) && (prev <? h) in
  exists s',
    mfree fuel (h + sizeof_Header) s = Ok tt s' /\
    same_maps s s' /\ err s' = err s /\
    read64 (mem s') (hdr_asize h) = 0 /\
    (if m2
     then read64 (mem s') (hdr_size prev)
          = wrap (read64 (mem s) (hdr_size prev) + sz1 + sizeof_Header)
     else read64 (mem s') (hdr_size h) = sz1) /\
    heap_shape s' [a] (if m2 then l1 ++ l2' else l1 ++ h :: l2') /\
    In prev (l1 ++ h :: l2) /\
    (forall x, x < h \/ h + sizeof_Header <= x ->
               x < prev \/ prev + 16 <= x -> mem s' x = mem s x).
Proof.
  intros Hshape Hmin Hfuel nx m1 l2' sz1 prev m2.
  destruct fuel as [|f].
  { rewrite length_app in Hfuel. simpl in Hfuel. lia. }
  pose proof Hshape as
      (Hfa & Hchain & Hsepa & Hhd & Hring & Hmap & Hnn & Hdis & Hba).
  assert (Inh : In h (l1 ++ h :: l2)).
  { apply in_or_app. right. left. reflexivity. }
  assert (Rh : 0 <= h < WORD).
  { pose proof (heap_shape_range _ _ _ Hshape) as R.
    rewrite Forall_forall in R. apply R. exact Inh. }
  destruct (single_arena_facts s a _ h Hshape Inh) as (_ & _ & Hh0 & Mh).
  (* the block is marked free *)
  unfold mfree.
  rewrite eqb_false by (unfold NULL, sizeof_Header; lia).
  change (negb false) with true. cbv iota.
  replace (wrap (h + sizeof_Header - sizeof_Header)) with h
    by (symmetry; replace (h + sizeof_Header - sizeof_Header) with h by lia;
        apply wrap_small; exact Rh).
  rewrite bind_store by apply Mh.
  set (s1 := with_mem s (write64 (mem s) (hdr_asize h) 0)).
  assert (F1 : forall x, x < h + 16 \/ h + 24 <= x -> mem s1 x = mem s x).
  { intros x Hx. unfold s1. simpl mem. unfold hdr_asize.
    apply write64_byte_out. lia. }
  assert (Sep : forall y, In y (l1 ++ h :: l2) -> y <> h ->
                          y + 24 <= h \/ h + 24 <= y).
  { intros y Hy Hyh.
    pose proof (disjoint_headers_in _ Hdis y h Hy Inh) as D.
    unfold sizeof_Header in D. tauto. }
  assert (Shape1 : heap_shape s1 [a] (l1 ++ h :: l2)).
  { apply (heap_shape_frame s s1 _ _ Hshape); try reflexivity.
    - intros y x Hy Hx. apply F1.
      destruct (Z.eq_dec y h) as [-> | Hyh]; [lia|].
      specialize (Sep y Hy Hyh). lia.
    - intros b x Hb Hx. apply F1.
      rewrite Forall_forall in Hba. specialize (Hba h Inh).
      rewrite Forall_forall in Hba. specialize (Hba b Hb).
      unfold sizeof_Header, sizeof_Arena in Hba. lia. }
  assert (As1 : read64 (mem s1) (hdr_asize h) = 0).
  { unfold s1. simpl mem. apply read_write_same. unfold WORD. lia. }
  assert (Rd1 : forall y, In y (l1 ++ h :: l2) -> y <> h ->
                 read64 (mem s1) (hdr_asize y) = read64 (mem s) (hdr_asize y) /\
                 read64 (mem s1) (hdr_size y) = read64 (mem s) (hdr_size y)).
  { intros y Hy Hyh. specialize (Sep y Hy Hyh).
    split; apply read64_ext; intros x Hx; apply F1;
      unfold hdr_asize, hdr_size in Hx; lia. }
  assert (Szh1 : read64 (mem s1) (hdr_size h) = read64 (mem s) (hdr_size h)).
  { apply read64_ext. intros x Hx. apply F1. unfold hdr_size in Hx. lia. }
  (* the successor *)
  assert (Inx : In nx (l1 ++ h :: l2)) by (apply in_rotate; apply hd_in).
  assert (Em1 : (read64 (mem s1) (hdr_asize nx) =? 0) && (h <? nx) = m1).
  { unfold m1. destruct (Z.eq_dec nx h) as [E | N].
    - rewrite E. rewrite Z.ltb_irrefl. rewrite !andb_false_r. reflexivity.
    - rewrite (proj1 (Rd1 nx Inx N)). reflexivity. }
  assert (Esz1 : (if m1
                  then wrap (read64 (mem s1) (hdr_size h)
                             + read64 (mem s1) (hdr_size nx) + sizeof_Header)
                  else read64 (mem s1) (hdr_size h)) = sz1).
  { unfold sz1. rewrite Szh1. destruct m1 eqn:E; [|reflexivity].
    destruct (Z.eq_dec nx h) as [E' | N].
    - exfalso. unfold m1 in E. rewrite E' in E. rewrite Z.ltb_irrefl in E.
      rewrite andb_false_r in E. discriminate.
    - rewrite (proj2 (Rd1 nx Inx N)). reflexivity. }
  destruct (mfree_first_merge f s1 a h l1 l2 Shape1 Hmin As1)
    as (s2 & Ld & Cm1 & Mg1 & Shape2 & R2 & Fa2 & O2 & E2 & Sz2 & Fr2).
  fold nx in Ld, Cm1, Mg1, Shape2, Sz2.
  rewrite Em1 in Cm1, Mg1, Shape2, Sz2. fold l2' in Shape2.
  rewrite Esz1 in Sz2.
  rewrite (bind_ok _ _ _ _ _ Ld). rewrite (bind_ok _ _ _ _ _ Cm1).
  rewrite (bind_ok _ _ _ _ _ Mg1).
  assert (As2 : read64 (mem s2) (hdr_asize h) = 0).
  { rewrite <- As1. apply read64_ext. intros x Hx. apply Fr2.
    unfold hdr_asize in Hx. lia. }
  (* the predecessor *)
  assert (Sub : forall y, In y (l1 ++ h :: l2') -> In y (l1 ++ h :: l2)).
  { intros y Hy. unfold l2' in Hy. destruct m1; [|exact Hy].
    destruct l2 as [|z t]; [exact Hy|]. simpl tl in Hy.
    apply in_skip with (y := z) in Hy.
    apply in_or_app. apply in_app_or in Hy.
    destruct Hy as [Hy | [Hy | [Hy | Hy]]];
      [left; exact Hy | right; left; exact Hy | |right; right; right; exact Hy].
    right. right. left. exact Hy. }
  assert (Hmin2 : Forall (fun x => wrap (first_arena s2 + sizeof_Arena) <= x)
                         (l1 ++ h :: l2')).
  { rewrite Fa2. apply Forall_forall. intros y Hy.
    rewrite Forall_forall in Hmin. apply Hmin. apply Sub. exact Hy. }
  assert (Hfuel2 : (List.length (l1 ++ h :: l2') <= S f)%nat).
  { unfold l2'. destruct m1; [|exact Hfuel].
    rewrite length_app in *. simpl List.length in *.
    destruct l2 as [|z t]; simpl in *; lia. }
  assert (Inp : In prev (l1 ++ h :: l2')) by (apply in_rotate; apply last_in).
  assert (Rdp : prev <> h ->
                read64 (mem s2) (hdr_asize prev) = read64 (mem s) (hdr_asize prev) /\
                read64 (mem s2) (hdr_size prev) = read64 (mem s) (hdr_size prev)).
  { intros N. pose proof (Sep prev (Sub _ Inp) N) as D.
    destruct (Rd1 prev (Sub _ Inp) N) as [<- <-].
    split; apply read64_ext; intros x Hx; apply Fr2;
      unfold hdr_asize, hdr_size in Hx; lia. }
  assert (Em2 : (read64 (mem s2) (hdr_asize prev) =? 0) && (prev <? h) = m2).
  { unfold m2. destruct (Z.eq_dec prev h) as [E | N].
    - rewrite E. rewrite Z.ltb_irrefl. rewrite !andb_false_r. reflexivity.
    - rewrite (proj1 (Rdp N)). reflexivity. }
  destruct (mfree_second_merge f s2 a h l1 l2' Shape2 Hmin2 As2 Hfuel2)
    as (s3 & Gp & Cm2 & Mg2 & Shape3 & R3 & Fa3 & O3 & E3 & Sz3 & Fr3).
  fold prev in Gp, Cm2, Mg2, Shape3, Sz3, Fr3.
  rewrite Em2 in Cm2, Mg2, Shape3, Sz3.
  rewrite (bind_ok _ _ _ _ _ Gp). rewrite (bind_ok _ _ _ _ _ Cm2).
  exists s3. split; [exact Mg2|].
  split.
  { unfold same_maps. rewrite R3, R2, O3, O2, Fa3, Fa2.
    repeat split. }
  split; [rewrite E3, E2; reflexivity|].
  assert (Fr : forall x, x < h \/ h + sizeof_Header <= x ->
                         x < prev \/ prev + 16 <= x -> mem s3 x = mem s x).
  { intros x Hx Hxp. unfold sizeof_Header in Hx.
    rewrite Fr3 by exact Hxp. rewrite Fr2 by lia. apply F1. lia. }
  destruct m2 eqn:Hm2.
  - assert (Hlt : prev < h).
    { unfold m2 in Hm2. apply andb_true_iff in Hm2.
      apply Z.ltb_lt. apply Hm2. }
    pose proof (Sep prev (Sub _ Inp) ltac:(lia)) as D.
    split.
    { rewrite <- As2. apply read64_ext. intros x Hx. apply Fr3.
      unfold hdr_asize in Hx. lia. }
    split.
    { rewrite Sz3, Sz2. rewrite (proj2 (Rdp ltac:(lia))). reflexivity. }
    split; [exact Shape3|]. split; [apply Sub; exact Inp | exact Fr].
  - subst s3. split; [exact As2|]. split; [exact Sz2|].
    split; [exact Shape3|]. split; [apply Sub; exact Inp | exact Fr].
Qed.

(** X20: On a well-shaped heap with a single arena, whose first block has the
    lowest address, [mfree] of a block [h] of the ring returns, maps
    nothing and marks the block free.  It folds the ring successor [nx]
    into [h] when [nx] is free and lies above [h]; it then folds [h] into
    its ring predecessor [prev] when that is free and lies below [h].
    What was folded leaves the ring, its size and one header footprint are
    added (modulo 2^64) to the block that took it, and the heap keeps its
    shape. *)
Theorem mfree_coalesces_in_single_arena
        (fuel : nat) (s : State) (a h : Z) (l1 l2 : list Z) :
  heap_shape s [a] (l1 ++ h :: l2) ->
  Forall (fun x => wrap (first_arena s + sizeof_Arena) <= x) (l1 ++ h :: l2) ->
  (List.length (l1 ++ h :: l2) <= fuel)%nat ->
  let nx := hd h (l2 ++ l1) in
  let m1 := (read64 (mem s) (hdr_asize nx) =? 0) && (h <? nx) in
  let l2' := if m1 then tl l2 else l2 in
  let sz1 := if m1
             then wrap (read64 (mem s) (hdr_size h)
                        + read64 (mem s) (hdr_size nx) + sizeof_Header)
             else read64 (mem s) (hdr_size h) in
  let prev := last (l2' ++ l1) h in
  let m2 := (read64 (mem s) (hdr_asize prev) =? 0) && (prev <? h) in
  exists s',
    mfree fuel (h + sizeof_Header) s = Ok tt s' /\
    same_maps s s' /\ err s' = err s /\
    read64 (mem s') (hdr_asize h) = 0 /\
    (if m2
     then read64 (mem s') (hdr_size prev)
          = wrap (read64 (mem s) (hdr_size prev) + sz1 + sizeof_Header)
     else read64 (mem s') (hdr_size h) = sz1) /\
    heap_shape s' [a] (if m2 then l1 ++ l2' else l1 ++ h :: l2').
Proof.
  intros Hshape Hmin Hfuel nx m1 l2' sz1 prev m2.
  destruct (mfree_single_arena_run fuel s a h l1 l2 Hshape Hmin Hfuel)
    as (s' & E & Hm & He & Ha & Hs & Sh & _).
  exists s'. split; [exact E|]. split; [exact Hm|]. split; [exact He|].
  split; [exact Ha|]. split; [exact Hs | exact Sh].
Qed.

(** The second of four 16-byte blocks is freed between two free
    neighbours: the three become one block of 16 + 16 + 16 bytes and two
    header footprints, and the ring is left with three blocks. *)
Lemma mfree_coalesces_in_single_arena_witness :
  exists s',
    mfree enough (arena1 + 56 + sizeof_Header) heap_between_free = Ok tt s' /\
    same_maps heap_between_free s' /\ err s' = err heap_between_free /\
    read64 (mem s') (hdr_asize (arena1 + 56)) = 0 /\
    read64 (mem s') (hdr_size (arena1 + 16)) = 96 /\
    heap_shape s' [arena1] [arena1 + 16; arena1 + 136; arena1 + 176].
Proof.
  pose proof (mfree_coalesces_in_single_arena
                enough heap_between_free arena1 (arena1 + 56)
                [arena1 + 16] [arena1 + 96; arena1 + 136; arena1 + 176]) as H.
  cbv zeta in H.
  match type of H with
  | _ -> _ -> _ -> exists s', _ /\ _ /\ _ /\ _ /\ (if ?b then _ else _) /\ _ =>
    replace b with true in H by (vm_compute; reflexivity)
  end.
  match type of H with
  | context [if ?b then tl _ else _] =>
    replace b with true in H by (vm_compute; reflexivity)
  end.
  cbv iota in H.
  apply H.
  - unfold heap_shape.
    split; [vm_compute; discriminate|].
    split; [vm_compute; repeat split; discriminate|].
    split; [simpl; split; constructor|].
    split; [vm_compute; reflexivity|].
    split; [vm_compute; repeat split; discriminate|].
    split.
    { repeat (constructor; [apply header_mapped_check; vm_compute; reflexivity|]).
      constructor. }
    split; [vm_compute; intros [C | [C | [C | [C | [C | []]]]]]; discriminate|].
    split.
    { simpl. repeat split; repeat (constructor; [apart_check|]); constructor. }
    repeat (constructor; [constructor; [apart_check | constructor]|]).
    constructor.
  - repeat (constructor; [vm_compute; discriminate|]). constructor.
  - vm_compute. lia.
Defined.

(** ** [mrealloc] moving a block *)

Lemma memcpy_run (s : State) (dst src n : Z) :
  mapped (regions s) src (Z.to_nat n) = true ->
  mapped (regions s) dst (Z.to_nat n) = true ->
  memcpy dst src n s
  = Ok tt (with_mem s
             (fun x => if (dst <=? x) && (x <? dst + n)
                       then byte_at (mem s) (src + (x - dst))
                       else mem s x)).
Proof. intros H1 H2. unfold memcpy. rewrite H1, H2. reflexivity. Qed.

Lemma find_ext_in (f g : Z -> bool) (l : list Z) :
  (forall x, In x l -> f x = g x) -> find f l = find g l.
Proof.
  induction l as [|x t IH]; intros H; [reflexivity|].
  simpl. rewrite (H x (or_introl eq_refl)).
  destruct (g x); [reflexivity|]. apply IH. intros y Hy. apply H. right. exact Hy.
Qed.

Lemma insert_after_in (h new x : Z) (l : list Z) :
  In x l -> In x (insert_after h new l).
Proof.
  induction l as [|y t IH]; intros H; [contradiction|].
  simpl. destruct (y =? h).
  - destruct H as [H | H]; [left; exact H | right; right; exact H].
  - destruct H as [H | H]; [left; exact H | right; apply IH; exact H].
Qed.

Lemma length_insert_after (h new : Z) (l : list Z) :
  (List.length (insert_after h new l) <= S (List.length l))%nat.
Proof.
  induction l as [|y t IH]; simpl; [lia|].
  destruct (y =? h); simpl; lia.
Qed.

(** X21: On a well-shaped heap with a single arena: the block [h] is in use,
    smaller than the request [m], and its ring successor is in use too, so
    it cannot grow where it is.  The first block [g] that fits is more
    than a header larger than [m], its bytes are mapped and hold no
    header, and it does not overlap the bytes of [h].  Then [mrealloc]
    maps nothing and returns the address past the header of [g]; the
    occupied bytes of the old block are found there, [g] holds [m] bytes,
    the old block is marked free, and the heap has its shape again. *)
Theorem mrealloc_moves_block_and_copies
        (fuel : nat) (s : State) (a h g m : Z) (l1 l2 : list Z) :
  heap_shape s [a] (l1 ++ h :: l2) ->
  Forall (fun x => wrap (first_arena s + sizeof_Arena) <= x) (l1 ++ h :: l2) ->
  (List.length (l1 ++ h :: l2) < fuel)%nat ->
  0 < read64 (mem s) (hdr_asize h) <= read64 (mem s) (hdr_size h) ->
  read64 (mem s) (hdr_size h) < m ->
  read64 (mem s) (hdr_asize (hd h (l2 ++ l1))) <> 0 ->
  h + sizeof_Header + read64 (mem s) (hdr_asize h) <= WORD ->
  (forall x, h + sizeof_Header <= x
             < h + sizeof_Header + read64 (mem s) (hdr_asize h) ->
             mapped_byte (regions s) x = true) ->
  first_fitting s m (l1 ++ h :: l2) = g -> g <> NULL ->
  m + sizeof_Header < read64 (mem s) (hdr_size g) ->
  g + sizeof_Header + read64 (mem s) (hdr_size g) <= WORD ->
  (forall x, g + sizeof_Header <= x
             < g + sizeof_Header + read64 (mem s) (hdr_size g) ->
             mapped_byte (regions s) x = true) ->
  outside_region (g + sizeof_Header) (read64 (mem s) (hdr_size g))
                 sizeof_Header (l1 ++ h :: l2) ->
  outside_region (g + sizeof_Header) (read64 (mem s) (hdr_size g))
                 sizeof_Arena [a] ->
  h + sizeof_Header + read64 (mem s) (hdr_asize h) <= g
  \/ g + sizeof_Header + read64 (mem s) (hdr_size g) <= h + sizeof_Header ->
  exists s',
    mrealloc fuel (h + sizeof_Header) m s = Ok (g + sizeof_Header) s' /\
    same_maps s s' /\
    (forall i, 0 <= i < read64 (mem s) (hdr_asize h) ->
               byte_at (mem s') (g + sizeof_Header + i)
               = byte_at (mem s) (h + sizeof_Header + i)) /\
    read64 (mem s') (hdr_asize g) = m /\
    read64 (mem s') (hdr_asize h) = 0 /\
    exists l', heap_shape s' [a] l'.
Proof.
  intros Hshape Hmin Hfuel Hold Hsmall Hnx Hpw Mdata Hfit Hg Hroom Hgw Mg
         Hol Hola Hapart.
  pose proof Hshape as
      (Hfa & Hchain & Hsepa & Hhd & Hring & Hmap & Hnn & Hdis & Hba).
  set (l := l1 ++ h :: l2) in *.
  set (old := read64 (mem s) (hdr_asize h)) in *.
  set (usz := read64 (mem s) (hdr_size h)) in *.
  set (gsz := read64 (mem s) (hdr_size g)) in *.
  set (nx := hd h (l2 ++ l1)) in *.
  assert (Inh : In h l).
  { apply in_or_app. right. left. reflexivity. }
  assert (Ing : In g l /\ fits s m g = true).
  { unfold first_fitting in Hfit.
    destruct (find (fits s m) l) as [g0|] eqn:E.
    - subst g0. apply first_fitting_in. exact E.
    - exfalso. apply Hg. symmetry. exact Hfit. }
  destruct Ing as [Ing Hfits].
  unfold fits in Hfits. apply andb_true_iff in Hfits.
  destruct Hfits as [Hgfree _]. apply Z.eqb_eq in Hgfree.
  assert (Hgh : g <> h).
  { intros C. rewrite C in Hgfree. unfold old in Hold. lia. }
  pose proof (heap_shape_range _ _ _ Hshape) as Hrange.
  rewrite Forall_forall in Hrange.
  pose proof (Hrange h Inh) as Rh. pose proof (Hrange g Ing) as Rg.
  destruct (single_arena_facts s a _ h Hshape Inh) as (Ma & Han & Hh0 & Mh).
  assert (Inx : In nx l) by (apply in_rotate; apply hd_in).
  destruct (single_arena_facts s a _ nx Hshape Inx) as (_ & _ & _ & Mn).
  assert (Hnh : nx <> h).
  { pose proof (disjoint_headers_NoDup _ Hdis) as Hnd.
    unfold l in Hnd. apply NoDup_remove_2 in Hnd.
    unfold nx. destruct (l2 ++ l1) as [|y r] eqn:E.
    - exfalso. unfold l in Ing. apply in_app_or in Ing.
      apply app_eq_nil in E. destruct E as [-> ->].
      destruct Ing as [[] | [C | []]]. apply Hgh. symmetry. exact C.
    - simpl. intros C. subst y. apply Hnd.
      assert (Hin : In h (l2 ++ l1)) by (rewrite E; left; reflexivity).
      apply in_or_app. apply in_app_or in Hin. tauto. }
  assert (Sep : forall y, In y l -> y <> h -> y + 24 <= h \/ h + 24 <= y).
  { intros y Hy Hyh.
    pose proof (disjoint_headers_in _ Hdis y h Hy Inh) as D.
    unfold sizeof_Header in D. tauto. }
  pose proof (read64_range (mem s) (hdr_size g)) as Rgs. fold gsz in Rgs.
  pose proof (read64_range (mem s) (hdr_size h)) as Rus. fold usz in Rus.
  unfold outside_region in Hol, Hola.
  rewrite Forall_forall in Hol, Hola.
  unfold sizeof_Header in Hroom, Hgw, Hpw, Hapart.
  (* up to the decision to move *)
  unfold mrealloc.
  rewrite eqb_false by (unfold NULL, sizeof_Header; lia).
  rewrite eqb_false by lia.
  cbv zeta.
  replace (wrap (h + sizeof_Header - sizeof_Header)) with h
    by (symmetry; replace (h + sizeof_Header - sizeof_Header) with h by lia;
        apply wrap_small; exact Rh).
  rewrite bind_load by apply Mh. fold usz.
  rewrite ltb_false by lia. rewrite eqb_false by lia.
  rewrite bind_load by apply Mh. fold usz.
  rewrite leb_false by lia.
  rewrite bind_load by apply Mh. fold old.
  rewrite bind_store by apply Mh.
  set (s1 := with_mem s (write64 (mem s) (hdr_asize h) 0)).
  assert (F1 : forall x, x < h + 16 \/ h + 24 <= x -> mem s1 x = mem s x).
  { intros x Hx. unfold s1. simpl mem. unfold hdr_asize.
    apply write64_byte_out. lia. }
  assert (Rd1 : forall y, In y l -> y <> h ->
                 read64 (mem s1) (hdr_asize y) = read64 (mem s) (hdr_asize y) /\
                 read64 (mem s1) (hdr_size y) = read64 (mem s) (hdr_size y)).
  { intros y Hy Hyh. specialize (Sep y Hy Hyh).
    split; apply read64_ext; intros x Hx; apply F1;
      unfold hdr_asize, hdr_size in Hx; lia. }
  assert (Shape1 : heap_shape s1 [a] l).
  { apply (heap_shape_frame s s1 _ _ Hshape); try reflexivity.
    - intros y x Hy Hx. apply F1.
      destruct (Z.eq_dec y h) as [-> | Hyh]; [lia|].
      specialize (Sep y Hy Hyh). lia.
    - intros b x Hb Hx. apply F1.
      rewrite Forall_forall in Hba. specialize (Hba h Inh).
      rewrite Forall_forall in Hba. specialize (Hba b Hb).
      unfold sizeof_Header, sizeof_Arena in Hba. lia. }
  assert (Nx1 : read64 (mem s1) (hdr_next h) = nx).
  { pose proof Shape1 as (_ & _ & _ & Hhd1 & Hring1 & _ & _ & Hdis1 & _).
    apply (ring_from_hd s1 h h (l2 ++ l1)).
    apply (ring_rotate s1 _ h l1 l2 Hring1 Hhd1).
    apply disjoint_headers_NoDup. exact Hdis1. }
  rewrite bind_load by apply Mh. rewrite Nx1.
  rewrite bind_load by apply Mn.
  rewrite (proj1 (Rd1 nx Inx Hnh)).
  rewrite (eqb_false _ 0) by exact Hnx.
  rewrite bind_ret.
  (* the new block *)
  assert (Efit : first_fitting s1 m l = g).
  { rewrite <- Hfit. unfold first_fitting.
    rewrite (find_ext_in (fits s1 m) (fits s m)); [reflexivity|].
    intros y Hy. unfold fits.
    destruct (Z.eq_dec y h) as [-> | Hyh].
    - fold old usz.
      replace (read64 (mem s1) (hdr_size h)) with usz
        by (symmetry; apply read64_ext; intros x Hx; apply F1;
            unfold hdr_size in Hx; lia).
      rewrite (leb_false m usz) by lia. rewrite !andb_false_r. reflexivity.
    - destruct (Rd1 y Hy Hyh) as [-> ->]. reflexivity. }
  assert (Hff : first_fit fuel m s1 = Ok g s1).
  { rewrite <- Efit.
    destruct Shape1 as (Hfa1 & _ & _ & Hhd1 & Hring1 & Hmap1 & _).
    apply first_fit_ring; try assumption; lia. }
  assert (Mnew : header_mapped s1 (g + sizeof_Header + m)).
  { unfold header_mapped, hdr_next, hdr_size, hdr_asize, sizeof_Header.
    repeat split; apply mapped_of_bytes; intros x Hx; apply Mg;
      unfold sizeof_Header; lia. }
  destruct (mmalloc_split_run fuel s1 m g [a] l Shape1 Hff Ing
              ltac:(rewrite (proj1 (Rd1 g Ing Hgh)); exact Hgfree)
              ltac:(lia)
              ltac:(rewrite (proj2 (Rd1 g Ing Hgh)); fold gsz;
                    unfold sizeof_Header; lia)
              ltac:(rewrite (proj2 (Rd1 g Ing Hgh)); fold gsz;
                    unfold sizeof_Header; lia)
              Mnew
              ltac:(rewrite (proj2 (Rd1 g Ing Hgh)); fold gsz;
                    unfold outside_region; apply Forall_forall; exact Hol)
              ltac:(rewrite (proj2 (Rd1 g Ing Hgh)); fold gsz;
                    unfold outside_region; apply Forall_forall; exact Hola))
    as (sm & Em & (Rm & Om & Fam) & Errm & Agm & Sgm & _ & _ & Fm & Shapem).
  rewrite (bind_ok _ _ _ _ _ Em).
  unfold sizeof_Header in Fm.
  set (new := g + sizeof_Header + m) in *.
  assert (Hnw : new = g + 24 + m) by reflexivity.
  replace (wrap (g + sizeof_Header - sizeof_Header)) with g
    by (symmetry; replace (g + sizeof_Header - sizeof_Header) with g by lia;
        apply wrap_small; exact Rg).
  replace (wrap (g + sizeof_Header)) with (g + 24)
    by (symmetry; apply wrap_small; unfold sizeof_Header, WORD in *; lia).
  replace (wrap (h + sizeof_Header)) with (h + 24)
    by (symmetry; apply wrap_small; unfold sizeof_Header, WORD in *; lia).
  (* the copy *)
  rewrite (bind_ok _ _ _ _ _
             (memcpy_run sm (g + 24) (h + 24) old
                ltac:(apply mapped_of_bytes; intros x Hx; rewrite Rm;
                      apply Mdata; unfold sizeof_Header; lia)
                ltac:(apply mapped_of_bytes; intros x Hx; rewrite Rm;
                      apply Mg; unfold sizeof_Header; lia))).
  set (sc := with_mem sm _).
  assert (Fc : forall x, x < g + 24 \/ g + 24 + old <= x -> mem sc x = mem sm x).
  { intros x Hx. unfold sc. simpl mem.
    destruct ((g + 24 <=? x) && (x <? g + 24 + old)) eqn:E; [|reflexivity].
    apply andb_true_iff in E. destruct E as [E1 E2].
    apply Z.leb_le in E1. apply Z.ltb_lt in E2. lia. }
  assert (Cc : forall i, 0 <= i < old ->
                         mem sc (g + 24 + i) = byte_at (mem sm) (h + 24 + i)).
  { intros i Hi. unfold sc. simpl mem.
    replace ((g + 24 <=? g + 24 + i) && (g + 24 + i <? g + 24 + old)) with true
      by (symmetry; apply andb_true_iff;
          split; [apply Z.leb_le | apply Z.ltb_lt]; lia).
    f_equal. lia. }
  assert (Inl' : forall y, In y (insert_after g new l) -> In y l \/ y = new).
  { intros y Hy. apply in_insert_after in Hy. exact Hy. }
  assert (Out : forall y, In y (insert_after g new l) ->
                          y + 24 <= g + 24 \/ g + 24 + old <= y).
  { intros y Hy. destruct (Inl' y Hy) as [Hy' | ->].
    - specialize (Hol y Hy'). unfold sizeof_Header in Hol. lia.
    - lia. }
  assert (Shapec : heap_shape sc [a] (insert_after g new l)).
  { apply (heap_shape_frame sm sc _ _ Shapem); try reflexivity.
    - intros y x Hy Hx. apply Fc. specialize (Out y Hy). lia.
    - intros b x Hb Hx. apply Fc. specialize (Hola b Hb).
      unfold sizeof_Header, sizeof_Arena in Hola. lia. }
  (* the old block is freed *)
  assert (Inh' : In h (insert_after g new l)).
  { apply insert_after_in. exact Inh. }
  destruct (in_split _ _ Inh') as (k1 & k2 & Ek).
  rewrite Ek in Shapec.
  assert (Hminc : Forall (fun x => wrap (first_arena sc + sizeof_Arena) <= x)
                         (k1 ++ h :: k2)).
  { rewrite <- Ek. change (first_arena sc) with (first_arena sm).
    rewrite Fam. change (first_arena s1) with (first_arena s).
    apply Forall_forall. intros y Hy. rewrite Forall_forall in Hmin.
    destruct (Inl' y Hy) as [Hy' | ->].
    - apply Hmin. exact Hy'.
    - specialize (Hmin g Ing). lia. }
  assert (Hfuelc : (List.length (k1 ++ h :: k2) <= fuel)%nat).
  { rewrite <- Ek. pose proof (length_insert_after g new l). lia. }
  destruct (mfree_single_arena_run fuel sc a h k1 k2 Shapec Hminc Hfuelc)
    as (s' & Ef & (Rf & Of & Faf) & Errf & Ahf & _ & Shapef & Inp & Ff).
  cbv zeta in Shapef, Inp, Ff.
  match type of Inp with In ?p _ => set (prev := p) in * end.
  replace (h + 24) with (h + sizeof_Header) by reflexivity.
  rewrite (bind_ok _ _ _ _ _ Ef).
  exists s'. split; [reflexivity|].
  split.
  { unfold same_maps. rewrite Rf, Of, Faf.
    change (regions sc) with (regions sm). change (os sc) with (os sm).
    change (first_arena sc) with (first_arena sm).
    rewrite Rm, Om, Fam. repeat split. }
  rewrite <- Ek in Inp.
  assert (Hp : In prev l \/ prev = new) by (apply Inl'; exact Inp).
  split.
  { intros i Hi. unfold sizeof_Header.
    assert (E1 : mem s' (g + 24 + i) = mem sc (g + 24 + i)).
    { apply Ff.
      - specialize (Hol h Inh). unfold sizeof_Header in *. lia.
      - destruct Hp as [Hp | ->].
        + specialize (Hol prev Hp). unfold sizeof_Header in Hol. lia.
        + lia. }
    unfold byte_at at 1. rewrite E1. rewrite (Cc i Hi).
    unfold byte_at. rewrite Z.mod_mod by lia.
    f_equal. rewrite Fm by lia. apply F1. lia. }
  split.
  { rewrite <- Agm. apply read64_ext. intros x Hx. unfold hdr_asize in Hx.
    rewrite Ff.
    - apply Fc. lia.
    - specialize (Sep g Ing Hgh). unfold sizeof_Header. lia.
    - destruct Hp as [Hp | ->].
      + pose proof (disjoint_headers_in _ Hdis g prev Ing Hp) as D.
        unfold sizeof_Header in D. lia.
      + lia. }
  split; [exact Ahf|].
  eexists. exact Shapef.
Qed.

(** The first of two 16-byte blocks, both in use, is reallocated to 100
    bytes: it moves into the free rest of the arena. *)
Lemma mrealloc_moves_block_and_copies_witness :
  exists s',
    mrealloc enough (arena1 + 16 + sizeof_Header) 100 heap_two_blocks
    = Ok (arena1 + 96 + sizeof_Header) s' /\
    same_maps heap_two_blocks s' /\
    (forall i, 0 <= i < read64 (mem heap_two_blocks) (hdr_asize (arena1 + 16)) ->
               byte_at (mem s') (arena1 + 96 + sizeof_Header + i)
               = byte_at (mem heap_two_blocks) (arena1 + 16 + sizeof_Header + i)) /\
    read64 (mem s') (hdr_asize (arena1 + 96)) = 100 /\
    read64 (mem s') (hdr_asize (arena1 + 16)) = 0 /\
    exists l', heap_shape s' [arena1] l'.
Proof.
  apply (mrealloc_moves_block_and_copies
           enough heap_two_blocks arena1 (arena1 + 16) (arena1 + 96) 100
           [] [arena1 + 56; arena1 + 96]).
  - unfold heap_shape.
    split; [vm_compute; discriminate|].
    split; [vm_compute; repeat split; discriminate|].
    split; [simpl; split; constructor|].
    split; [vm_compute; reflexivity|].
    split; [vm_compute; repeat split; discriminate|].
    split.
    { repeat (constructor; [apply header_mapped_check; vm_compute; reflexivity|]).
      constructor. }
    split; [vm_compute; intros [C | [C | [C | []]]]; discriminate|].
    split.
    { simpl. repeat split; repeat (constructor; [apart_check|]); constructor. }
    repeat (constructor; [constructor; [apart_check | constructor]|]).
    constructor.
  - repeat (constructor; [vm_compute; discriminate|]). constructor.
  - vm_compute. lia.
  - vm_compute. split; [reflexivity | discriminate].
  - vm_compute. reflexivity.
  - vm_compute. discriminate.
  - vm_compute. discriminate.
  - intros x Hx.
    replace (regions heap_two_blocks) with [(arena1, 131072)]
      by (vm_compute; reflexivity).
    replace (read64 (mem heap_two_blocks) (hdr_asize (arena1 + 16))) with 16 in Hx
      by (vm_compute; reflexivity).
    apply mapped_byte_in_first_region.
    unfold arena1, sizeof_Header in *. lia.
  - vm_compute. reflexivity.
  - vm_compute. discriminate.
  - vm_compute. reflexivity.
  - vm_compute. discriminate.
  - intros x Hx.
    replace (regions heap_two_blocks) with [(arena1, 131072)]
      by (vm_compute; reflexivity).
    replace (read64 (mem heap_two_blocks) (hdr_size (arena1 + 96))) with 130952 in Hx
      by (vm_compute; reflexivity).
    apply mapped_byte_in_first_region.
    unfold arena1, sizeof_Header in *. lia.
  - unfold outside_region. repeat (constructor; [apart_check|]). constructor.
  - unfold outside_region. repeat (constructor; [apart_check|]). constructor.
  - left. vm_compute. discriminate.
Defined.

(** ** [mrealloc] shrinking a block by less than a header *)


